(** * NaTrack API (app.js): an executable model of the Express application
    and the properties of its request handling.

    The development follows the source file top-down: the JavaScript
    built-ins the code calls (strings, numbers, conversions), the values
    a request carries, the [sessions] table behind [pool.query], the
    middlewares ([corsOptions.origin], [requireEditAuth],
    [blockBrowserNav]), the handlers of the [api] router, and the
    application that mounts the router at [/] and at [/api].

    Conventions.
    - A JavaScript string is a [string]; each character is one code unit
      below 256 (the range in which Node delivers header values).  On
      that alphabet [toLowerCase] and [trim] are computed exactly.
      [decodeURIComponent] yields code units of any size; a route
      parameter that decodes to one above 255 is outside the model.
    - [String] and [Number] throw on an object that has an own
      [toString] (a parsed body or query holds no function), and the
      handlers catch the error like any other.
    - A JavaScript number is a binary64 value, [spec_float] with
      precision 53 and maximal exponent 1024.
    - A handler is a function of the world (the table, and the
      statements sent to the pool) that may throw; [uuidv4()] is an
      input of the request that calls it.
    - [console.error] output is not part of the model. *)

From Stdlib Require Import ZArith NArith Ascii String List Bool Lia.
From Stdlib Require Import DecimalString.
From Corelib Require Import SpecFloat.
From stdpp Require Import base option list strings gmap.
From Stdlib Require Import Sorted.

Local Open Scope Z_scope.

(** ** Strings *)

Module JSString.

Definition code (c : ascii) : N := N_of_ascii c.

(** [String.prototype.toLowerCase] on one code unit: A-Z, and the
    capital letters U+00C0-U+00DE except the multiplication sign. *)
Definition lowerChar (c : ascii) : ascii :=
  let n := code c in
  if ((65 <=? n) && (n <=? 90))%N then ascii_of_N (n + 32)
  else if ((192 <=? n) && (n <=? 222) && negb (n =? 215))%N
       then ascii_of_N (n + 32)
  else c.

Fixpoint toLowerCase (s : string) : string :=
  match s with
  | EmptyString => EmptyString
  | String c r => String (lowerChar c) (toLowerCase r)
  end.

(** WhiteSpace and LineTerminator code units: TAB, LF, VT, FF, CR,
    SP and NBSP. *)
Definition isWhiteSpace (c : ascii) : bool :=
  let n := code c in
  (((9 <=? n) && (n <=? 13)) || (n =? 32) || (n =? 160))%N.

Fixpoint trimStart (s : string) : string :=
  match s with
  | EmptyString => EmptyString
  | String c r => if isWhiteSpace c then trimStart r else s
  end.

Fixpoint trimEnd (s : string) : string :=
  match s with
  | EmptyString => EmptyString
  | String c r =>
      match trimEnd r with
      | EmptyString => if isWhiteSpace c then EmptyString
                       else String c EmptyString
      | r' => String c r'
      end
  end.

Definition trim (s : string) : string := trimEnd (trimStart s).

(** [s.startsWith(p)] *)
Definition startsWith (s p : string) : bool := String.prefix p s.

(** [s.slice(n)] for a non-negative [n] *)
Fixpoint slice (n : nat) (s : string) : string :=
  match n, s with
  | O, _ => s
  | S n', String _ r => slice n' r
  | S _, EmptyString => EmptyString
  end.

(** [s.slice(0, n)] for a non-negative [n] *)
Fixpoint sliceTo (n : nat) (s : string) : string :=
  match n, s with
  | S n', String c r => String c (sliceTo n' r)
  | _, _ => EmptyString
  end.

(** [s.includes(sub)] *)
Fixpoint includes (s sub : string) : bool :=
  String.prefix sub s ||
  match s with
  | EmptyString => false
  | String _ r => includes r sub
  end.

(** [s.split(sep)] for a one-character separator *)
Fixpoint split (sep : ascii) (s : string) : list string :=
  match s with
  | EmptyString => [EmptyString]
  | String c r =>
      if Ascii.eqb c sep then EmptyString :: split sep r
      else match split sep r with
           | [] => [String c EmptyString]
           | w :: ws => String c w :: ws
           end
  end.

(** [parts.join(sep)] *)
Fixpoint join (sep : string) (parts : list string) : string :=
  match parts with
  | [] => EmptyString
  | [p] => p
  | p :: ps => p +:+ sep +:+ join sep ps
  end.

(** A string is truthy when it is not empty. *)
Definition nonEmpty (s : string) : bool :=
  match s with EmptyString => false | _ => true end.

(** Equality that ignores the case of ASCII letters, as the
    regular expressions Express builds for its routes compare. *)
Definition foldChar (c : ascii) : ascii :=
  let n := code c in
  if ((65 <=? n) && (n <=? 90))%N then ascii_of_N (n + 32) else c.

Fixpoint eqNoCase (a b : string) : bool :=
  match a, b with
  | EmptyString, EmptyString => true
  | String x a', String y b' =>
      Ascii.eqb (foldChar x) (foldChar y) && eqNoCase a' b'
  | _, _ => false
  end.

End JSString.

(** ** Numbers *)

Module JSNumber.

(** The Number type: IEEE 754 binary64. *)
Definition number : Type := spec_float.
Definition prec : Z := 53.
Definition emax : Z := 1024.

Definition NaN : number := S754_nan.
Definition zero : number := S754_zero false.
Definition infinity (neg : bool) : number := S754_infinity neg.

(** The Number value of an integer (round to nearest, ties to even). *)
Definition ofZ (z : Z) : number := binary_normalize prec emax z 0 false.

(** [Number.isFinite(x)] *)
Definition isFinite (x : number) : bool :=
  match x with
  | S754_zero _ | S754_finite _ _ _ => true
  | S754_infinity _ | S754_nan => false
  end.

(** [x <= y] and [x > y]; both are false when an operand is NaN. *)
Definition leb (x y : number) : bool := SFleb x y.
Definition gtb (x y : number) : bool := SFltb y x.

(** [x === y] on numbers *)
Definition strictEq (x y : number) : bool := SFeqb x y.

(** ToBoolean: +0, -0 and NaN are falsy. *)
Definition truthy (x : number) : bool :=
  match x with
  | S754_zero _ | S754_nan => false
  | _ => true
  end.

(** Same representation (distinguishes -0 from +0, equates NaN). *)
Definition same (x y : number) : bool :=
  match x, y with
  | S754_zero a, S754_zero b => Bool.eqb a b
  | S754_infinity a, S754_infinity b => Bool.eqb a b
  | S754_nan, S754_nan => true
  | S754_finite a m e, S754_finite b m' e' =>
      Bool.eqb a b && (m =? m')%positive && (e =? e')
  | _, _ => false
  end.

Fixpoint countDigits (fuel : nat) (n : Z) : Z :=
  match fuel with
  | O => 0
  | S f => if n <=? 0 then 0 else 1 + countDigits f (n / 10)
  end.

(** Number of decimal digits of a positive integer (0 for 0). *)
Definition numDigits (n : Z) : Z :=
  countDigits (S (Z.to_nat (Z.log2 n))) n.

(** The Number value of [d * 10^e] for [d >= 0], with the sign
    [neg]: the nearest binary64 value, ties to even, overflowing to
    an infinity.  A quotient is rounded through a sticky bit. *)
Definition roundDecimal (neg : bool) (d e : Z) : number :=
  let sgn := if neg then (-1) else 1 in
  if d <=? 0 then S754_zero neg
  else
    let nd := numDigits d in
    if 310 <? nd + e then S754_infinity neg
    else if nd + e <? -330 then S754_zero neg
    else if 0 <=? e then
      binary_normalize prec emax (sgn * (d * 10 ^ e)) 0 neg
    else
      let den := 10 ^ (- e) in
      let k := Z.max 0 (Z.log2 den - Z.log2 d + 64) in
      let (q, r) := Z.div_eucl (d * 2 ^ k) den in
      let sticky := if r =? 0 then 0 else 1 in
      binary_normalize prec emax (sgn * (2 * q + sticky)) (- k - 1) neg.

(** *** StringToNumber *)

Definition digitVal (radix : Z) (c : ascii) : option Z :=
  let n := Z.of_N (N_of_ascii c) in
  let v := if (48 <=? n) && (n <=? 57) then n - 48
           else if (97 <=? n) && (n <=? 102) then n - 87
           else if (65 <=? n) && (n <=? 70) then n - 55
           else 99 in
  if v <? radix then Some v else None.

(** Reads a maximal run of digits: the value accumulated onto [acc],
    the number of digits read, and the rest of the text. *)
Fixpoint readDigits (radix : Z) (s : string) (acc cnt : Z)
  : Z * Z * string :=
  match s with
  | EmptyString => (acc, cnt, s)
  | String c r =>
      match digitVal radix c with
      | Some v => readDigits radix r (acc * radix + v) (cnt + 1)
      | None => (acc, cnt, s)
      end
  end.

Definition readSign (s : string) : bool * string :=
  match s with
  | String "-" r => (true, r)
  | String "+" r => (false, r)
  | _ => (false, s)
  end.

(** ExponentPart, or nothing; [None] when the text is malformed. *)
Definition readExponent (s : string) : option Z :=
  match s with
  | EmptyString => Some 0
  | String c r =>
      if Ascii.eqb c "e" || Ascii.eqb c "E" then
        let (neg, r1) := readSign r in
        match readDigits 10 r1 0 0 with
        | (v, cnt, EmptyString) =>
            if 0 <? cnt then Some (if neg then - v else v) else None
        | _ => None
        end
      else None
  end.

(** StrDecimalLiteral *)
Definition parseDecimal (s : string) : number :=
  let (neg, r) := readSign s in
  if String.eqb r "Infinity" then infinity neg
  else
    let '(ip, n1, r1) := readDigits 10 r 0 0 in
    let '(m, n2, r2) :=
      match r1 with
      | String "." r' => readDigits 10 r' ip 0
      | _ => (ip, 0, r1)
      end in
    if 0 <? n1 + n2 then
      match readExponent r2 with
      | Some ex => roundDecimal neg m (ex - n2)
      | None => NaN
      end
    else NaN.

(** NonDecimalIntegerLiteral: the digits after the two-character
    prefix. *)
Definition parseRadix (radix : Z) (digits : string) : number :=
  match readDigits radix digits 0 0 with
  | (v, cnt, EmptyString) => if 0 <? cnt then ofZ v else NaN
  | _ => NaN
  end.

Definition stringToNumber (s : string) : number :=
  match JSString.trim s with
  | EmptyString => zero
  | String "0" (String "x" r) | String "0" (String "X" r) => parseRadix 16 r
  | String "0" (String "o" r) | String "0" (String "O" r) => parseRadix 8 r
  | String "0" (String "b" r) | String "0" (String "B" r) => parseRadix 2 r
  | t => parseDecimal t
  end.

(** *** Number::toString (radix 10) *)

Definition decimal (z : Z) : string :=
  NilZero.string_of_uint (N.to_uint (Z.to_N z)).

Fixpoint zeros (n : nat) : string :=
  match n with
  | O => EmptyString
  | S n' => String "0" (zeros n')
  end.

(** [x = num / den] for a positive finite [x = m * 2^e] *)
Definition fraction (m : positive) (e : Z) : Z * Z :=
  if 0 <=? e then (Z.pos m * 2 ^ e, 1) else (Z.pos m, 2 ^ (- e)).

(** The [n] with [10^(n-1) <= num/den < 10^n] *)
Definition magnitude (num den : Z) : Z :=
  if den <=? num then numDigits (num / den)
  else
    let dq := numDigits (den / num) in
    if den <=? num * 10 ^ (dq - 1) then 1 - (dq - 1) else 1 - dq.

(** With [k] digits: the integer [s] nearest to [x / 10^(n-k)] among
    those for which [s * 10^(n-k)] has the Number value [x]. *)
Definition candidate (x : number) (num den n k : Z) : option Z :=
  let sc := k - n in
  let a := if 0 <=? sc then num * 10 ^ sc else num in
  let b := if 0 <=? sc then den else den * 10 ^ (- sc) in
  let (lo, r) := Z.div_eucl a b in
  let ok s := same (roundDecimal false s (n - k)) x in
  match ok lo, ok (lo + 1) with
  | true, true =>
      match 2 * r ?= b with
      | Lt => Some lo
      | Gt => Some (lo + 1)
      | Eq => Some (if Z.even lo then lo else lo + 1)
      end
  | true, false => Some lo
  | false, true => Some (lo + 1)
  | false, false => None
  end.

(** The least [k] with a candidate, and the candidate. *)
Fixpoint shortest (fuel : nat) (x : number) (num den n k : Z) : Z * Z :=
  match fuel with
  | O => (k, num * 10 ^ (k - n) / den)
  | S f =>
      match candidate x num den n k with
      | Some s => (k, s)
      | None => shortest f x num den n (k + 1)
      end
  end.

Definition formatDigits (n k : Z) (digits : string) : string :=
  if (k <=? n) && (n <=? 21) then
    digits +:+ zeros (Z.to_nat (n - k))
  else if (0 <? n) && (n <=? 21) then
    JSString.sliceTo (Z.to_nat n) digits +:+ "." +:+
    JSString.slice (Z.to_nat n) digits
  else if (-6 <? n) && (n <=? 0) then
    "0." +:+ zeros (Z.to_nat (- n)) +:+ digits
  else
    let ex := n - 1 in
    let tail := "e" +:+ (if ex <? 0 then "-" else "+") +:+
                decimal (Z.abs ex) in
    if k =? 1 then digits +:+ tail
    else JSString.sliceTo 1 digits +:+ "." +:+ JSString.slice 1 digits +:+ tail.

Definition toStringPositive (m : positive) (e : Z) : string :=
  let x := S754_finite false m e in
  let (num, den) := fraction m e in
  let n := magnitude num den in
  let (k, s) := shortest 17 x num den n 1 in
  if s =? 10 ^ k then formatDigits (n + 1) 1 "1"
  else formatDigits n k (decimal s).

Definition toString (x : number) : string :=
  match x with
  | S754_nan => "NaN"
  | S754_zero _ => "0"
  | S754_infinity neg => if neg then "-Infinity" else "Infinity"
  | S754_finite neg m e =>
      match binary_normalize prec emax (Z.pos m) e false with
      | S754_finite _ m' e' =>
          (if neg then "-" else EmptyString) +:+ toStringPositive m' e'
      | _ => if neg then "-Infinity" else "Infinity"
      end
  end.

End JSNumber.

(** ** Errors *)

(** The outcome of a computation that may throw an error with a
    [message]. *)
Inductive Result (A : Type) : Type :=
| Throw (message : string)
| Ok (a : A).
Arguments Throw {A} message.
Arguments Ok {A} a.

Definition andThen {A B} (r : Result A) (k : A -> Result B) : Result B :=
  match r with
  | Ok a => k a
  | Throw e => Throw e
  end.

(** [f] on every element, from the first; the first error ends it. *)
Definition mapResult {A B} (f : A -> Result B) : list A -> Result (list B) :=
  fix go (l : list A) : Result (list B) :=
    match l with
    | [] => Ok []
    | x :: rest =>
        andThen (f x) (fun y => andThen (go rest) (fun ys => Ok (y :: ys)))
    end.

(** ** Values *)

Module JSValue.
Import JSNumber.
#[local] Set Warnings "-register-all".

(** The values a parsed JSON body, a query string or a query result
    holds, and [undefined]. *)
Inductive value : Type :=
| VUndefined
| VNull
| VBool (b : bool)
| VNum (n : number)
| VStr (s : string)
| VArr (items : list value)
| VObj (fields : list (string * value)).

(** ToBoolean *)
Definition truthy (v : value) : bool :=
  match v with
  | VUndefined | VNull => false
  | VBool b => b
  | VNum n => JSNumber.truthy n
  | VStr s => JSString.nonEmpty s
  | VArr _ | VObj _ => true
  end.

(** [typeof v === "undefined"] *)
Definition isUndefined (v : value) : bool :=
  match v with VUndefined => true | _ => false end.

(** [v === null] *)
Definition isNull (v : value) : bool :=
  match v with VNull => true | _ => false end.

(** [v === s] for a string [s] *)
Definition strictEqStr (v : value) (s : string) : bool :=
  match v with VStr t => String.eqb t s | _ => false end.

(** [v === n] for a number [n] *)
Definition strictEqNum (v : value) (n : number) : bool :=
  match v with VNum x => JSNumber.strictEq x n | _ => false end.

(** [a || b] *)
Definition orElse (a b : value) : value := if truthy a then a else b.

Fixpoint lookup (k : string) (fields : list (string * value)) : value :=
  match fields with
  | [] => VUndefined
  | (k', v) :: rest => if String.eqb k' k then v else lookup k rest
  end.

(** [v.k] (or the binding of [k] in [const { k } = v]) for a key
    that names no built-in property; [v] is neither [undefined] nor
    [null]. *)
Definition getProp (v : value) (k : string) : value :=
  match v with
  | VObj fields => lookup k fields
  | _ => VUndefined
  end.

(** [v?.k] *)
Definition getPropOpt (v : value) (k : string) : value :=
  match v with
  | VUndefined | VNull => VUndefined
  | _ => getProp v k
  end.

(** [v?.[0]] *)
Definition firstOpt (v : value) : value :=
  match v with
  | VArr (x :: _) => x
  | _ => VUndefined
  end.

(** The object has an own property [k]. *)
Definition hasOwn (k : string) (fields : list (string * value)) : bool :=
  List.existsb (fun kv => String.eqb (fst kv) k) fields.

(** The message of the TypeError Node throws when ToPrimitive finds
    no method that yields a primitive. *)
Definition typeError : string := "Cannot convert object to primitive value".

(** [String(v)].  ToPrimitive calls [toString], then [valueOf].  An
    object parsed from JSON or from a query string holds no function:
    with an own [toString] it hides [Object.prototype.toString], and
    [valueOf] (own, or inherited and then returning the object itself)
    yields no primitive, so the conversion throws.  An array joins
    the strings of its elements, which throws when one of them
    does. *)
Fixpoint toStr (v : value) : Result string :=
  match v with
  | VUndefined => Ok "undefined"
  | VNull => Ok "null"
  | VBool b => Ok (if b then "true" else "false")
  | VNum n => Ok (JSNumber.toString n)
  | VStr s => Ok s
  | VArr items =>
      andThen
        (mapResult (fun x => match x with
                             | VUndefined | VNull => Ok EmptyString
                             | _ => toStr x
                             end) items)
        (fun parts => Ok (JSString.join "," parts))
  | VObj fields =>
      if hasOwn "toString" fields then Throw typeError
      else Ok "[object Object]"
  end.

(** [Number(v)].  For an array or an object ToPrimitive calls
    [valueOf], which yields no primitive, then [toString] as
    above. *)
Definition toNumber (v : value) : Result number :=
  match v with
  | VUndefined => Ok NaN
  | VNull => Ok zero
  | VBool b => Ok (if b then ofZ 1 else zero)
  | VNum n => Ok n
  | VStr s => Ok (stringToNumber s)
  | VArr _ | VObj _ => andThen (toStr v) (fun s => Ok (stringToNumber s))
  end.

(** The object literal [{ error: msg }] *)
Definition errorBody (msg : string) : value :=
  VObj [("error", VStr msg)].

End JSValue.

Export JSValue.

(** ** Responses, errors and the world a handler runs in *)

Inductive Body : Type :=
| Empty                 (* [res.end()] *)
| Json (v : value)      (* [res.json(v)] *)
| Text (s : string)     (* [res.send(s)] *)
| NotFoundPage.         (* the page Express answers when no route matched *)

Record Response : Type := { status : Z; body : Body }.

(** [res.status(code).json(v)] *)
Definition json (code : Z) (v : value) : Response :=
  {| status := code; body := Json v |}.

(** ** The sessions table *)

Module MySQL.

(** Modelled from the spec: the [sessions] table and the engine that
    executes the statements (the schema is not in the source).  A row
    has the four columns of the data model; [id] identifies one row,
    so an INSERT of an id already present fails.  A text or date
    column takes a string parameter as it is and any other value
    through [String]; dates are ordered as text, which on the
    [YYYY-MM-DD] form is the calendar order; [affectedRows] counts
    the rows the WHERE clause matched. *)
Record Row : Type :=
  { row_id : string; row_date : string;
    row_distance : JSNumber.number; row_type : string }.

(** Modelled from the spec: the text a text or date column takes for
    a parameter, a string as it is and any other value as a text of
    it. *)
Fixpoint sqlText (v : value) : string :=
  match v with
  | VUndefined => "undefined"
  | VNull => "null"
  | VBool b => if b then "true" else "false"
  | VNum n => JSNumber.toString n
  | VStr s => s
  | VArr items =>
      JSString.join ","
        (List.map (fun x => match x with
                            | VUndefined | VNull => EmptyString
                            | _ => sqlText x
                            end) items)
  | VObj _ => "[object Object]"
  end.

(** The object a SELECT yields for a row. *)
Definition rowJson (r : Row) : value :=
  VObj [("id", VStr (row_id r)); ("date", VStr (row_date r));
        ("distance", VNum (row_distance r)); ("type", VStr (row_type r))].

Inductive Column : Type := ColDate | ColDistance | ColType.

Definition stripPrefix (p s : string) : option string :=
  if String.prefix p s then Some (JSString.slice (String.length p) s)
  else None.

(** The assignments of [SET a = ?, b = ? WHERE id = ?]. *)
Fixpoint parseSet (fuel : nat) (s : string) : option (list Column) :=
  match fuel with
  | O => None
  | S f =>
      let next (c : Column) (rest : string) :=
        if String.eqb rest " WHERE id = ?" then Some [c]
        else match stripPrefix ", " rest with
             | Some more =>
                 match parseSet f more with
                 | Some cs => Some (c :: cs)
                 | None => None
                 end
             | None => None
             end in
      match stripPrefix "date = ?" s with
      | Some rest => next ColDate rest
      | None =>
      match stripPrefix "distance = ?" s with
      | Some rest => next ColDistance rest
      | None =>
      match stripPrefix "type = ?" s with
      | Some rest => next ColType rest
      | None => None
      end end end
  end.

Definition setColumn (c : Column) (v : value) (r : Row) : option Row :=
  match c, v with
  | ColDate, _ =>
      Some {| row_id := row_id r; row_date := sqlText v;
              row_distance := row_distance r; row_type := row_type r |}
  | ColDistance, VNum x =>
      Some {| row_id := row_id r; row_date := row_date r;
              row_distance := x; row_type := row_type r |}
  | ColType, _ =>
      Some {| row_id := row_id r; row_date := row_date r;
              row_distance := row_distance r; row_type := sqlText v |}
  | _, _ => None
  end.

Fixpoint assign (cs : list Column) (ps : list value) (r : Row)
  : option Row :=
  match cs, ps with
  | [], [] => Some r
  | c :: cs', p :: ps' =>
      match setColumn c p r with
      | Some r' => assign cs' ps' r'
      | None => None
      end
  | _, _ => None
  end.

(** ORDER BY date ASC: a stable insertion sort. *)
Fixpoint insertByDate (r : Row) (rows : list Row) : list Row :=
  match rows with
  | [] => [r]
  | r' :: rest =>
      if String.leb (row_date r) (row_date r') then r :: rows
      else r' :: insertByDate r rest
  end.

Definition orderByDate (rows : list Row) : list Row :=
  List.fold_right insertByDate [] rows.

Definition hasId (i : string) (r : Row) : bool := String.eqb (row_id r) i.

Definition count (f : Row -> bool) (rows : list Row) : Z :=
  Z.of_nat (List.length (List.filter f rows)).

(** The header object of a statement that returns no rows. *)
Definition header (affected : Z) : value :=
  VObj [("affectedRows", VNum (JSNumber.ofZ affected))].

Definition selectSessions : string :=
  "SELECT id, DATE_FORMAT(date, '%Y-%m-%d') AS date, distance, type FROM sessions".

Definition updateRows (cs : list Column) (ps : list value) (i : string)
    (rows : list Row) : option (list Row) :=
  List.fold_right
    (fun r acc =>
       match acc with
       | None => None
       | Some rest =>
           if hasId i r then
             match assign cs ps r with
             | Some r' => Some (r' :: rest)
             | None => None
             end
           else Some (r :: rest)
       end)
    (Some []) rows.

(** Modelled from the spec: the engine behind [pool.query(sql,
    params)] (not in the source), on the statements the handlers
    send.  It yields the first component of the array the driver
    resolves to and the table afterwards, or the error the driver
    rejects with. *)
Definition execute (sql : string) (params : list value) (rows : list Row)
  : Result (value * list Row) :=
  if String.eqb sql "SELECT 1 AS ok" then
    Ok (VArr [VObj [("ok", VNum (JSNumber.ofZ 1))]], rows)
  else if String.eqb sql (selectSessions +:+ " ORDER BY date ASC") then
    Ok (VArr (List.map rowJson (orderByDate rows)), rows)
  else if String.eqb sql
            (selectSessions +:+ " WHERE type = ?" +:+ " ORDER BY date ASC")
  then
    match params with
    | [t] =>
        let keep r := String.eqb (row_type r) (sqlText t) in
        Ok (VArr (List.map rowJson (orderByDate (List.filter keep rows))),
            rows)
    | _ => Throw "Incorrect arguments to mysqld_stmt_execute"
    end
  else if String.eqb sql
    "INSERT INTO sessions (id, date, distance, type) VALUES (?, ?, ?, ?)"
  then
    match params with
    | [i; d; VNum x; t] =>
        if List.existsb (hasId (sqlText i)) rows then
          Throw "Duplicate entry for key 'PRIMARY'"
        else
          Ok (header 1,
              rows ++ [{| row_id := sqlText i; row_date := sqlText d;
                          row_distance := x; row_type := sqlText t |}])
    | _ => Throw "Incorrect arguments to mysqld_stmt_execute"
    end
  else if String.eqb sql "DELETE FROM sessions WHERE id = ?" then
    match params with
    | [i] =>
        Ok (header (count (hasId (sqlText i)) rows),
            List.filter (fun r => negb (hasId (sqlText i) r)) rows)
    | _ => Throw "Incorrect arguments to mysqld_stmt_execute"
    end
  else
    match stripPrefix "UPDATE sessions SET " sql with
    | Some rest =>
        match parseSet (String.length rest) rest with
        | Some cs =>
            let vals := List.removelast params in
            let i := sqlText (List.last params VUndefined) in
            if Nat.eqb (List.length params) (S (List.length cs)) then
              match updateRows cs vals i rows with
              | Some rows' => Ok (header (count (hasId i) rows), rows')
              | None => Throw "Incorrect arguments to mysqld_stmt_execute"
              end
            else Throw "Incorrect arguments to mysqld_stmt_execute"
        | None => Throw "You have an error in your SQL syntax"
        end
    | None => Throw "You have an error in your SQL syntax"
    end.

End MySQL.

(** The state a request runs against: the table, and the statements
    sent to the pool so far, oldest first. *)
Record World : Type :=
  { table : list MySQL.Row;
    issued : list (string * list value) }.

(** Computations that read and change the world and may throw. *)
Definition M (A : Type) : Type := World -> Result A * World.

Definition ret {A} (a : A) : M A := fun w => (Ok a, w).

Definition bind {A B} (m : M A) (k : A -> M B) : M B :=
  fun w =>
    match m w with
    | (Ok a, w') => k a w'
    | (Throw e, w') => (Throw e, w')
    end.

(** [try { body } catch (e) { handler(e.message) }] *)
Definition tryCatch {A} (body : M A) (handler : string -> M A) : M A :=
  fun w =>
    match body w with
    | (Ok a, w') => (Ok a, w')
    | (Throw e, w') => handler e w'
    end.

(** Lifts a computation that only may throw. *)
Definition lift {A} (r : Result A) : M A := fun w => (r, w).

Notation "x <- m ;; k" := (bind m (fun x => k))
  (at level 100, m at next level, right associativity).

(** [await pool.query(sql, params)], destructured to its first
    component. *)
Definition poolQuery (sql : string) (params : list value) : M value :=
  fun w =>
    let sent := issued w ++ [(sql, params)] in
    match MySQL.execute sql params (table w) with
    | Ok (v, rows) => (Ok v, {| table := rows; issued := sent |})
    | Throw e => (Throw e, {| table := table w; issued := sent |})
    end.

(** ** Configuration and requests *)

(** [process.env], the variables the code reads. *)
Record Env : Type :=
  { EDIT_TOKEN : option string;
    CORS_ORIGIN : option string }.

(** [v || ""] for an optional string *)
Definition orEmpty (v : option string) : string :=
  match v with Some s => s | None => EmptyString end.

(** The request object a middleware receives: [req.method],
    [req.path] (relative to the mount point), [req.get(name)],
    [req.query], [req.body] and [req.params]. *)
Record Req : Type :=
  { method : string;
    path : string;
    get : string -> Result (option string);
    query : value;
    reqBody : value;
    params : value }.

(** What a middleware does: it answers, or calls [next()]. *)
Inductive Step : Type :=
| Respond (r : Response)
| Next.

(** Truthiness of a string that may be [undefined] or [null]. *)
Definition present (v : option string) : bool :=
  match v with
  | Some s => JSString.nonEmpty s
  | None => false
  end.

(** ** CORS (prod + dev) *)

Definition WHITELIST (env : Env) : list string :=
  List.filter JSString.nonEmpty
    (List.map JSString.trim (JSString.split "," (orEmpty (CORS_ORIGIN env)))).

(** What the origin function passes to its callback: [cb(null, allowed)]
    or [cb(new Error(message))]. *)
Inductive OriginCallback : Type :=
| CbAllow (allowed : bool)
| CbError (message : string).

(** [list.includes(s)] *)
Definition includesString (l : list string) (s : string) : bool :=
  List.existsb (String.eqb s) l.

Module corsOptions.

Definition origin (whitelist : list string) (origin : option string)
  : OriginCallback :=
  if negb (present origin) then CbAllow true
  else if (Nat.eqb (List.length whitelist) 0)
          || includesString whitelist (orEmpty origin)
  then CbAllow true
  else CbAllow false.

End corsOptions.

(** The earlier revision of the file (before the type column), where
    the origin function fails the request instead. *)
Module Legacy.

Definition origin (whitelist : list string) (origin : option string)
  : OriginCallback :=
  if negb (present origin) then CbAllow true
  else if (Nat.eqb (List.length whitelist) 0)
          || includesString whitelist (orEmpty origin)
  then CbAllow true
  else CbError "Not allowed by CORS".

End Legacy.

(** ** Auth par jeton (edition) *)

(** The local [token] of [requireEditAuth]: the X-API-Key value, or
    the rest of an Authorization value that starts with [Bearer ], or
    [null]. *)
Definition editToken (req : Req) : Result (option string) :=
  andThen (get req "authorization") (fun h =>
  let header := orEmpty h in
  let bearer := if JSString.startsWith header "Bearer "
                then Some (JSString.slice 7 header) else None in
  andThen (get req "x-api-key") (fun k =>
  Ok (if present k then k else bearer))).

Definition unauthorized : Response := json 401 (errorBody "unauthorized").

Definition requireEditAuth (env : Env) (req : Req) : Result Step :=
  andThen (editToken req) (fun token =>
  let expected := orEmpty (EDIT_TOKEN env) in
  if present token && JSString.nonEmpty expected
     && String.eqb (orEmpty token) expected
  then Ok Next
  else Ok (Respond unauthorized)).

(** ** Bloquer la navigation directe (GET document) => 204 *)

Definition noContent : Response := {| status := 204; body := Empty |}.

(** The [try] block of [blockBrowserNav]: the response it returns, or
    [None] when control leaves the block. *)
Definition inspectNavigation (req : Req) : Result (option Response) :=
  if String.eqb (method req) "GET" && negb (String.eqb (path req) "/health")
  then
    andThen (get req "sec-fetch-dest") (fun d =>
    let dest := JSString.toLowerCase (orEmpty d) in
    andThen (get req "sec-fetch-mode") (fun m =>
    let mode := JSString.toLowerCase (orEmpty m) in
    andThen (get req "accept") (fun a =>
    let accept := JSString.toLowerCase (orEmpty a) in
    let isDocumentNav :=
      String.eqb mode "navigate"
      || String.eqb dest "document"
      || (JSString.includes accept "text/html"
          && negb (JSString.includes accept "application/json")) in
    if isDocumentNav then Ok (Some noContent) else Ok None)))
  else Ok None.

Definition blockBrowserNav (req : Req) : Step :=
  match inspectNavigation req with
  | Ok (Some r) => Respond r
  | Ok None => Next
  | Throw _ => Next
  end.

(** ** Helpers type validation *)

Definition ALLOWED_TYPES : list string := ["swim"; "run"].

Definition normalizeType (input : value) : Result string :=
  if negb (truthy input) then Ok "swim"
  else
    andThen (toStr input) (fun s =>
    Ok (JSString.trim (JSString.toLowerCase s))).

Definition isValidType (t : string) : bool := includesString ALLOWED_TYPES t.

(** ** Handlers of the API router *)

Definition emptyObject : value := VObj [].

(** [!Number.isFinite(distNum) || distNum <= 0] *)
Definition invalidDistance (distNum : JSNumber.number) : bool :=
  negb (JSNumber.isFinite distNum) || JSNumber.leb distNum JSNumber.zero.

(** The text [aucune donnee a mettre a jour], with its accented
    letters e-acute (233) and a-grave (224). *)
Definition noDataMessage : string :=
  "aucune donn" +:+ String "233" ("e " +:+ String "224" (" mettre " +:+
  String "224" " jour")).

Definition serverError (message : string) : M Response :=
  ret (json 500 (errorBody message)).

(** [api.get("/health")] *)
Definition health : M Response :=
  tryCatch
    (rows <- poolQuery "SELECT 1 AS ok" [] ;;
     ret (json 200
            (VObj [("ok", VBool true);
                   ("db", VBool (strictEqNum
                                   (getPropOpt (firstOpt rows) "ok")
                                   (JSNumber.ofZ 1)))])))
    (fun e => ret (json 500 (VObj [("ok", VBool false); ("error", VStr e)]))).

(** [api.get("/auth/check")], behind the gate *)
Definition authCheck : M Response :=
  ret (json 200 (VObj [("ok", VBool true)])).

(** [api.get("/sessions")] *)
Definition listSessions (req : Req) : M Response :=
  tryCatch
    (let q := getPropOpt (query req) "type" in
     type <- lift (if truthy q
                   then andThen (normalizeType q) (fun t => Ok (Some t))
                   else Ok None) ;;
     if present type && negb (isValidType (orEmpty type)) then
       ret (json 400 (errorBody "type invalide (swim|run)"))
     else
       let sql := MySQL.selectSessions in
       let '(sql, params) :=
         if present type
         then (sql +:+ " WHERE type = ?", [VStr (orEmpty type)])
         else (sql, []) in
       let sql := sql +:+ " ORDER BY date ASC" in
       rows <- poolQuery sql params ;;
       ret (json 200 rows))
    serverError.

(** [api.post("/sessions")], behind the gate; [uuid] is what
    [uuidv4()] returns when it is called. *)
Definition createSession (uuid : string) (req : Req) : M Response :=
  tryCatch
    (let b := orElse (reqBody req) emptyObject in
     let distance := getProp b "distance" in
     let date := getProp b "date" in
     let id := getProp b "id" in
     let type := getProp b "type" in
     t <- lift (normalizeType type) ;;
     if negb (truthy date) then ret (json 400 (errorBody "date requise"))
     else if isUndefined distance || isNull distance
             || strictEqStr distance EmptyString
     then ret (json 400 (errorBody "distance requise"))
     else
       distNum <- lift (toNumber distance) ;;
       if invalidDistance distNum then
         ret (json 400 (errorBody "distance invalide"))
       else if negb (isValidType t) then
         ret (json 400 (errorBody "type invalide (swim|run)"))
       else
         let newId := orElse id (VStr uuid) in
         _ <- poolQuery
                "INSERT INTO sessions (id, date, distance, type) VALUES (?, ?, ?, ?)"
                [newId; date; VNum distNum; VStr t] ;;
         ret (json 201
                (VObj [("id", newId); ("date", date);
                       ("distance", VNum distNum); ("type", VStr t)])))
    serverError.

(** The [fields] and [params] arrays of the update handler; a
    response on the left is an early [return]. *)
Definition Building : Type := Response + (list string * list value).

Definition pushDate (date : value) (acc : list string * list value)
  : Result Building :=
  if truthy date
  then Ok (inr (fst acc ++ ["date = ?"], snd acc ++ [date]))
  else Ok (inr acc).

Definition pushDistance (distance : value) (acc : list string * list value)
  : Result Building :=
  if negb (isUndefined distance) then
    andThen (toNumber distance) (fun distNum =>
    if invalidDistance distNum
    then Ok (inl (json 400 (errorBody "distance invalide")))
    else Ok (inr (fst acc ++ ["distance = ?"], snd acc ++ [VNum distNum])))
  else Ok (inr acc).

Definition pushType (type : value) (acc : list string * list value)
  : Result Building :=
  if negb (isUndefined type) then
    andThen (normalizeType type) (fun t =>
    if negb (isValidType t)
    then Ok (inl (json 400 (errorBody "type invalide (swim|run)")))
    else Ok (inr (fst acc ++ ["type = ?"], snd acc ++ [VStr t])))
  else Ok (inr acc).

Definition thenPush (b : Result Building)
    (f : list string * list value -> Result Building) : Result Building :=
  andThen b (fun built =>
  match built with
  | inl r => Ok (inl r)
  | inr acc => f acc
  end).

(** [api.put("/sessions/:id")], behind the gate *)
Definition updateSession (req : Req) : M Response :=
  tryCatch
    (let id := getProp (params req) "id" in
     let b := orElse (reqBody req) emptyObject in
     let distance := getProp b "distance" in
     let date := getProp b "date" in
     let type := getProp b "type" in
     if isUndefined distance && negb (truthy date) && isUndefined type then
       ret (json 400 (errorBody noDataMessage))
     else
       built <- lift (thenPush (thenPush (pushDate date ([], []))
                                  (pushDistance distance))
                        (pushType type)) ;;
       match built with
       | inl early => ret early
       | inr (fields, params) =>
           let params := params ++ [id] in
           result <- poolQuery
                       ("UPDATE sessions SET " +:+ JSString.join ", " fields
                        +:+ " WHERE id = ?")
                       params ;;
           if strictEqNum (getProp result "affectedRows") JSNumber.zero then
             ret (json 404 (errorBody "not found"))
           else
             ret (json 200
                    (VObj [("id", id); ("date", date);
                           ("distance", distance); ("type", type)]))
       end)
    serverError.

(** [api.delete("/sessions/:id")], behind the gate *)
Definition deleteSession (req : Req) : M Response :=
  tryCatch
    (let id := getProp (params req) "id" in
     result <- poolQuery "DELETE FROM sessions WHERE id = ?" [id] ;;
     if strictEqNum (getProp result "affectedRows") JSNumber.zero then
       ret (json 404 (errorBody "not found"))
     else ret noContent)
    serverError.

(** ** Routing *)

(** The methods the router declares routes for.  The answers Express
    and the cors package give by themselves to HEAD and OPTIONS are
    not part of the model. *)
Inductive Method : Type := GET | POST | PUT | DELETE.

Definition methodName (m : Method) : string :=
  match m with
  | GET => "GET"
  | POST => "POST"
  | PUT => "PUT"
  | DELETE => "DELETE"
  end.

(** A request as it reaches the application: the method, the path of
    the URL, the header object of Node (lower-case names), the parsed
    query string and the body [express.json()] parsed. *)
Record Request : Type :=
  { httpMethod : Method;
    url : string;
    headers : gmap string string;
    urlQuery : value;
    jsonBody : value }.

(** How Express matches paths with its default options: the case of
    letters is ignored and one trailing slash is optional. *)
Module Express.

(** A route declared with a literal path. *)
Definition matchPath (route p : string) : bool :=
  JSString.eqNoCase p route || JSString.eqNoCase p (route +:+ "/").

(** [app.get("/")] *)
Definition matchRoot (p : string) : bool :=
  String.eqb p "/" || String.eqb p EmptyString.

Fixpoint dropTrailingSlash (s : string) : string :=
  match s with
  | EmptyString => EmptyString
  | String c EmptyString =>
      if Ascii.eqb c "/" then EmptyString else s
  | String c r => String c (dropTrailingSlash r)
  end.

(** The segment a route [prefix:id] captures, where [prefix] has
    [n] characters. *)
Definition matchParam (prefix : string) (p : string) : option string :=
  let n := String.length prefix in
  if JSString.eqNoCase (JSString.sliceTo n p) prefix then
    let seg := dropTrailingSlash (JSString.slice n p) in
    if JSString.nonEmpty seg && negb (JSString.includes seg "/")
    then Some seg else None
  else None.

Definition hexByte (a b : ascii) : option Z :=
  match JSNumber.digitVal 16 a, JSNumber.digitVal 16 b with
  | Some x, Some y => Some (16 * x + y)
  | _, _ => None
  end.

Definition malformed {A} : Result A := Throw "URI malformed".

(** The characters of an encoded component: a code unit that stands
    for itself, or the byte an escape [%XX] denotes. *)
Inductive Token : Type :=
| Literal (c : ascii)
| Escaped (b : Z).

(** Where the reader of escapes is: outside an escape, after [%], or
    after [%] and a first digit. *)
Inductive Escape : Type :=
| Outside
| Percent
| Digit (a : ascii).

(** The escapes of a component; a [%] that two hexadecimal digits do
    not follow is a URIError. *)
Fixpoint tokens (st : Escape) (s : string) : Result (list Token) :=
  match s with
  | EmptyString =>
      match st with
      | Outside => Ok []
      | _ => malformed
      end
  | String c r =>
      match st with
      | Outside =>
          if Ascii.eqb c "%" then tokens Percent r
          else andThen (tokens Outside r) (fun ts => Ok (Literal c :: ts))
      | Percent => tokens (Digit c) r
      | Digit a =>
          match hexByte a c with
          | Some b =>
              andThen (tokens Outside r) (fun ts => Ok (Escaped b :: ts))
          | None => malformed
          end
      end
  end.

(** Where the UTF-8 decoder is: between code points, or inside one,
    with the number of bytes still to come after the next, the bits
    read so far, and the range the next byte must lie in. *)
Inductive Utf8 : Type :=
| Idle
| Pending (more : nat) (acc lo hi : Z).

(** The state after the first byte of a sequence of several bytes;
    the ranges keep out the overlong forms, the surrogates and the
    code points above U+10FFFF. *)
Definition lead (b : Z) : option Utf8 :=
  if (194 <=? b) && (b <=? 223) then Some (Pending 0 (b - 192) 128 191)
  else if b =? 224 then Some (Pending 1 0 160 191)
  else if b =? 237 then Some (Pending 1 13 128 159)
  else if (225 <=? b) && (b <=? 239) then Some (Pending 1 (b - 224) 128 191)
  else if b =? 240 then Some (Pending 2 0 144 191)
  else if (241 <=? b) && (b <=? 243) then Some (Pending 2 (b - 240) 128 191)
  else if b =? 244 then Some (Pending 2 4 128 143)
  else None.

(** The UTF-16 code units of a code point *)
Definition codeUnits (cp : Z) : list N :=
  if cp <? 65536 then [Z.to_N cp]
  else [Z.to_N (55296 + (cp - 65536) / 1024);
        Z.to_N (56320 + (cp - 65536) mod 1024)].

(** The code units the tokens denote: a literal is copied, the
    escaped bytes are read as UTF-8; bytes that are no valid UTF-8
    are a URIError. *)
Fixpoint utf8 (st : Utf8) (ts : list Token) : Result (list N) :=
  match ts with
  | [] =>
      match st with
      | Idle => Ok []
      | Pending _ _ _ _ => malformed
      end
  | t :: rest =>
      match st, t with
      | Idle, Literal c =>
          andThen (utf8 Idle rest) (fun us => Ok (JSString.code c :: us))
      | Idle, Escaped b =>
          if b <? 128 then
            andThen (utf8 Idle rest) (fun us => Ok (Z.to_N b :: us))
          else
            match lead b with
            | Some st' => utf8 st' rest
            | None => malformed
            end
      | Pending more acc lo hi, Escaped b =>
          if (lo <=? b) && (b <=? hi) then
            let acc' := acc * 64 + (b - 128) in
            match more with
            | O =>
                andThen (utf8 Idle rest)
                  (fun us => Ok (codeUnits acc' ++ us))
            | S more' => utf8 (Pending more' acc' 128 191) rest
            end
          else malformed
      | Pending _ _ _ _, Literal _ => malformed
      end
  end.

(** [decodeURIComponent(s)]: the code units of the decoded string,
    which may lie above 255, or the URIError. *)
Definition decodeURIComponent (s : string) : Result (list N) :=
  andThen (tokens Outside s) (utf8 Idle).

(** The string of the model with these code units, when all of them
    are below 256. *)
Fixpoint inAlphabet (us : list N) : option string :=
  match us with
  | [] => Some EmptyString
  | u :: rest =>
      if (u <? 256)%N then
        match inAlphabet rest with
        | Some s => Some (String (ascii_of_N u) s)
        | None => None
        end
      else None
  end.

(** The message of the error that stands for a route parameter the
    model cannot hold. *)
Definition outsideAlphabet : string :=
  "parameter outside the alphabet of the model".

(** [decode_param] of Express on the text a route parameter
    captured: [decodeURIComponent], whose URIError goes to the error
    handlers.  A parameter that decodes to a code unit above 255 is
    no string of the model: the model stops there with an error of
    its own, and the statements about a parameter are about those
    the model holds. *)
Definition decodeParam (s : string) : Result string :=
  andThen (decodeURIComponent s) (fun us =>
  match inAlphabet us with
  | Some id => Ok id
  | None => Throw outsideAlphabet
  end).

(** [app.use("/api", router)]: the path the router sees, when the
    mount point is a prefix of the path that ends at a slash or at
    the end. *)
Definition mountApi (p : string) : option string :=
  if JSString.eqNoCase (JSString.sliceTo 4 p) "/api" then
    match JSString.slice 4 p with
    | EmptyString => Some "/"
    | String "/" EmptyString => Some "/"
    | String "/" (String "/" r) => Some (String "/" r)
    | String "/" r => Some (String "/" r)
    | _ => None
    end
  else None.

(** [req.get(name)] on the header object *)
Definition header (hs : gmap string string) (name : string)
  : Result (option string) :=
  Ok (hs !! JSString.toLowerCase name).

End Express.

(** The request object Express hands to the middlewares of a router
    that sees the path [p], with the route parameters [ps]. *)
Definition expressReq (r : Request) (p : string) (ps : value) : Req :=
  {| method := methodName (httpMethod r);
     path := p;
     get := Express.header (headers r);
     query := urlQuery r;
     reqBody := jsonBody r;
     params := ps |}.

(** A route behind [requireEditAuth]. *)
Definition gated (env : Env) (req : Req) (handler : M Response)
  : M Response :=
  g <- lift (requireEditAuth env req) ;;
  match g with
  | Respond r => ret r
  | Next => handler
  end.

(** A route [/sessions/:id]: Express decodes the parameter, then the
    gate and the handler run. *)
Definition withId (env : Env) (r : Request) (p seg : string)
    (handler : Req -> M Response) : M Response :=
  id <- lift (Express.decodeParam seg) ;;
  let req := expressReq r p (VObj [("id", VStr id)]) in
  gated env req (handler req).

(** ** Router API *)

(** The first route of the router that matches the method and the
    path [p] (relative to the mount point), with its handlers. *)
Definition route (env : Env) (uuid : string) (r : Request) (p : string)
  : option (M Response) :=
  let req := expressReq r p emptyObject in
  match httpMethod r with
  | GET =>
      if Express.matchPath "/health" p then Some health
      else if Express.matchPath "/auth/check" p then
        Some (gated env req authCheck)
      else if Express.matchPath "/sessions" p then Some (listSessions req)
      else None
  | POST =>
      if Express.matchPath "/sessions" p then
        Some (gated env req (createSession uuid req))
      else None
  | PUT =>
      match Express.matchParam "/sessions/" p with
      | Some seg => Some (withId env r p seg updateSession)
      | None => None
      end
  | DELETE =>
      match Express.matchParam "/sessions/" p with
      | Some seg => Some (withId env r p seg deleteSession)
      | None => None
      end
  end.

(** The router on a request whose path, relative to the mount point,
    is [p]: [blockBrowserNav] first, then the routes.  [None] is
    [next()]: no layer answered. *)
Definition api (env : Env) (uuid : string) (r : Request) (p : string)
  : M (option Response) :=
  match blockBrowserNav (expressReq r p emptyObject) with
  | Respond res => ret (Some res)
  | Next =>
      match route env uuid r p with
      | Some handler => res <- handler ;; ret (Some res)
      | None => ret None
      end
  end.

(** ** Montage: couvre / ET /api *)

Definition internalError : Response := json 500 (errorBody "internal_error").

(** The layers of the application that answer, in the order they are
    declared: the router at [/], the router at [/api], the ping at
    [/]; then the page of Express for a request nothing answered. *)
Definition answering (env : Env) (uuid : string) (r : Request)
  : M Response :=
  let rest : M Response :=
    if match httpMethod r with GET => true | _ => false end
       && Express.matchRoot (url r)
    then ret {| status := 200; body := Text "API up" |}
    else ret {| status := 404; body := NotFoundPage |} in
  atRoot <- api env uuid r (url r) ;;
  match atRoot with
  | Some res => ret res
  | None =>
      match Express.mountApi (url r) with
      | Some p =>
          underApi <- api env uuid r p ;;
          match underApi with
          | Some res => ret res
          | None => rest
          end
      | None => rest
      end
  end.

(** The layers of the application, in the order they are declared.
    [cors(corsOptions)] sets headers and lets a request of these four
    methods pass whatever the origin function decides.  The route
    [app.options("*", ...)] handles no request of these methods, but
    its path captures the whole path as a parameter, which Express
    decodes for every request before it looks at the method: a
    URIError skips the layers below and reaches the global error
    handler.  [express.json()] has parsed the body the request
    carries.  Then come the layers that answer. *)
Definition layers (env : Env) (uuid : string) (r : Request) : M Response :=
  _ <- lift (Express.decodeURIComponent (url r)) ;;
  answering env uuid r.

(** The application on one request: the response and the world
    afterwards.  An error no handler caught reaches the global error
    handler. *)
Definition app (env : Env) (uuid : string) (r : Request) (w : World)
  : Response * World :=
  match layers env uuid r w with
  | (Ok res, w') => (res, w')
  | (Throw _, w') => (internalError, w')
  end.

(** ** Vocabulary of the statements *)

(** The gate lets the request pass. *)
Definition authorized (env : Env) (r : Request) : Prop :=
  requireEditAuth env (expressReq r (url r) emptyObject) = Ok Next.

(** The navigation signals of a request, as [blockBrowserNav] reads
    them: the three header values in lower case. *)
Definition navigationSignals (dest mode accept : string) : bool :=
  String.eqb mode "navigate"
  || String.eqb dest "document"
  || (JSString.includes accept "text/html"
      && negb (JSString.includes accept "application/json")).

(** The path holds no malformed escape: [decodeURIComponent]
    returns. *)
Definition decodes (u : string) : Prop :=
  exists us, Express.decodeURIComponent u = Ok us.

(** The headers carry no navigation signal. *)
Definition noNavigationSignal (hs : gmap string string) : Prop :=
  navigationSignals
    (JSString.toLowerCase (orEmpty (hs !! "sec-fetch-dest")))
    (JSString.toLowerCase (orEmpty (hs !! "sec-fetch-mode")))
    (JSString.toLowerCase (orEmpty (hs !! "accept"))) = false.

Fixpoint allChars (f : ascii -> bool) (s : string) : bool :=
  match s with
  | EmptyString => true
  | String c r => f c && allChars f r
  end.

(** The string holds no percent sign. *)
Definition noPercent (s : string) : bool :=
  allChars (fun c => negb (Ascii.eqb c "%")) s.

(** The code units of a string of the model *)
Fixpoint units (s : string) : list N :=
  match s with
  | EmptyString => []
  | String c r => JSString.code c :: units r
  end.

Definition isHexOrDash (c : ascii) : bool :=
  let n := JSString.code c in
  (((48 <=? n) && (n <=? 57)) || ((97 <=? n) && (n <=? 102)) || (n =? 45))%N.

(** The form of what [uuidv4()] returns: 36 characters, hexadecimal
    digits in lower case and dashes. *)
Definition isUuid (s : string) : bool :=
  Nat.eqb (String.length s) 36 && allChars isHexOrDash s.

(** The router, seeing the path [p] of a request to [u] (at [/], or
    under [/api] when the route does not match [u] itself), matches
    [/sessions/:id] with the segment [seg]. *)
Definition sessionRoute (u p seg : string) : Prop :=
  Express.matchParam "/sessions/" p = Some seg
  /\ (p = u
      \/ (Express.matchParam "/sessions/" u = None
          /\ Express.mountApi u = Some p)).

(** The number [Number(d)] yields, and NaN when it throws. *)
Definition numeric (d : value) : JSNumber.number :=
  match toNumber d with
  | Ok x => x
  | Throw _ => JSNumber.NaN
  end.

(** The type [normalizeType(type)] returns, and the empty string
    when it throws. *)
Definition normalized (type : value) : string :=
  match normalizeType type with
  | Ok t => t
  | Throw _ => EmptyString
  end.

(** The distance passes the check of the handlers: [Number] yields a
    number, which is finite and strictly greater than zero. *)
Definition validDistance (d : value) : bool :=
  JSNumber.isFinite (numeric d) && JSNumber.gtb (numeric d) JSNumber.zero.

(** The string does not start with white space. *)
Definition startsClean (s : string) : bool :=
  match s with
  | EmptyString => true
  | String c _ => negb (JSString.isWhiteSpace c)
  end.

(** The same request sent to another path. *)
Definition withUrl (r : Request) (u : string) : Request :=
  {| httpMethod := httpMethod r; url := u; headers := headers r;
     urlQuery := urlQuery r; jsonBody := jsonBody r |}.

(** A path that starts with exactly one slash. *)
Definition singleSlash (u : string) : bool :=
  match u with
  | String "/" (String "/" _) => false
  | String "/" _ => true
  | _ => false
  end.

(** ** Requests, tables and values the statements use *)

Definition insertStatement : string :=
  "INSERT INTO sessions (id, date, distance, type) VALUES (?, ?, ?, ?)".

(** The fields and parameters the update handler collects. *)
Definition collected (date distance type : value) : Result Building :=
  thenPush (thenPush (pushDate date ([], [])) (pushDistance distance))
    (pushType type).

Definition secretEnv : Env :=
  {| EDIT_TOKEN := Some "s3cret"; CORS_ORIGIN := None |}.

Definition oneRow : World :=
  {| table := [{| MySQL.row_id := "a1"; MySQL.row_date := "2024-01-01";
                  MySQL.row_distance := JSNumber.ofZ 1000;
                  MySQL.row_type := "swim" |}];
     issued := [] |}.

Definition apiKeyHeaders : gmap string string :=
  {[ "x-api-key" := "s3cret" ]}.

Definition generatedId : string := "3b241101-e2bb-4255-8caf-4136c566a962".

Definition bearerOnly : Request :=
  {| httpMethod := POST; url := "/sessions";
     headers := {[ "x-api-key" := EmptyString;
                   "authorization" := "Bearer s3cret" ]};
     urlQuery := emptyObject; jsonBody := emptyObject |}.

(** The request of a browser that navigates to [u]. *)
Definition navigation (u : string) : Request :=
  {| httpMethod := GET; url := u;
     headers := {[ "sec-fetch-mode" := "navigate" ]};
     urlQuery := emptyObject; jsonBody := VUndefined |}.

(** An authorized PUT with the body [{distance: -5}]. *)
Definition putMinusFive (u : string) : Request :=
  {| httpMethod := PUT; url := u;
     headers := {[ "authorization" := "Bearer s3cret" ]};
     urlQuery := emptyObject;
     jsonBody := VObj [("distance", VNum (JSNumber.ofZ (-5)))] |}.


(** A POST whose body holds the fields. *)
Definition postBody (fields : list (string * value)) : Req :=
  {| method := "POST"; path := "/sessions";
     get := Express.header {[ "authorization" := "Bearer s3cret" ]};
     query := emptyObject; reqBody := VObj fields;
     params := emptyObject |}.

(** An object [{toString: 1}], as a JSON body can hold it: its own
    [toString] is no function. *)
Definition unconvertible : value :=
  VObj [("toString", VNum (JSNumber.ofZ 1))].

(** An authorized PUT with the body [{distance: {toString: 1}}]. *)
Definition putUnconvertible (u : string) : Request :=
  {| httpMethod := PUT; url := u;
     headers := {[ "authorization" := "Bearer s3cret" ]};
     urlQuery := emptyObject;
     jsonBody := VObj [("distance", unconvertible)] |}.

(** Distances the handlers refuse and distances they accept. *)
Definition refusedDistances : list value :=
  [VNum JSNumber.zero; VNum (S754_zero true); VNum (JSNumber.ofZ (-5));
   VNum JSNumber.NaN; VNum (JSNumber.infinity false);
   VNum (JSNumber.infinity true);
   VStr "0"; VStr "-5"; VStr "abc"; VStr "12km"; VStr "NaN";
   VStr "Infinity"; VStr "1e999"; VStr EmptyString; VStr "  ";
   VNull; VBool false; VObj []; VArr []; VArr [VStr "a"]].

Definition acceptedDistances : list value :=
  [VNum (JSNumber.ofZ 1000); VStr "1000"; VStr " 2.5 "; VStr "1e3";
   VStr "0x10"; VStr "5e-324"; VBool true; VArr [VStr "7"]].

Definition swimBody : value :=
  VObj [("date", VStr "2024-01-01"); ("distance", VStr "1000");
        ("type", VStr "Swim ")].

Definition createRequest (hs : gmap string string) : Request :=
  {| httpMethod := POST; url := "/sessions"; headers := hs;
     urlQuery := emptyObject; jsonBody := swimBody |}.

Definition listRequest (hs : gmap string string) (q : value) : Request :=
  {| httpMethod := GET; url := "/sessions"; headers := hs;
     urlQuery := q; jsonBody := VUndefined |}.

Definition deleteRequest (hs : gmap string string) (id : string) : Request :=
  {| httpMethod := DELETE; url := "/sessions/" +:+ id; headers := hs;
     urlQuery := emptyObject; jsonBody := VUndefined |}.

(** The record the creation answers with, and the row it stores. *)
Definition swimRecord (id : string) : value :=
  VObj [("id", VStr id); ("date", VStr "2024-01-01");
        ("distance", VNum (JSNumber.ofZ 1000)); ("type", VStr "swim")].

Definition swimRow (id : string) : MySQL.Row :=
  {| MySQL.row_id := id; MySQL.row_date := "2024-01-01";
     MySQL.row_distance := JSNumber.ofZ 1000; MySQL.row_type := "swim" |}.

(** ** What a request does to the table *)

(** The row an UPDATE built from the three body fields leaves in the
    place of [r]: a truthy date, a defined distance and a defined
    type replace the stored values. *)
Definition applyUpdate (date distance type : value) (r : MySQL.Row)
  : MySQL.Row :=
  {| MySQL.row_id := MySQL.row_id r;
     MySQL.row_date :=
       if truthy date then MySQL.sqlText date else MySQL.row_date r;
     MySQL.row_distance :=
       if isUndefined distance then MySQL.row_distance r
       else numeric distance;
     MySQL.row_type :=
       if isUndefined type then MySQL.row_type r else normalized type |}.

(** The body fields pass the checks of the update handler. *)
Definition updatable (date distance type : value) : bool :=
  negb (isUndefined distance && negb (truthy date) && isUndefined type)
  && (isUndefined distance || validDistance distance)
  && (isUndefined type || isValidType (normalized type)).

(** The columns and the values of the assignments the handler builds. *)
Definition updateColumns (date distance type : value) : list MySQL.Column :=
  (if truthy date then [MySQL.ColDate] else [])
  ++ (if isUndefined distance then [] else [MySQL.ColDistance])
  ++ (if isUndefined type then [] else [MySQL.ColType]).

Definition updateValues (date distance type : value) : list value :=
  (if truthy date then [date] else [])
  ++ (if isUndefined distance then [] else [VNum (numeric distance)])
  ++ (if isUndefined type then [] else [VStr (normalized type)]).

Definition updateFields (date distance type : value) : list string :=
  (if truthy date then ["date = ?"] else [])
  ++ (if isUndefined distance then [] else ["distance = ?"])
  ++ (if isUndefined type then [] else ["type = ?"]).

(** A row holds an allowed type and a finite distance above zero. *)
Definition validRow (r : MySQL.Row) : Prop :=
  isValidType (MySQL.row_type r) = true
  /\ invalidDistance (MySQL.row_distance r) = false.

(** The ids of the rows, in the order of the table. *)
Definition ids (rows : list MySQL.Row) : list string :=
  List.map MySQL.row_id rows.

(** [result.affectedRows === 0] on the header of a statement that
    matched [n] rows. *)
Definition noneAffected (n : Z) : bool :=
  strictEqNum (getProp (MySQL.header n) "affectedRows") JSNumber.zero.

(** The rows of id [i] rewritten with the fields of an update. *)
Definition rewritten (i : string) (date distance type : value)
    (rows : list MySQL.Row) : list MySQL.Row :=
  List.map (fun r => if MySQL.hasId i r
                     then applyUpdate date distance type r else r) rows.

(** The rows that remain when those of id [i] are deleted. *)
Definition remaining (i : string) (rows : list MySQL.Row)
  : list MySQL.Row :=
  List.filter (fun r => negb (MySQL.hasId i r)) rows.

(** What one request can come to: an answer with nothing sent to the
    database; a query that leaves the table as it is; one valid row
    added under a new id; an insertion the engine refused; the rows
    of one id removed; the rows of one id rewritten with checked
    fields. *)
Inductive Outcome (r : Request) (w : World) : Response -> World -> Prop :=
| Quiet (res : Response) :
    In (status res) [200; 204; 400; 401; 404; 500] ->
    Outcome r w res w
| Queried (res : Response) (q : string * list value) :
    httpMethod r = GET -> status res = 200 ->
    Outcome r w res {| table := table w; issued := issued w ++ [q] |}
| Created (res : Response) (row : MySQL.Row)
    (q : string * list value) :
    httpMethod r = POST -> status res = 201 ->
    validRow row ->
    List.existsb (MySQL.hasId (MySQL.row_id row)) (table w) = false ->
    Outcome r w res {| table := table w ++ [row]; issued := issued w ++ [q] |}
| Refused (res : Response) (q : string * list value) :
    httpMethod r = POST -> status res = 500 ->
    Outcome r w res {| table := table w; issued := issued w ++ [q] |}
| Removed (i : string) (q : string * list value) :
    httpMethod r = DELETE ->
    Outcome r w
      (if noneAffected (MySQL.count (MySQL.hasId i) (table w))
       then json 404 (errorBody "not found") else noContent)
      {| table := remaining i (table w); issued := issued w ++ [q] |}
| Changed (i : string) (date distance type : value) (res : Response)
    (q : string * list value) :
    httpMethod r = PUT ->
    updatable date distance type = true ->
    status res
    = (if noneAffected (MySQL.count (MySQL.hasId i) (table w))
       then 404 else 200) ->
    Outcome r w res
      {| table := rewritten i date distance type (table w);
         issued := issued w ++ [q] |}.

(** How a computation of a response ends: with an [Outcome], or by
    throwing before anything was sent. *)
Definition settles (r : Request) (w : World)
    (out : Result Response * World) : Prop :=
  match out with
  | (Ok res, w') => Outcome r w res w'
  | (Throw _, w') => w' = w
  end.

(** The path [p] the router sees at one of its two mount points for
    a request to [u]. *)
Definition reaches (u p : string) : Prop :=
  p = u \/ Express.mountApi u = Some p.

(** The status codes the application answers with. *)
Definition statuses : list Z := [200; 201; 204; 400; 401; 404; 500].

(** Two rows in the order of their dates. *)
Definition byDate (a b : MySQL.Row) : Prop :=
  String.leb (MySQL.row_date a) (MySQL.row_date b) = true.

(** An origin as the whitelist holds it: not empty, without white
    space around it and without a comma. *)
Definition cleanOrigin (s : string) : Prop :=
  s <> EmptyString /\ JSString.trim s = s
  /\ JSString.includes s "," = false.

(** An authorized PUT with the body [{distance: "1500", type: " Run"}]. *)
Definition putRun (u : string) : Request :=
  {| httpMethod := PUT; url := u;
     headers := {[ "authorization" := "Bearer s3cret" ]};
     urlQuery := emptyObject;
     jsonBody := VObj [("distance", VStr "1500"); ("type", VStr " Run")] |}.

(** * Properties *)

(** ** Strings *)

Lemma append_cons (c : ascii) (s t : string) :
  String c s +:+ t = String c (s +:+ t).
Proof. reflexivity. Qed.

Lemma nonEmpty_true (s : string) :
  JSString.nonEmpty s = true <-> s <> EmptyString.
Proof. destruct s; simpl; split; congruence. Qed.

Lemma nonEmpty_false (s : string) :
  JSString.nonEmpty s = false <-> s = EmptyString.
Proof. destruct s; simpl; split; congruence. Qed.

Lemma eqb_true (s t : string) : String.eqb s t = true <-> s = t.
Proof. apply String.eqb_eq. Qed.

(** [s.startsWith(p)] holds exactly when [s] is [p] followed by
    [s.slice(p.length)]. *)
Lemma startsWith_slice (p s : string) :
  JSString.startsWith s p = true ->
  s = p +:+ JSString.slice (String.length p) s.
Proof.
  unfold JSString.startsWith. revert s.
  induction p as [|c p IH]; intros s H.
  - reflexivity.
  - destruct s as [|d s]; simpl in H; [discriminate|].
    destruct (ascii_dec c d) as [->|]; [|discriminate].
    rewrite append_cons. simpl. f_equal. now apply IH.
Qed.

Lemma startsWith_append (p t : string) : JSString.startsWith (p +:+ t) p = true.
Proof.
  unfold JSString.startsWith.
  induction p as [|c p IH]; [now destruct t|].
  rewrite append_cons. simpl. destruct (ascii_dec c c); congruence.
Qed.

Lemma slice_append (p t : string) :
  JSString.slice (String.length p) (p +:+ t) = t.
Proof.
  induction p as [|c p IH]; [now destruct t|].
  rewrite append_cons. simpl. exact IH.
Qed.

(** Lower case and trimming commute and are idempotent. *)
Lemma lowerChar_idem (c : ascii) :
  JSString.lowerChar (JSString.lowerChar c) = JSString.lowerChar c.
Proof. destruct c as [[] [] [] [] [] [] [] []]; reflexivity. Qed.

Lemma lowerChar_space (c : ascii) :
  JSString.isWhiteSpace (JSString.lowerChar c) = JSString.isWhiteSpace c.
Proof. destruct c as [[] [] [] [] [] [] [] []]; reflexivity. Qed.

Lemma toLowerCase_idem (s : string) :
  JSString.toLowerCase (JSString.toLowerCase s) = JSString.toLowerCase s.
Proof.
  induction s as [|c s IH]; simpl; [reflexivity|].
  now rewrite lowerChar_idem, IH.
Qed.

Lemma trimStart_lower (s : string) :
  JSString.trimStart (JSString.toLowerCase s)
  = JSString.toLowerCase (JSString.trimStart s).
Proof.
  induction s as [|c s IH]; simpl; [reflexivity|].
  rewrite lowerChar_space. now destruct (JSString.isWhiteSpace c).
Qed.

Lemma trimEnd_lower (s : string) :
  JSString.trimEnd (JSString.toLowerCase s)
  = JSString.toLowerCase (JSString.trimEnd s).
Proof.
  induction s as [|c s IH]; simpl; [reflexivity|].
  rewrite IH. destruct (JSString.trimEnd s); simpl.
  - rewrite lowerChar_space. now destruct (JSString.isWhiteSpace c).
  - reflexivity.
Qed.

Lemma trimEnd_idem (s : string) :
  JSString.trimEnd (JSString.trimEnd s) = JSString.trimEnd s.
Proof.
  induction s as [|c s IH]; simpl; [reflexivity|].
  destruct (JSString.trimEnd s) as [|d t] eqn:Ht.
  - destruct (JSString.isWhiteSpace c) eqn:Hc; simpl; [reflexivity|].
    now rewrite Hc.
  - simpl. simpl in IH. now rewrite IH.
Qed.

Lemma trimStart_clean (s : string) :
  startsClean (JSString.trimStart s) = true.
Proof.
  induction s as [|c s IH]; simpl; [reflexivity|].
  destruct (JSString.isWhiteSpace c) eqn:Hc; [exact IH|].
  simpl. now rewrite Hc.
Qed.

Lemma trimStart_of_clean (s : string) :
  startsClean s = true -> JSString.trimStart s = s.
Proof.
  destruct s as [|c s]; simpl; [reflexivity|].
  now destruct (JSString.isWhiteSpace c).
Qed.

Lemma trimEnd_clean (s : string) :
  startsClean s = true -> startsClean (JSString.trimEnd s) = true.
Proof.
  destruct s as [|c s]; simpl; [reflexivity|]. intros Hc.
  destruct (JSString.trimEnd s); simpl.
  - destruct (JSString.isWhiteSpace c) eqn:E; simpl; [reflexivity|].
    now rewrite E.
  - exact Hc.
Qed.

Lemma trim_idem (s : string) :
  JSString.trim (JSString.trim s) = JSString.trim s.
Proof.
  unfold JSString.trim.
  rewrite (trimStart_of_clean (JSString.trimEnd (JSString.trimStart s))).
  - apply trimEnd_idem.
  - apply trimEnd_clean, trimStart_clean.
Qed.

Lemma trim_lower (s : string) :
  JSString.trim (JSString.toLowerCase s)
  = JSString.toLowerCase (JSString.trim s).
Proof. unfold JSString.trim. now rewrite trimStart_lower, trimEnd_lower. Qed.

(** ** Numbers: the conversions on known values *)

Example number_of_text :
  List.map JSNumber.stringToNumber
    ["1000"; " 2.5 "; "0x10"; "-0"; "abc"; "1e999"]
  = [JSNumber.ofZ 1000; S754_finite false 5629499534213120 (-51);
     JSNumber.ofZ 16; S754_zero true; JSNumber.NaN; JSNumber.infinity false].
Proof. reflexivity. Qed.

Example text_of_number :
  List.map (fun s => JSNumber.toString (JSNumber.stringToNumber s))
    ["1000"; "0.1"; "1e21"; "1e-7"; "0.000001"; "123456789012345680000";
     "0.30000000000000004"; "-1.5e-9"; "5e-324"]
  = ["1000"; "0.1"; "1e+21"; "1e-7"; "0.000001"; "123456789012345680000";
     "0.30000000000000004"; "-1.5e-9"; "5e-324"].
Proof. vm_compute. reflexivity. Qed.

Example text_of_values :
  List.map toStr
    [VArr [VNum (JSNumber.ofZ 1); VNull; VStr "a"]; VObj []; VBool true;
     VUndefined; VObj [("toString", VNum (JSNumber.ofZ 1))];
     VArr [VStr "a"; VObj [("toString", VNull)]]]
  = [Ok "1,,a"; Ok "[object Object]"; Ok "true"; Ok "undefined";
     Throw typeError; Throw typeError].
Proof. vm_compute. reflexivity. Qed.

(** ** The auth gate *)

Section Gate.
Variables (env : Env) (r : Request) (p : string) (ps : value).

Let req := expressReq r p ps.
Let apiKey := headers r !! "x-api-key".
Let authorization := headers r !! "authorization".

(** The token of a request Express built, read off the headers. *)
Lemma editToken_headers :
  editToken req =
  Ok (if present apiKey then apiKey
      else if JSString.startsWith (orEmpty authorization) "Bearer "
           then Some (JSString.slice 7 (orEmpty authorization))
           else None).
Proof. reflexivity. Qed.

Lemma editToken_api_key (k : string) :
  apiKey = Some k -> k <> EmptyString -> editToken req = Ok (Some k).
Proof.
  intros Hk Hne. rewrite editToken_headers, Hk. simpl.
  apply nonEmpty_true in Hne. now rewrite Hne.
Qed.

Lemma editToken_bearer (t : string) :
  present apiKey = false -> authorization = Some ("Bearer " +:+ t) ->
  editToken req = Ok (Some t).
Proof.
  intros Hk Ha. rewrite editToken_headers, Hk, Ha. simpl orEmpty.
  rewrite startsWith_append.
  change 7%nat with (String.length "Bearer "). now rewrite slice_append.
Qed.

Lemma editToken_inv (t : string) :
  editToken req = Ok (Some t) ->
  (apiKey = Some t /\ t <> EmptyString)
  \/ (present apiKey = false /\ authorization = Some ("Bearer " +:+ t)).
Proof.
  rewrite editToken_headers. intros H.
  destruct (present apiKey) eqn:Hk.
  - left. injection H as H. rewrite H in Hk. split; [exact H|].
    now apply nonEmpty_true.
  - right. split; [reflexivity|].
    destruct (JSString.startsWith (orEmpty authorization) "Bearer ") eqn:Hs;
      [|discriminate].
    assert (Ht : JSString.slice 7 (orEmpty authorization) = t)
      by congruence.
    apply startsWith_slice in Hs.
    change (String.length "Bearer ") with 7%nat in Hs. rewrite Ht in Hs.
    destruct authorization as [h|]; simpl in Hs; [now subst h|].
    discriminate.
Qed.

(** The gate of a request Express built never throws. *)
Lemma requireEditAuth_headers :
  exists token, editToken req = Ok token /\
  requireEditAuth env req =
  Ok (if present token && JSString.nonEmpty (orEmpty (EDIT_TOKEN env))
         && String.eqb (orEmpty token) (orEmpty (EDIT_TOKEN env))
      then Next else Respond unauthorized).
Proof.
  unfold requireEditAuth. rewrite editToken_headers.
  eexists. split; [reflexivity|]. simpl.
  match goal with |- (if ?c then _ else _) = _ => now destruct c end.
Qed.

Lemma requireEditAuth_next :
  requireEditAuth env req = Ok Next <->
  orEmpty (EDIT_TOKEN env) <> EmptyString
  /\ editToken req = Ok (Some (orEmpty (EDIT_TOKEN env))).
Proof.
  destruct requireEditAuth_headers as (token & Ht & Hg).
  rewrite Hg, Ht. split.
  - intros H.
    destruct (present token) eqn:Hp; simpl in H; [|discriminate].
    destruct (JSString.nonEmpty (orEmpty (EDIT_TOKEN env))) eqn:Hs;
      simpl in H; [|discriminate].
    destruct (String.eqb (orEmpty token) (orEmpty (EDIT_TOKEN env))) eqn:He;
      [|discriminate].
    apply eqb_true in He. split; [now apply nonEmpty_true|].
    destruct token as [t|]; [|discriminate]. simpl in He. now subst t.
  - intros [Hs Hk]. injection Hk as ->. simpl.
    apply nonEmpty_true in Hs. rewrite Hs. simpl.
    now rewrite String.eqb_refl.
Qed.

Lemma requireEditAuth_cases :
  requireEditAuth env req = Ok Next
  \/ requireEditAuth env req = Ok (Respond unauthorized).
Proof.
  destruct requireEditAuth_headers as (token & _ & Hg). rewrite Hg.
  match goal with |- Ok (if ?c then _ else _) = _ \/ _ => destruct c end;
    auto.
Qed.

End Gate.

(** The gate reads the headers only. *)
Lemma requireEditAuth_path (env : Env) (r : Request) (p p' : string)
    (ps ps' : value) :
  requireEditAuth env (expressReq r p ps)
  = requireEditAuth env (expressReq r p' ps').
Proof. reflexivity. Qed.

(** A refused request does not reach the handler. *)
Lemma gated_refused (env : Env) (req : Req) (handler : M Response) (w : World) :
  requireEditAuth env req = Ok (Respond unauthorized) ->
  gated env req handler w = (Ok unauthorized, w).
Proof. intros H. unfold gated, bind, lift. now rewrite H. Qed.

Lemma gated_passed (env : Env) (req : Req) (handler : M Response) (w : World) :
  requireEditAuth env req = Ok Next ->
  gated env req handler w = handler w.
Proof. intros H. unfold gated, bind, lift. now rewrite H. Qed.

(** ** The navigation blocker *)

Lemma inspectNavigation_get (req : Req) (d m a : option string) :
  method req = "GET" -> path req <> "/health" ->
  get req "sec-fetch-dest" = Ok d ->
  get req "sec-fetch-mode" = Ok m ->
  get req "accept" = Ok a ->
  inspectNavigation req =
  Ok (if navigationSignals (JSString.toLowerCase (orEmpty d))
           (JSString.toLowerCase (orEmpty m))
           (JSString.toLowerCase (orEmpty a))
      then Some noContent else None).
Proof.
  intros Hm Hp Hd Hmo Ha. unfold inspectNavigation.
  rewrite Hm. apply String.eqb_neq in Hp. rewrite Hp. simpl.
  rewrite Hd. simpl. rewrite Hmo. simpl. rewrite Ha. simpl.
  unfold navigationSignals.
  match goal with |- (if ?c then _ else _) = _ => now destruct c end.
Qed.

Lemma blockBrowserNav_other_method (req : Req) :
  method req <> "GET" -> blockBrowserNav req = Next.
Proof.
  intros H. unfold blockBrowserNav, inspectNavigation.
  apply String.eqb_neq in H. now rewrite H.
Qed.

Lemma blockBrowserNav_health (req : Req) :
  path req = "/health" -> blockBrowserNav req = Next.
Proof.
  intros H. unfold blockBrowserNav, inspectNavigation.
  rewrite H. simpl. now rewrite andb_false_r.
Qed.


Lemma blockBrowserNav_cases (req : Req) :
  blockBrowserNav req = Next \/ blockBrowserNav req = Respond noContent.
Proof.
  unfold blockBrowserNav, inspectNavigation.
  destruct (String.eqb (method req) "GET"
            && negb (String.eqb (path req) "/health"));
    [|now left].
  destruct (get req "sec-fetch-dest"); simpl; [now left|].
  destruct (get req "sec-fetch-mode"); simpl; [now left|].
  destruct (get req "accept"); simpl; [now left|].
  match goal with |- context [if ?c then _ else _] => destruct c end; auto.
Qed.

Lemma blockBrowserNav_not_get (r : Request) (p : string) (ps : value) :
  httpMethod r <> GET -> blockBrowserNav (expressReq r p ps) = Next.
Proof.
  intros H. apply blockBrowserNav_other_method. simpl.
  destruct (httpMethod r); simpl; congruence.
Qed.

Lemma blockBrowserNav_no_signal (r : Request) (p : string) (ps : value) :
  noNavigationSignal (headers r) ->
  blockBrowserNav (expressReq r p ps) = Next.
Proof.
  intros H.
  destruct (string_dec (methodName (httpMethod r)) "GET") as [Hm|Hm];
    [|now apply blockBrowserNav_other_method].
  destruct (string_dec p "/health") as [Hp|Hp];
    [now apply blockBrowserNav_health|].
  unfold blockBrowserNav.
  rewrite (inspectNavigation_get (expressReq r p ps)
             (headers r !! "sec-fetch-dest") (headers r !! "sec-fetch-mode")
             (headers r !! "accept") Hm Hp eq_refl eq_refl eq_refl).
  unfold noNavigationSignal in H. now rewrite H.
Qed.


(** ** Routing *)

Lemma answer_run {A} (m : M A) (k : M A) (w : World) :
  bind (bind m (fun res => ret (Some res)))
       (fun o => match o with Some res => ret res | None => k end) w
  = m w.
Proof. unfold bind, ret. now destruct (m w) as [[e|a] w']. Qed.

(** *** Paths that decode *)

Lemma tokens_literal (c : ascii) (s : string) :
  Ascii.eqb c "%" = false ->
  Express.tokens Express.Outside (String c s)
  = andThen (Express.tokens Express.Outside s)
      (fun ts => Ok (Express.Literal c :: ts)).
Proof. intros H. cbn [Express.tokens]. now rewrite H. Qed.

Lemma decode_literal (c : ascii) (s : string) :
  Ascii.eqb c "%" = false ->
  Express.decodeURIComponent (String c s)
  = andThen (Express.decodeURIComponent s)
      (fun us => Ok (JSString.code c :: us)).
Proof.
  intros H. unfold Express.decodeURIComponent. rewrite (tokens_literal c s H).
  now destruct (Express.tokens Express.Outside s).
Qed.

(** A prefix without a percent sign is copied. *)
Lemma decode_prefix (a b : string) :
  noPercent a = true ->
  Express.decodeURIComponent (a +:+ b)
  = andThen (Express.decodeURIComponent b) (fun us => Ok (units a ++ us)).
Proof.
  unfold noPercent. induction a as [|c a IH]; cbn [allChars units].
  - intros _. change (EmptyString +:+ b) with b.
    now destruct (Express.decodeURIComponent b).
  - intros H. apply andb_true_iff in H. destruct H as [Hc Ha].
    apply negb_true_iff in Hc. rewrite append_cons, (decode_literal _ _ Hc).
    rewrite (IH Ha). now destruct (Express.decodeURIComponent b).
Qed.

Lemma decode_plain (s : string) :
  noPercent s = true -> Express.decodeURIComponent s = Ok (units s).
Proof.
  unfold noPercent. induction s as [|c s IH]; cbn [allChars units].
  - reflexivity.
  - intros H. apply andb_true_iff in H. destruct H as [Hc Hs].
    apply negb_true_iff in Hc. now rewrite (decode_literal _ _ Hc), (IH Hs).
Qed.

Lemma decodes_prefix (a b : string) :
  noPercent a = true -> decodes b -> decodes (a +:+ b).
Proof.
  intros Ha [us Hb]. exists (units a ++ us).
  now rewrite (decode_prefix a b Ha), Hb.
Qed.

Lemma decodes_plain (s : string) : noPercent s = true -> decodes s.
Proof. intros H. eexists. now apply decode_plain. Qed.

Lemma tokens_slash (st : Express.Escape) (s : string)
    (ts : list Express.Token) :
  Express.tokens st s = Ok ts ->
  Express.tokens st (s +:+ "/") = Ok (ts ++ [Express.Literal "/"]).
Proof.
  revert st ts. induction s as [|c s IH]; intros st ts.
  - change (EmptyString +:+ "/") with "/"%string.
    destruct st; cbn [Express.tokens]; try discriminate.
    intros [= <-]. reflexivity.
  - rewrite append_cons. destruct st; cbn [Express.tokens].
    + destruct (Ascii.eqb c "%"); [apply IH|].
      destruct (Express.tokens Express.Outside s) as [e|ts'] eqn:Hs;
        [discriminate|].
      intros [= <-]. now rewrite (IH _ _ Hs).
    + apply IH.
    + destruct (Express.hexByte a c); [|discriminate].
      destruct (Express.tokens Express.Outside s) as [e|ts'] eqn:Hs;
        [discriminate|].
      intros [= <-]. now rewrite (IH _ _ Hs).
Qed.

Lemma utf8_slash (st : Express.Utf8) (ts : list Express.Token)
    (us : list N) :
  Express.utf8 st ts = Ok us ->
  Express.utf8 st (ts ++ [Express.Literal "/"]) = Ok (us ++ [47%N]).
Proof.
  revert st us. induction ts as [|t ts IH]; intros st us.
  - destruct st; cbn [Express.utf8]; [|discriminate].
    intros [= <-]. reflexivity.
  - change ((t :: ts) ++ [Express.Literal "/"])
      with (t :: (ts ++ [Express.Literal "/"])).
    destruct st as [|more acc lo hi], t as [c|b];
      cbn [Express.utf8]; try discriminate.
    + destruct (Express.utf8 Express.Idle ts) as [e|us'] eqn:Hs;
        [discriminate|].
      intros [= <-]. now rewrite (IH _ _ Hs).
    + destruct (b <? 128).
      * destruct (Express.utf8 Express.Idle ts) as [e|us'] eqn:Hs;
          [discriminate|].
        intros [= <-]. now rewrite (IH _ _ Hs).
      * destruct (Express.lead b); [apply IH|discriminate].
    + destruct ((lo <=? b) && (b <=? hi)); [|discriminate].
      destruct more; [|apply IH].
      destruct (Express.utf8 Express.Idle ts) as [e|us'] eqn:Hs;
        [discriminate|].
      intros [= <-]. rewrite (IH _ _ Hs). cbn [andThen].
      now rewrite <- app_assoc.
Qed.

Lemma decodes_slash (s : string) : decodes s -> decodes (s +:+ "/").
Proof.
  unfold decodes, Express.decodeURIComponent. intros [us H].
  destruct (Express.tokens Express.Outside s) as [e|ts] eqn:Ht;
    [discriminate|].
  cbn [andThen] in H. rewrite (tokens_slash _ _ _ Ht). cbn [andThen].
  exists (us ++ [47%N]). apply utf8_slash. exact H.
Qed.

Lemma inAlphabet_units (s : string) : Express.inAlphabet (units s) = Some s.
Proof.
  induction s as [|c s IH]; [reflexivity|].
  cbn [units Express.inAlphabet]. rewrite IH. unfold JSString.code.
  assert (H : (N_of_ascii c <? 256)%N = true)
    by (apply N.ltb_lt, N_ascii_bounded).
  now rewrite H, ascii_N_embedding.
Qed.

Lemma decodeParam_plain (s : string) :
  noPercent s = true -> Express.decodeParam s = Ok s.
Proof.
  intros H. unfold Express.decodeParam. rewrite (decode_plain s H).
  cbn [andThen]. now rewrite inAlphabet_units.
Qed.

Lemma decodeParam_decodes (seg id : string) :
  Express.decodeParam seg = Ok id -> decodes seg.
Proof.
  unfold Express.decodeParam, decodes.
  destruct (Express.decodeURIComponent seg) as [e|us]; [discriminate|].
  intros _. now exists us.
Qed.

Lemma foldChar_percent (c x : ascii) :
  Ascii.eqb (JSString.foldChar c) (JSString.foldChar x) = true ->
  Ascii.eqb x "%" = false -> Ascii.eqb c "%" = false.
Proof.
  intros H Hx. apply Ascii.eqb_eq in H. apply Ascii.eqb_neq.
  intros ->. apply Ascii.eqb_neq in Hx. apply Hx.
  change (JSString.foldChar "%") with "%"%char in H.
  unfold JSString.foldChar, JSString.code in H.
  destruct ((65 <=? N_of_ascii x) && (N_of_ascii x <=? 90))%N eqn:Hr;
    [|now symmetry].
  apply andb_true_iff in Hr. destruct Hr as [H1 H2].
  apply N.leb_le in H1, H2. apply (f_equal N_of_ascii) in H.
  rewrite N_ascii_embedding in H by lia. cbn in H. lia.
Qed.

Lemma eqNoCase_noPercent (p q : string) :
  JSString.eqNoCase p q = true -> noPercent q = true -> noPercent p = true.
Proof.
  unfold noPercent. revert q. induction p as [|c p IH]; intros [|x q];
    cbn [JSString.eqNoCase allChars]; try easy.
  intros H Hq. apply andb_true_iff in H. destruct H as [Hc Hp].
  apply andb_true_iff in Hq. destruct Hq as [Hx Hq].
  apply negb_true_iff in Hx. rewrite (foldChar_percent c x Hc Hx).
  cbn [negb andb]. now apply (IH q).
Qed.

Lemma sliceTo_slice (n : nat) (s : string) :
  JSString.sliceTo n s +:+ JSString.slice n s = s.
Proof.
  revert s. induction n as [|n IH]; intros [|c s]; try reflexivity.
  cbn [JSString.sliceTo JSString.slice]. now rewrite append_cons, IH.
Qed.

Lemma dropTrailingSlash_cases (s : string) :
  Express.dropTrailingSlash s = s
  \/ s = Express.dropTrailingSlash s +:+ "/".
Proof.
  induction s as [|c s IH]; [now left|].
  destruct s as [|c' s].
  - cbn [Express.dropTrailingSlash]. destruct (Ascii.eqb c "/") eqn:Hc.
    + right. apply Ascii.eqb_eq in Hc. now subst c.
    + now left.
  - change (Express.dropTrailingSlash (String c (String c' s)))
      with (String c (Express.dropTrailingSlash (String c' s))).
    destruct IH as [IH|IH].
    + left. now rewrite IH.
    + right. now rewrite append_cons, <- IH.
Qed.

(** A path a literal route matches holds no escape. *)
Lemma matchPath_decodes (route p : string) :
  noPercent route = true -> Express.matchPath route p = true -> decodes p.
Proof.
  intros Hr Hm. apply decodes_plain. unfold Express.matchPath in Hm.
  apply orb_true_iff in Hm. destruct Hm as [Hm|Hm].
  - exact (eqNoCase_noPercent _ _ Hm Hr).
  - apply (eqNoCase_noPercent _ _ Hm). unfold noPercent in *.
    clear Hm. induction route as [|c route IH]; [reflexivity|].
    rewrite append_cons. cbn [allChars] in *.
    apply andb_true_iff in Hr. destruct Hr as [-> Hr]. now apply IH.
Qed.

(** The path of a session decodes when its id does. *)
Lemma matchParam_decodes (p seg : string) :
  Express.matchParam "/sessions/" p = Some seg -> decodes seg -> decodes p.
Proof.
  unfold Express.matchParam.
  change (String.length "/sessions/") with 10%nat. cbv zeta.
  destruct (JSString.eqNoCase (JSString.sliceTo 10 p) "/sessions/") eqn:He;
    [|discriminate].
  destruct (_ && _); [|discriminate]. intros [= <-] Hd.
  change (decodes (Express.dropTrailingSlash (JSString.slice 10 p))) in Hd.
  rewrite <- (sliceTo_slice 10 p).
  apply decodes_prefix; [exact (eqNoCase_noPercent _ _ He eq_refl)|].
  destruct (dropTrailingSlash_cases (JSString.slice 10 p)) as [H|H].
  - now rewrite H in Hd.
  - rewrite H. now apply decodes_slash.
Qed.

(** The path under the mount point decodes when the path the router
    sees does. *)
Lemma mountApi_decodes (u p : string) :
  Express.mountApi u = Some p -> decodes p -> decodes u.
Proof.
  unfold Express.mountApi.
  destruct (JSString.eqNoCase (JSString.sliceTo 4 u) "/api") eqn:He;
    [|discriminate].
  intros Hp Hd. rewrite <- (sliceTo_slice 4 u).
  apply decodes_prefix; [exact (eqNoCase_noPercent _ _ He eq_refl)|].
  destruct (JSString.slice 4 u) as [|c rest]; [now apply decodes_plain|].
  destruct (Ascii.eqb_spec c "/") as [->|Hc].
  - destruct rest as [|c' rest]; [now apply decodes_plain|].
    destruct (Ascii.eqb_spec c' "/") as [->|Hc'].
    + injection Hp as <-.
      now apply (decodes_prefix "/" (String "/" rest)).
    + assert (Hq : p = String "/" (String c' rest)).
      { destruct c' as [[] [] [] [] [] [] [] []];
          try (injection Hp as <-; reflexivity).
        now contradiction Hc'. }
      now rewrite <- Hq.
  - exfalso. destruct c as [[] [] [] [] [] [] [] []]; try discriminate Hp.
    now apply Hc.
Qed.

Lemma reaches_decodes (u p : string) :
  reaches u p -> decodes p -> decodes u.
Proof. intros [->|Hm] Hd; [exact Hd|exact (mountApi_decodes u p Hm Hd)]. Qed.

(** *** The layers *)

(** A path without a malformed escape passes the route [*]. *)
Lemma layers_decoded (env : Env) (uuid : string) (r : Request) (w : World) :
  decodes (url r) -> layers env uuid r w = answering env uuid r w.
Proof. intros [us H]. unfold layers, bind, lift. now rewrite H. Qed.

(** A path with a malformed escape reaches no layer that answers. *)
Lemma layers_malformed (env : Env) (uuid : string) (r : Request) (e : string)
    (w : World) :
  Express.decodeURIComponent (url r) = Throw e ->
  layers env uuid r w = (Throw e, w).
Proof. intros H. unfold layers, bind, lift. now rewrite H. Qed.

(** A request the router answers at [/] through one of its routes. *)
Lemma layers_at_root (env : Env) (uuid : string) (r : Request)
    (handler : M Response) (w : World) :
  decodes (url r) ->
  blockBrowserNav (expressReq r (url r) emptyObject) = Next ->
  route env uuid r (url r) = Some handler ->
  layers env uuid r w = handler w.
Proof.
  intros Hd Hb Hr. rewrite (layers_decoded env uuid r w Hd).
  unfold answering, api. rewrite Hb, Hr. apply answer_run.
Qed.

(** A request the router lets pass at [/] and answers under [/api]. *)
Lemma layers_under_api (env : Env) (uuid : string) (r : Request) (p : string)
    (handler : M Response) (w : World) :
  decodes (url r) ->
  blockBrowserNav (expressReq r (url r) emptyObject) = Next ->
  route env uuid r (url r) = None ->
  Express.mountApi (url r) = Some p ->
  blockBrowserNav (expressReq r p emptyObject) = Next ->
  route env uuid r p = Some handler ->
  layers env uuid r w = handler w.
Proof.
  intros Hd Hb Hr Hm Hb' Hr'. rewrite (layers_decoded env uuid r w Hd).
  unfold answering.
  unfold bind at 1. unfold api at 1. rewrite Hb, Hr. unfold ret at 1.
  rewrite Hm. unfold api. rewrite Hb', Hr'. apply answer_run.
Qed.

(** A request the blocker answers at [/]. *)
Lemma layers_blocked (env : Env) (uuid : string) (r : Request)
    (res : Response) (w : World) :
  decodes (url r) ->
  blockBrowserNav (expressReq r (url r) emptyObject) = Respond res ->
  layers env uuid r w = (Ok res, w).
Proof.
  intros Hd Hb. rewrite (layers_decoded env uuid r w Hd).
  unfold answering, bind, api. now rewrite Hb.
Qed.

Lemma app_of_layers (env : Env) (uuid : string) (r : Request) (w w' : World)
    (res : Response) :
  layers env uuid r w = (Ok res, w') -> app env uuid r w = (res, w').
Proof. intros H. unfold app. now rewrite H. Qed.

(** A refused request to a route behind the gate changes nothing;
    this covers every request that is not a GET. *)
Lemma api_refused (env : Env) (uuid : string) (r : Request) (p : string)
    (w : World) :
  httpMethod r <> GET ->
  requireEditAuth env (expressReq r p emptyObject)
  = Ok (Respond unauthorized) ->
  exists out, api env uuid r p w = (out, w)
    /\ (out = Ok None \/ out = Ok (Some unauthorized)
        \/ exists e, out = Throw e).
Proof.
  intros Hm Hg. unfold api. rewrite (blockBrowserNav_not_get _ _ _ Hm).
  unfold route. destruct (httpMethod r); [congruence| | |].
  - destruct (Express.matchPath "/sessions" p).
    + unfold bind. rewrite gated_refused by exact Hg. eauto.
    + eauto.
  - destruct (Express.matchParam "/sessions/" p) as [seg|]; [|eauto].
    unfold bind at 1. unfold withId, bind, lift.
    destruct (Express.decodeParam seg) as [e|id]; [eauto 6|].
    rewrite gated_refused; [eauto|].
    now rewrite (requireEditAuth_path _ _ _ p _ emptyObject).
  - destruct (Express.matchParam "/sessions/" p) as [seg|]; [|eauto].
    unfold bind at 1. unfold withId, bind, lift.
    destruct (Express.decodeParam seg) as [e|id]; [eauto 6|].
    rewrite gated_refused; [eauto|].
    now rewrite (requireEditAuth_path _ _ _ p _ emptyObject).
Qed.

Lemma app_refused (env : Env) (uuid : string) (r : Request) (w : World) :
  httpMethod r <> GET ->
  ~ authorized env r ->
  snd (app env uuid r w) = w.
Proof.
  intros Hm Hna.
  assert (Hg : forall p, requireEditAuth env (expressReq r p emptyObject)
                         = Ok (Respond unauthorized)).
  { intros p. destruct (requireEditAuth_cases env r p emptyObject) as [H|H];
      [|exact H].
    exfalso. apply Hna. unfold authorized.
    now rewrite (requireEditAuth_path _ _ _ p _ emptyObject). }
  unfold app, layers. unfold bind at 1. unfold lift.
  destruct (Express.decodeURIComponent (url r)) as [e|us]; [reflexivity|].
  unfold answering. unfold bind at 1.
  destruct (api_refused env uuid r (url r) w Hm (Hg _)) as (out & -> & Ho).
  assert (Hrest : forall (w0 : World),
    snd (let (r0, w') :=
           (if match httpMethod r with GET => true | _ => false end
               && Express.matchRoot (url r)
            then ret {| status := 200; body := Text "API up" |}
            else ret {| status := 404; body := NotFoundPage |}) w0 in
         match r0 with
         | Throw _ => (internalError, w')
         | Ok res => (res, w')
         end) = w0).
  { intros w0. now destruct (_ && _). }
  destruct Ho as [->|[->|[e ->]]]; simpl; try reflexivity.
  destruct (Express.mountApi (url r)) as [p|]; [|apply Hrest].
  unfold bind.
  destruct (api_refused env uuid r p w Hm (Hg _)) as (out & -> & Ho).
  destruct Ho as [->|[->|[e ->]]]; simpl; try reflexivity. apply Hrest.
Qed.

(** ** The gate decides on the token *)

(** C1: the gate lets a request pass exactly when the configured
    secret is not empty, a token was extracted (the X-API-Key value
    when it is not empty, else the rest of an Authorization value
    that starts with [Bearer ]), and the token is the secret.  In
    every other case it answers 401: the handler behind the gate does
    not run and the world (table and statements sent) is unchanged,
    for the routes behind the gate and for every request that is not
    a GET. *)
Theorem auth_gate_decision (env : Env) (r : Request) (p : string)
    (ps : value) :
  let req := expressReq r p ps in
  let secret := orEmpty (EDIT_TOKEN env) in
  let apiKey := headers r !! "x-api-key" in
  let authorization := headers r !! "authorization" in
  (forall t, editToken req = Ok (Some t) <->
     (apiKey = Some t /\ t <> EmptyString)
     \/ (present apiKey = false /\ authorization = Some ("Bearer " +:+ t)))
  /\ (requireEditAuth env req = Ok Next <->
      secret <> EmptyString /\ editToken req = Ok (Some secret))
  /\ (requireEditAuth env req <> Ok Next ->
      requireEditAuth env req = Ok (Respond unauthorized)
      /\ (forall handler w, gated env req handler w = (Ok unauthorized, w))
      /\ (httpMethod r <> GET ->
          forall uuid w, snd (app env uuid r w) = w)).
Proof.
  intros req secret apiKey authorization.
  subst req secret apiKey authorization. split; [|split].
  - intros t. split.
    + apply editToken_inv.
    + intros [[Hk Hne]|[Hk Ha]].
      * now apply editToken_api_key.
      * now apply editToken_bearer.
  - apply requireEditAuth_next.
  - intros H.
    assert (Hg : requireEditAuth env (expressReq r p ps)
                 = Ok (Respond unauthorized)).
    { destruct (requireEditAuth_cases env r p ps); [contradiction|assumption]. }
    split; [exact Hg|split].
    + intros handler w. now apply gated_refused.
    + intros Hm uuid w. apply app_refused; [exact Hm|].
      unfold authorized. intros Ha. apply H.
      now rewrite (requireEditAuth_path _ _ _ (url r) _ emptyObject).
Qed.

(** C9: with an X-API-Key header [k] and an Authorization header
    [Bearer t], the token compared against the secret is [k] when [k]
    is not empty and [t] when it is empty; so an empty X-API-Key
    neither shadows the Bearer token nor refuses the request: the
    gate then passes exactly when [t] is the non-empty secret. *)
Theorem empty_api_key_falls_back_to_bearer (env : Env) (r : Request)
    (p : string) (ps : value) (k t : string) :
  headers r !! "x-api-key" = Some k ->
  headers r !! "authorization" = Some ("Bearer " +:+ t) ->
  let req := expressReq r p ps in
  editToken req = Ok (Some (if JSString.nonEmpty k then k else t))
  /\ (k = EmptyString ->
      (requireEditAuth env req = Ok Next <->
       t <> EmptyString /\ EDIT_TOKEN env = Some t)).
Proof.
  intros Hk Ha req. split.
  - destruct (JSString.nonEmpty k) eqn:Hne.
    + apply editToken_api_key; [exact Hk|]. now apply nonEmpty_true.
    + apply editToken_bearer; [|exact Ha]. rewrite Hk. exact Hne.
  - intros ->. unfold req. rewrite requireEditAuth_next.
    rewrite (editToken_bearer r p ps t) by (rewrite ?Hk; auto).
    split.
    + intros [Hs He]. injection He as He.
      destruct (EDIT_TOKEN env) as [s|]; simpl in *; [|congruence].
      subst t. auto.
    + intros [Hs He]. rewrite He. simpl. auto.
Qed.

Lemma empty_api_key_falls_back_to_bearer_witness :
  editToken (expressReq bearerOnly "/sessions" emptyObject) = Ok (Some "s3cret")
  /\ requireEditAuth secretEnv
       (expressReq bearerOnly "/sessions" emptyObject) = Ok Next.
Proof.
  destruct (empty_api_key_falls_back_to_bearer secretEnv
              bearerOnly "/sessions" emptyObject EmptyString "s3cret"
              eq_refl eq_refl) as [Ht Hg].
  split; [exact Ht|].
  apply (proj2 (Hg eq_refl)). split; [discriminate|reflexivity].
Defined.

(** ** The CORS origin function and the type normalizer *)

Lemma includesString_In (l : list string) (s : string) :
  includesString l s = true <-> In s l.
Proof.
  unfold includesString. rewrite List.existsb_exists. split.
  - intros (x & Hx & He). apply eqb_true in He. now subst x.
  - intros H. exists s. split; [exact H|apply String.eqb_refl].
Qed.

Lemma length_zero_nil {A} (l : list A) :
  Nat.eqb (List.length l) 0 = true <-> l = [].
Proof. destruct l; simpl; split; congruence. Qed.

Lemma present_false (o : option string) :
  present o = false <-> o = None \/ o = Some EmptyString.
Proof.
  destruct o as [[|c s]|]; simpl; split; auto; try discriminate.
  intros [H|H]; discriminate.
Qed.

(** C6, as amended: a request with no Origin header, or with an empty
    Origin value, is always allowed; a request with a non-empty
    Origin is allowed when the allow-list is empty or contains that
    origin exactly, and disallowed otherwise.  The earlier revision
    decides the same and signals a disallowed origin by an error. *)
Theorem cors_origin_decision (whitelist : list string) (o : option string) :
  (corsOptions.origin whitelist o = CbAllow true <->
     o = None \/ o = Some EmptyString \/ whitelist = []
     \/ In (orEmpty o) whitelist)
  /\ (corsOptions.origin whitelist o = CbAllow false <->
      (exists s, o = Some s /\ s <> EmptyString) /\ whitelist <> []
      /\ ~ In (orEmpty o) whitelist)
  /\ Legacy.origin whitelist o =
     match corsOptions.origin whitelist o with
     | CbAllow true => CbAllow true
     | _ => CbError "Not allowed by CORS"
     end.
Proof.
  unfold corsOptions.origin, Legacy.origin.
  destruct (present o) eqn:Hp; simpl.
  - assert (Ho : exists s, o = Some s /\ s <> EmptyString).
    { destruct o as [s|]; [|discriminate]. exists s. split; [reflexivity|].
      now apply nonEmpty_true. }
    destruct (Nat.eqb (List.length whitelist) 0) eqn:Hl; simpl.
    + apply length_zero_nil in Hl. split; [|split]; try reflexivity.
      * split; auto.
      * split; [discriminate|]. intros (_ & Hne & _). contradiction.
    + assert (Hne : whitelist <> []).
      { intros H. apply length_zero_nil in H. congruence. }
      destruct (includesString whitelist (orEmpty o)) eqn:Hi.
      * apply includesString_In in Hi. split; [|split]; try reflexivity.
        -- split; auto.
        -- split; [discriminate|]. intros (_ & _ & Hn). contradiction.
      * assert (Hn : ~ In (orEmpty o) whitelist).
        { intros H. apply includesString_In in H. congruence. }
        split; [|split]; try reflexivity.
        -- split; [discriminate|].
           destruct Ho as (s & -> & Hs).
           intros [H|[H|[H|H]]]; try discriminate; try contradiction.
           injection H as H. contradiction.
        -- split; auto.
  - apply present_false in Hp. split; [|split]; try reflexivity.
    + split; [|reflexivity]. intros _. destruct Hp; auto.
    + split; [discriminate|]. intros ((s & Hs & Hne) & _).
      destruct Hp as [Hp|Hp]; rewrite Hp in Hs; [discriminate|].
      injection Hs as Hs. congruence.
Qed.

(** C6, as stated, fails: an Origin header with an empty value is
    not in the allow-list [https://natrack.prjski.com], which is not
    empty, and the request is allowed. *)
Lemma cors_empty_origin_is_allowed :
  ~ (forall (whitelist : list string) (o : string),
       whitelist <> [] -> ~ In o whitelist ->
       corsOptions.origin whitelist (Some o) = CbAllow false).
Proof.
  intros H.
  specialize (H (WHITELIST {| EDIT_TOKEN := None;
                              CORS_ORIGIN := Some "https://natrack.prjski.com" |})
                EmptyString).
  assert (Hne : WHITELIST {| EDIT_TOKEN := None;
                             CORS_ORIGIN := Some "https://natrack.prjski.com" |}
                <> []) by discriminate.
  specialize (H Hne). simpl in H.
  assert (Hn : ~ ("https://natrack.prjski.com" = EmptyString \/ False)).
  { intros [Hx|[]]. discriminate. }
  specialize (H Hn). discriminate.
Qed.

(** C5, as amended: [normalizeType] is a function of its input alone;
    for every falsy input (absent, [null], the empty string, and also
    [false], zero and NaN) it returns [swim]; for every other input
    it returns [String(input)] in lower case and trimmed when
    [String(input)] returns, and throws the same error when it throws
    (an object with an own [toString] that is no function).  In
    particular a non-empty string comes back in lower case and
    trimmed.  A result is in lower case and trimmed.  Nothing is
    checked against the allowed types: the result of [Bike] is
    [bike]. *)
Theorem normalizeType_falsy_or_lowercased (input : value) :
  normalizeType input =
    (if truthy input
     then andThen (toStr input)
            (fun s => Ok (JSString.trim (JSString.toLowerCase s)))
     else Ok "swim")
  /\ (truthy input = false <->
      input = VUndefined \/ input = VNull \/ input = VStr EmptyString
      \/ input = VBool false
      \/ exists n, input = VNum n /\ JSNumber.truthy n = false)
  /\ (forall s, input = VStr s -> s <> EmptyString ->
      normalizeType input = Ok (JSString.trim (JSString.toLowerCase s)))
  /\ (forall t, normalizeType input = Ok t ->
      JSString.toLowerCase t = t /\ JSString.trim t = t)
  /\ (forall e, normalizeType input = Throw e <->
      truthy input = true /\ toStr input = Throw e)
  /\ (normalizeType (VStr "Bike") = Ok "bike" /\ isValidType "bike" = false)
  /\ normalizeType (VObj [("toString", VNum (JSNumber.ofZ 1))])
     = Throw typeError.
Proof.
  split; [|split; [|split; [|split; [|split; [|split]]]]].
  - unfold normalizeType. now destruct (truthy input).
  - split.
    + destruct input as [| |b|n|s|l|l]; simpl; intros H; auto; try discriminate.
      * subst b. auto.
      * right. right. right. right. eauto.
      * apply nonEmpty_false in H. subst s. auto.
    + intros [->|[->|[->|[->|(n & -> & Hn)]]]]; auto.
  - intros s -> Hs. unfold normalizeType. simpl.
    apply nonEmpty_true in Hs. now rewrite Hs.
  - intros t. unfold normalizeType. destruct (truthy input); cbn [negb].
    + destruct (toStr input) as [e|s]; [discriminate|]. intros [= <-]. split.
      * now rewrite <- trim_lower, toLowerCase_idem.
      * apply trim_idem.
    + intros [= <-]. split; reflexivity.
  - intros e. unfold normalizeType. destruct (truthy input); cbn [negb].
    + destruct (toStr input) as [e'|s]; cbn [andThen].
      * split; [intros [= ->]; now split|intros [_ H]; exact H].
      * split; [discriminate|intros [_ H]; discriminate H].
    + split; [discriminate|intros [H _]; discriminate H].
  - split; reflexivity.
  - reflexivity.
Qed.

(** C5, as stated, fails: the number zero is neither absent nor
    empty, and its result is [swim], not [0]. *)
Lemma normalizeType_zero_is_swim :
  ~ (forall input : value,
       input <> VUndefined -> input <> VNull -> input <> VStr EmptyString ->
       normalizeType input
       = andThen (toStr input)
           (fun s => Ok (JSString.trim (JSString.toLowerCase s)))).
Proof.
  intros H.
  specialize (H (VNum JSNumber.zero)).
  assert (H1 : VNum JSNumber.zero <> VUndefined) by discriminate.
  assert (H2 : VNum JSNumber.zero <> VNull) by discriminate.
  assert (H3 : VNum JSNumber.zero <> VStr EmptyString) by discriminate.
  specialize (H H1 H2 H3). vm_compute in H. discriminate.
Qed.

(** ** The blocker in the router, and the two mounts *)



(** An accessor that throws: the blocker lets the request pass. *)
Example blockBrowserNav_swallows :
  blockBrowserNav
    {| method := "GET"; path := "/sessions";
       get := fun _ => Throw "name argument is required to req.get";
       query := emptyObject; reqBody := VUndefined; params := emptyObject |}
  = Next.
Proof. reflexivity. Qed.

(** C8, at the failing input: a GET with [Sec-Fetch-Mode: navigate]
    is answered by the health check at [/health] and by the blocker,
    with 204, at [/api/health]: the router mounted at [/] sees the
    path [/api/health], which is not [/health]. *)
Theorem health_navigation_differs_under_api (env : Env) (uuid : string)
    (w : World) :
  fst (app env uuid (navigation "/health") w)
    = json 200 (VObj [("ok", VBool true); ("db", VBool true)])
  /\ app env uuid (navigation "/api/health") w = (noContent, w).
Proof. split; reflexivity. Qed.

(** No route of the router matches a path that starts with [/api]. *)
Lemma route_under_api_prefix (env : Env) (uuid : string) (r : Request)
    (u : string) :
  route env uuid r ("/api" +:+ u) = None.
Proof. unfold route. now destruct (httpMethod r). Qed.

(** The mount at [/api] strips the prefix. *)
Lemma mountApi_prefix (u : string) :
  singleSlash u = true -> Express.mountApi ("/api" +:+ u) = Some u.
Proof.
  intros H.
  change (Express.mountApi ("/api" +:+ u))
    with (match u with
          | EmptyString => Some "/"
          | String "/" EmptyString => Some "/"
          | String "/" (String "/" r) => Some (String "/" r)
          | String "/" r => Some (String "/" r)
          | _ => None
          end).
  destruct u as [|c u]; [discriminate|].
  destruct (ascii_dec c "/") as [->|Hc].
  - destruct u as [|d u]; [reflexivity|].
    destruct (ascii_dec d "/") as [->|Hd]; [discriminate|].
    destruct d as [[] [] [] [] [] [] [] []]; try reflexivity.
    congruence.
  - destruct c as [[] [] [] [] [] [] [] []]; try discriminate.
    congruence.
Qed.

(** The blocker reads the path only to exempt [/health]. *)
Lemma blockBrowserNav_same_off_health (r : Request) (p p' : string) :
  p <> "/health" -> p' <> "/health" ->
  blockBrowserNav (expressReq r p emptyObject)
  = blockBrowserNav (expressReq r p' emptyObject).
Proof.
  intros Hp Hp'. unfold blockBrowserNav, inspectNavigation. simpl.
  apply String.eqb_neq in Hp, Hp'. now rewrite Hp, Hp'.
Qed.

Lemma api_prefix_not_health (u : string) : "/api" +:+ u <> "/health".
Proof. unfold String.append. discriminate. Qed.

Lemma blockBrowserNav_under_api (r : Request) :
  (httpMethod r = GET -> url r = "/health" ->
   noNavigationSignal (headers r)) ->
  blockBrowserNav (expressReq r ("/api" +:+ url r) emptyObject)
  = blockBrowserNav (expressReq r (url r) emptyObject).
Proof.
  intros H. destruct (string_dec (url r) "/health") as [Hu|Hu].
  - destruct (httpMethod r) eqn:Hm.
    + specialize (H eq_refl Hu).
      now rewrite !blockBrowserNav_no_signal.
    + rewrite !blockBrowserNav_not_get; congruence.
    + rewrite !blockBrowserNav_not_get; congruence.
    + rewrite !blockBrowserNav_not_get; congruence.
  - apply blockBrowserNav_same_off_health; [apply api_prefix_not_health|].
    exact Hu.
Qed.

(** X1: apart from the case of C8 the two mounts agree.  A request
    the router has a route for at the path [u] gets, at [/api]
    followed by [u], the same response and the same effect, unless
    it is a GET to [/health] that carries a navigation signal. *)
Theorem mounts_agree (env : Env) (uuid : string) (r : Request) (w : World) :
  singleSlash (url r) = true ->
  route env uuid r (url r) <> None ->
  (httpMethod r = GET -> url r = "/health" ->
   noNavigationSignal (headers r)) ->
  app env uuid (withUrl r ("/api" +:+ url r)) w = app env uuid r w.
Proof.
  intros Hs Hr Hh. pose proof (blockBrowserNav_under_api r Hh) as Hb.
  assert (Hl : layers env uuid (withUrl r ("/api" +:+ url r)) w
               = layers env uuid r w).
  { destruct (Express.decodeURIComponent (url r)) as [e|us] eqn:Hd.
    { rewrite (layers_malformed env uuid r e w Hd).
      apply layers_malformed. cbn [url withUrl].
      now rewrite (decode_prefix "/api" (url r) eq_refl), Hd. }
    assert (Hdr : decodes (url r)) by now exists us.
    assert (Hda : decodes (url (withUrl r ("/api" +:+ url r))))
      by now apply (decodes_prefix "/api").
    destruct (blockBrowserNav (expressReq r (url r) emptyObject)) as [res|]
      eqn:Hn.
    - rewrite (layers_blocked env uuid r res w Hdr Hn).
      now apply layers_blocked.
    - destruct (route env uuid r (url r)) as [handler|] eqn:Hroute;
        [|congruence].
      rewrite (layers_at_root env uuid r handler w Hdr Hn Hroute).
      apply (layers_under_api env uuid (withUrl r ("/api" +:+ url r))
               (url r)).
      + exact Hda.
      + exact Hb.
      + apply route_under_api_prefix.
      + now apply mountApi_prefix.
      + exact Hn.
      + exact Hroute. }
  unfold app. now rewrite Hl.
Qed.

Lemma mounts_agree_witness :
  app secretEnv generatedId
    (withUrl (createRequest apiKeyHeaders) "/api/sessions") oneRow
  = app secretEnv generatedId (createRequest apiKeyHeaders) oneRow.
Proof.
  apply (mounts_agree secretEnv generatedId (createRequest apiKeyHeaders)
           oneRow).
  - reflexivity.
  - discriminate.
  - discriminate.
Defined.

(** ** The handlers, step by step *)

Lemma invalidDistance_valid (d : value) :
  invalidDistance (numeric d) = negb (validDistance d).
Proof.
  unfold invalidDistance, validDistance, JSNumber.leb, JSNumber.gtb,
    SFleb, SFltb.
  destruct (numeric d) as [s|s| |s m e]; try reflexivity; now destruct s.
Qed.

Lemma numeric_ok (d : value) (x : JSNumber.number) :
  toNumber d = Ok x -> numeric d = x.
Proof. intros H. unfold numeric. now rewrite H. Qed.

Lemma normalized_ok (type : value) (t : string) :
  normalizeType type = Ok t -> normalized type = t.
Proof. intros H. unfold normalized. now rewrite H. Qed.

Lemma validDistance_throw (d : value) (e : string) :
  toNumber d = Throw e -> validDistance d = false.
Proof. intros H. unfold validDistance, numeric. now rewrite H. Qed.

Lemma validType_throw (type : value) (e : string) :
  normalizeType type = Throw e -> isValidType (normalized type) = false.
Proof. intros H. unfold normalized. now rewrite H. Qed.

Lemma requireEditAuth_same_headers (env : Env) (r r' : Request)
    (p p' : string) (ps ps' : value) :
  headers r = headers r' ->
  requireEditAuth env (expressReq r p ps)
  = requireEditAuth env (expressReq r' p' ps').
Proof.
  intros H. unfold requireEditAuth, editToken, expressReq. simpl.
  now rewrite H.
Qed.

(** The creation handler as a cascade of checks. *)
Lemma createSession_steps (uuid : string) (req : Req) (w : World) :
  let b := orElse (reqBody req) emptyObject in
  let distance := getProp b "distance" in
  let date := getProp b "date" in
  let id := getProp b "id" in
  let type := getProp b "type" in
  let newId := orElse id (VStr uuid) in
  createSession uuid req w =
  match normalizeType type with
  | Throw e => (Ok (json 500 (errorBody e)), w)
  | Ok t =>
      if negb (truthy date) then (Ok (json 400 (errorBody "date requise")), w)
      else if isUndefined distance || isNull distance
              || strictEqStr distance EmptyString
      then (Ok (json 400 (errorBody "distance requise")), w)
      else
        match toNumber distance with
        | Throw e => (Ok (json 500 (errorBody e)), w)
        | Ok distNum =>
            if negb (validDistance distance)
            then (Ok (json 400 (errorBody "distance invalide")), w)
            else if negb (isValidType t)
            then (Ok (json 400 (errorBody "type invalide (swim|run)")), w)
            else
              match poolQuery insertStatement
                      [newId; date; VNum distNum; VStr t] w with
              | (Ok _, w') =>
                  (Ok (json 201
                         (VObj [("id", newId); ("date", date);
                                ("distance", VNum distNum);
                                ("type", VStr t)])),
                   w')
              | (Throw e, w') => (Ok (json 500 (errorBody e)), w')
              end
        end
  end.
Proof.
  intros b distance date id type newId.
  unfold createSession, tryCatch.
  fold b. fold distance date id type. fold newId.
  unfold bind at 1. unfold lift at 1.
  destruct (normalizeType type) as [e|t]; [reflexivity|].
  destruct (negb (truthy date)); [reflexivity|].
  destruct (isUndefined distance || isNull distance
            || strictEqStr distance EmptyString); [reflexivity|].
  unfold bind at 1. unfold lift at 1.
  destruct (toNumber distance) as [e|distNum] eqn:Hn; [reflexivity|].
  rewrite <- (invalidDistance_valid distance), (numeric_ok _ _ Hn).
  destruct (invalidDistance distNum); [reflexivity|].
  destruct (negb (isValidType t)); [reflexivity|].
  unfold bind, serverError, ret. fold insertStatement.
  now destruct (poolQuery insertStatement _ w) as [[e|v] w'].
Qed.

(** The update handler as a cascade of checks. *)
Lemma updateSession_steps (req : Req) (w : World) :
  let id := getProp (params req) "id" in
  let b := orElse (reqBody req) emptyObject in
  let distance := getProp b "distance" in
  let date := getProp b "date" in
  let type := getProp b "type" in
  updateSession req w =
  if isUndefined distance && negb (truthy date) && isUndefined type
  then (Ok (json 400 (errorBody noDataMessage)), w)
  else
    match collected date distance type with
    | Throw e => (Ok (json 500 (errorBody e)), w)
    | Ok (inl early) => (Ok early, w)
    | Ok (inr (fields, ps)) =>
        match poolQuery
                ("UPDATE sessions SET " +:+ JSString.join ", " fields
                 +:+ " WHERE id = ?") (ps ++ [id]) w with
        | (Ok result, w') =>
            if strictEqNum (getProp result "affectedRows") JSNumber.zero
            then (Ok (json 404 (errorBody "not found")), w')
            else (Ok (json 200 (VObj [("id", id); ("date", date);
                                      ("distance", distance);
                                      ("type", type)])), w')
        | (Throw e, w') => (Ok (json 500 (errorBody e)), w')
        end
    end.
Proof.
  intros id b distance date type.
  unfold updateSession, tryCatch.
  fold id. fold b. fold distance date type. fold (collected date distance type).
  destruct (isUndefined distance && negb (truthy date) && isUndefined type);
    [reflexivity|].
  unfold bind at 1. unfold lift at 1.
  destruct (collected date distance type) as [e|[early|[fields ps]]];
    [reflexivity|reflexivity|].
  unfold bind, serverError, ret.
  destruct (poolQuery _ _ w) as [[e|v] w']; [reflexivity|].
  now destruct (strictEqNum _ _).
Qed.

(** What the update handler collects: the date, then the distance,
    then the type; the first conversion that throws or the first
    check that fails ends it. *)
Lemma collected_steps (date distance type : value) :
  collected date distance type =
  if isUndefined distance then
    if isUndefined type
    then Ok (inr (updateFields date distance type,
                  updateValues date distance type))
    else
      match normalizeType type with
      | Throw e => Throw e
      | Ok t =>
          if isValidType t
          then Ok (inr (updateFields date distance type,
                        updateValues date distance type))
          else Ok (inl (json 400 (errorBody "type invalide (swim|run)")))
      end
  else
    match toNumber distance with
    | Throw e => Throw e
    | Ok x =>
        if validDistance distance then
          if isUndefined type
          then Ok (inr (updateFields date distance type,
                        updateValues date distance type))
          else
            match normalizeType type with
            | Throw e => Throw e
            | Ok t =>
                if isValidType t
                then Ok (inr (updateFields date distance type,
                              updateValues date distance type))
                else Ok (inl (json 400
                                (errorBody "type invalide (swim|run)")))
            end
        else Ok (inl (json 400 (errorBody "distance invalide")))
    end.
Proof.
  unfold collected, thenPush, pushDate, pushDistance, pushType,
    updateFields, updateValues.
  rewrite <- (negb_involutive (validDistance distance)),
    <- invalidDistance_valid.
  unfold numeric, normalized.
  destruct (truthy date), (isUndefined distance), (isUndefined type);
    cbn [negb andThen fst snd]; try reflexivity;
    repeat match goal with
      | |- context [toNumber distance] =>
          destruct (toNumber distance) as [?|x];
          cbn [andThen]; try reflexivity
      | |- context [invalidDistance ?x] =>
          destruct (invalidDistance x);
          cbn [negb andThen]; try reflexivity
      | |- context [normalizeType type] =>
          destruct (normalizeType type) as [?|t];
          cbn [andThen]; try reflexivity
      | |- context [isValidType ?t] =>
          destruct (isValidType t);
          cbn [negb andThen]; try reflexivity
      end.
Qed.

(** ** Validation of the distance *)

Lemma missing_distance_invalid (d : value) :
  isUndefined d || isNull d || strictEqStr d EmptyString = true ->
  validDistance d = false.
Proof.
  destruct d as [| |b|n|s|l|l]; simpl; try discriminate; try reflexivity.
  intros H. apply eqb_true in H. now subst s.
Qed.

Lemma validDistance_spec (d : value) :
  validDistance d = true <->
  exists x, toNumber d = Ok x
    /\ JSNumber.isFinite x = true /\ JSNumber.gtb x JSNumber.zero = true.
Proof.
  unfold validDistance, numeric. destruct (toNumber d) as [e|x].
  - split; [discriminate|]. intros (x & H & _). discriminate H.
  - rewrite andb_true_iff. split.
    + intros H. now exists x.
    + intros (y & [= <-] & H). exact H.
Qed.

(** C3, as amended: on POST /sessions and on PUT /sessions/:id the
    distance is accepted exactly when [Number(distance)] yields a
    number that is finite and strictly greater than zero.  A distance
    whose Number value is anything else (zero, a negative number,
    NaN, an infinity, a string that is not numeric) is answered 400
    with the world unchanged: always on PUT ([distance invalide]),
    and on POST ([distance requise] or [distance invalide] once the
    date is there) provided [normalizeType(type)], which POST
    evaluates first, returns.  When that call throws, POST answers
    500 whatever the distance; and a distance whose own conversion
    throws is answered 500, not 400, on PUT and (once the date is
    there) on POST.  In each of these cases nothing is sent. *)
Theorem distance_validation (uuid : string) (req : Req) (w : World) :
  let b := orElse (reqBody req) emptyObject in
  let distance := getProp b "distance" in
  let type := getProp b "type" in
  let required := Ok (json 400 (errorBody "distance requise")) in
  let invalid := Ok (json 400 (errorBody "distance invalide")) in
  (validDistance distance = true <->
     exists x, toNumber distance = Ok x
       /\ JSNumber.isFinite x = true
       /\ JSNumber.gtb x JSNumber.zero = true)
  /\ (forall x t, toNumber distance = Ok x -> normalizeType type = Ok t ->
      (validDistance distance = false ->
       exists msg,
         createSession uuid req w = (Ok (json 400 (errorBody msg)), w))
      /\ (truthy (getProp b "date") = true ->
          (validDistance distance = false <->
           fst (createSession uuid req w) = required
           \/ fst (createSession uuid req w) = invalid)))
  /\ (forall e, normalizeType type = Throw e ->
      createSession uuid req w = (Ok (json 500 (errorBody e)), w))
  /\ (forall e t, toNumber distance = Throw e -> normalizeType type = Ok t ->
      truthy (getProp b "date") = true ->
      createSession uuid req w = (Ok (json 500 (errorBody e)), w))
  /\ (isUndefined distance = false ->
      (forall x, toNumber distance = Ok x ->
         (validDistance distance = false <->
          fst (updateSession req w) = invalid)
         /\ (validDistance distance = false -> snd (updateSession req w) = w))
      /\ (forall e, toNumber distance = Throw e ->
          updateSession req w = (Ok (json 500 (errorBody e)), w)))
  /\ Forall (fun d => validDistance d = false) refusedDistances
  /\ Forall (fun d => validDistance d = true) acceptedDistances.
Proof.
  intros b distance type required invalid.
  split; [apply validDistance_spec|].
  split; [|split; [|split; [|split; [|split]]]].
  - intros x t Hx Ht. split.
    + intros Hv. rewrite createSession_steps. fold b. fold distance type.
      rewrite Ht, Hx, Hv. cbn [negb].
      destruct (negb (truthy (getProp b "date"))); [eauto|].
      destruct (isUndefined distance || isNull distance
                || strictEqStr distance EmptyString); eauto.
    + intros Hd. rewrite createSession_steps. fold b. fold distance type.
      rewrite Ht, Hx, Hd. cbn [negb].
      destruct (isUndefined distance || isNull distance
                || strictEqStr distance EmptyString) eqn:Hm.
      * apply missing_distance_invalid in Hm. cbn [fst]. tauto.
      * destruct (validDistance distance) eqn:Hv; cbn [negb].
        -- split; [discriminate|].
           destruct (negb (isValidType t)); cbn [fst].
           ++ intros [H|H]; discriminate.
           ++ destruct (poolQuery _ _ w) as [[e|v] w']; cbn [fst];
                intros [H|H]; discriminate.
        -- cbn [fst]. tauto.
  - intros e Ht. rewrite createSession_steps. fold b. fold type.
    now rewrite Ht.
  - intros e t Hx Ht Hd. rewrite createSession_steps.
    fold b. fold distance type. rewrite Ht, Hx, Hd. cbn [negb].
    destruct (isUndefined distance || isNull distance
              || strictEqStr distance EmptyString) eqn:Hm; [|reflexivity].
    exfalso. destruct distance; try discriminate Hm; discriminate Hx.
  - intros Hu.
    assert (Hnd : isUndefined distance && negb (truthy (getProp b "date"))
                  && isUndefined type = false) by now rewrite Hu.
    split.
    + intros x Hx. rewrite updateSession_steps. fold b. fold distance type.
      rewrite Hnd, collected_steps, Hu, Hx.
      destruct (validDistance distance) eqn:Hv.
      * split; [|discriminate]. split; [discriminate|].
        destruct (isUndefined type).
        -- destruct (poolQuery _ _ w) as [[e|v] w']; cbn [fst];
             [discriminate|].
           destruct (strictEqNum _ _); discriminate.
        -- destruct (normalizeType type) as [e|t]; [discriminate|].
           destruct (isValidType t); [|discriminate].
           destruct (poolQuery _ _ w) as [[e|v] w']; cbn [fst];
             [discriminate|].
           destruct (strictEqNum _ _); discriminate.
      * cbn [fst snd]. tauto.
    + intros e Hx. rewrite updateSession_steps. fold b. fold distance type.
      now rewrite Hnd, collected_steps, Hu, Hx.
  - repeat constructor.
  - repeat constructor.
Qed.

(** C3, as stated, fails: a negative distance sent to POST /sessions
    with a type whose conversion throws is answered 500, not 400. *)
Lemma negative_distance_answered_500 :
  ~ (forall (uuid : string) (req : Req) (w : World),
       validDistance
         (getProp (orElse (reqBody req) emptyObject) "distance") = false ->
       exists msg,
         createSession uuid req w = (Ok (json 400 (errorBody msg)), w)).
Proof.
  intros H.
  destruct (H "u"%string
              (postBody [("date", VStr "2024-01-01");
                         ("distance", VNum (JSNumber.ofZ (-5)));
                         ("type", unconvertible)])
              oneRow eq_refl) as [msg Hm].
  vm_compute in Hm. discriminate Hm.
Qed.

(** ** The update handler *)

Lemma withId_run (env : Env) (r : Request) (p seg id : string)
    (handler : Req -> M Response) (w : World) :
  Express.decodeParam seg = Ok id ->
  authorized env r ->
  withId env r p seg handler w
  = handler (expressReq r p (VObj [("id", VStr id)])) w.
Proof.
  intros Hd Ha. unfold withId, bind, lift. rewrite Hd.
  apply gated_passed. unfold authorized in Ha.
  now rewrite (requireEditAuth_path _ _ _ (url r) _ emptyObject).
Qed.

Lemma sessionRoute_decodes (u p seg id : string) :
  sessionRoute u p seg -> Express.decodeParam seg = Ok id -> decodes u.
Proof.
  intros [Hs Hp] Hd.
  assert (Hdp : decodes p)
    by exact (matchParam_decodes p seg Hs (decodeParam_decodes seg id Hd)).
  destruct Hp as [->|[_ Hm]]; [exact Hdp|].
  exact (mountApi_decodes u p Hm Hdp).
Qed.

(** Where a PUT to a session goes. *)
Lemma layers_put (env : Env) (uuid : string) (r : Request) (p seg : string)
    (w : World) :
  decodes (url r) ->
  httpMethod r = PUT -> sessionRoute (url r) p seg ->
  layers env uuid r w = withId env r p seg updateSession w.
Proof.
  intros Hd Hm [Hs Hp].
  assert (Hn : httpMethod r <> GET) by congruence.
  assert (Hr : route env uuid r p = Some (withId env r p seg updateSession)).
  { unfold route. now rewrite Hm, Hs. }
  destruct Hp as [->|[Hnone Hmount]].
  - apply layers_at_root;
      [exact Hd|now apply blockBrowserNav_not_get|exact Hr].
  - apply (layers_under_api env uuid r p); auto using blockBrowserNav_not_get.
    unfold route. now rewrite Hm, Hnone.
Qed.

(** Where a DELETE of a session goes. *)
Lemma layers_delete (env : Env) (uuid : string) (r : Request) (p seg : string)
    (w : World) :
  decodes (url r) ->
  httpMethod r = DELETE -> sessionRoute (url r) p seg ->
  layers env uuid r w = withId env r p seg deleteSession w.
Proof.
  intros Hd Hm [Hs Hp].
  assert (Hn : httpMethod r <> GET) by congruence.
  assert (Hr : route env uuid r p = Some (withId env r p seg deleteSession)).
  { unfold route. now rewrite Hm, Hs. }
  destruct Hp as [->|[Hnone Hmount]].
  - apply layers_at_root;
      [exact Hd|now apply blockBrowserNav_not_get|exact Hr].
  - apply (layers_under_api env uuid r p); auto using blockBrowserNav_not_get.
    unfold route. now rewrite Hm, Hnone.
Qed.

(** C4, as amended: an authorized PUT /sessions/:id (at [/] or under
    [/api]) whose body carries a distance whose Number value is not
    finite or not above zero, such as -5, is answered 400
    [distance invalide], for every id and every table, and the world
    is unchanged: no statement is sent, no row is looked up or
    changed.  A distance whose conversion to a number throws fails
    the validation as well, but is answered 500 with the message of
    the error; there too the world is unchanged. *)
Theorem invalid_distance_rejected_before_lookup (env : Env) (uuid : string)
    (r : Request) (p seg id : string) (w : World) :
  httpMethod r = PUT ->
  sessionRoute (url r) p seg ->
  Express.decodeParam seg = Ok id ->
  authorized env r ->
  let distance := getProp (orElse (jsonBody r) emptyObject) "distance" in
  isUndefined distance = false ->
  (forall x, toNumber distance = Ok x -> validDistance distance = false ->
   app env uuid r w = (json 400 (errorBody "distance invalide"), w))
  /\ (forall e, toNumber distance = Throw e ->
      app env uuid r w = (json 500 (errorBody e), w)).
Proof.
  intros Hm Hs Hd Ha distance Hu.
  assert (Hnd : forall date type,
             isUndefined distance && negb (truthy date) && isUndefined type
             = false) by (intros; now rewrite Hu).
  assert (Hrun : forall res,
             updateSession (expressReq r p (VObj [("id", VStr id)])) w
             = (Ok res, w) ->
             app env uuid r w = (res, w)).
  { intros res H. apply app_of_layers.
    rewrite (layers_put env uuid r p seg w
               (sessionRoute_decodes _ _ _ _ Hs Hd) Hm Hs).
    now rewrite (withId_run env r p seg id _ w Hd Ha). }
  split.
  - intros x Hx Hv. apply Hrun. rewrite updateSession_steps.
    cbn [reqBody expressReq]. fold distance.
    now rewrite Hnd, collected_steps, Hu, Hx, Hv.
  - intros e Hx. apply Hrun. rewrite updateSession_steps.
    cbn [reqBody expressReq]. fold distance.
    now rewrite Hnd, collected_steps, Hu, Hx.
Qed.

Lemma invalid_distance_rejected_before_lookup_witness :
  app secretEnv "u" (putMinusFive "/api/sessions/a1") oneRow
    = (json 400 (errorBody "distance invalide"), oneRow)
  /\ app secretEnv "u" (putMinusFive "/sessions/none") oneRow
     = (json 400 (errorBody "distance invalide"), oneRow).
Proof.
  split.
  - apply (invalid_distance_rejected_before_lookup secretEnv "u"
             (putMinusFive "/api/sessions/a1") "/sessions/a1" "a1" "a1" oneRow)
      with (x := JSNumber.ofZ (-5)).
    + reflexivity.
    + split; [reflexivity|]. right. split; reflexivity.
    + reflexivity.
    + reflexivity.
    + reflexivity.
    + reflexivity.
    + reflexivity.
  - apply (invalid_distance_rejected_before_lookup secretEnv "u"
             (putMinusFive "/sessions/none") "/sessions/none" "none" "none"
             oneRow)
      with (x := JSNumber.ofZ (-5)).
    + reflexivity.
    + split; [reflexivity|]. now left.
    + reflexivity.
    + reflexivity.
    + reflexivity.
    + reflexivity.
    + reflexivity.
Defined.

(** C4, as stated, fails: a distance whose conversion throws is no
    finite number above zero, and an authorized PUT that carries it
    is answered 500, not 400. *)
Lemma unconvertible_distance_answered_500 :
  ~ (forall (env : Env) (uuid : string) (r : Request) (p seg id : string)
       (w : World),
       httpMethod r = PUT ->
       sessionRoute (url r) p seg ->
       Express.decodeParam seg = Ok id ->
       authorized env r ->
       isUndefined (getProp (orElse (jsonBody r) emptyObject) "distance")
       = false ->
       validDistance (getProp (orElse (jsonBody r) emptyObject) "distance")
       = false ->
       app env uuid r w = (json 400 (errorBody "distance invalide"), w)).
Proof.
  intros H.
  assert (Hs : sessionRoute (url (putUnconvertible "/sessions/a1"))
                 "/sessions/a1" "a1") by (split; [reflexivity|now left]).
  specialize (H secretEnv "u"%string (putUnconvertible "/sessions/a1")
                "/sessions/a1"%string "a1"%string "a1"%string oneRow
                eq_refl Hs eq_refl eq_refl eq_refl eq_refl).
  vm_compute in H. discriminate H.
Qed.

(** *** The engine on an UPDATE without the date column *)









(** ** The round trip *)

(** *** The engine on the other statements *)

Lemma execute_insert (i d t : value) (x : JSNumber.number)
    (rows : list MySQL.Row) :
  MySQL.execute insertStatement [i; d; VNum x; t] rows =
  if List.existsb (MySQL.hasId (MySQL.sqlText i)) rows
  then Throw "Duplicate entry for key 'PRIMARY'"
  else Ok (MySQL.header 1,
           rows ++ [{| MySQL.row_id := MySQL.sqlText i;
                       MySQL.row_date := MySQL.sqlText d;
                       MySQL.row_distance := x;
                       MySQL.row_type := MySQL.sqlText t |}]).
Proof. reflexivity. Qed.

Lemma execute_select_all (rows : list MySQL.Row) :
  MySQL.execute (MySQL.selectSessions +:+ " ORDER BY date ASC") [] rows =
  Ok (VArr (List.map MySQL.rowJson (MySQL.orderByDate rows)), rows).
Proof. reflexivity. Qed.

Lemma execute_select_type (t : value) (rows : list MySQL.Row) :
  MySQL.execute
    ((MySQL.selectSessions +:+ " WHERE type = ?") +:+ " ORDER BY date ASC")
    [t] rows =
  Ok (VArr (List.map MySQL.rowJson
              (MySQL.orderByDate
                 (List.filter
                    (fun r => String.eqb (MySQL.row_type r) (MySQL.sqlText t))
                    rows))),
      rows).
Proof. reflexivity. Qed.

Lemma execute_delete (i : value) (rows : list MySQL.Row) :
  MySQL.execute "DELETE FROM sessions WHERE id = ?" [i] rows =
  Ok (MySQL.header (MySQL.count (MySQL.hasId (MySQL.sqlText i)) rows),
      List.filter (fun r => negb (MySQL.hasId (MySQL.sqlText i) r)) rows).
Proof. reflexivity. Qed.

(** ORDER BY keeps the rows. *)
Lemma insertByDate_In (x r : MySQL.Row) (rows : list MySQL.Row) :
  In x (MySQL.insertByDate r rows) <-> x = r \/ In x rows.
Proof.
  induction rows as [|r' rows IH]; simpl.
  - intuition congruence.
  - destruct (String.leb _ _); simpl; [intuition congruence|].
    rewrite IH. intuition congruence.
Qed.

Lemma orderByDate_In (x : MySQL.Row) (rows : list MySQL.Row) :
  In x (MySQL.orderByDate rows) <-> In x rows.
Proof.
  induction rows as [|r rows IH]; simpl; [tauto|].
  rewrite insertByDate_In, IH. intuition congruence.
Qed.

Lemma filter_none (i : string) (rows : list MySQL.Row) :
  List.existsb (MySQL.hasId i) rows = false ->
  List.filter (MySQL.hasId i) rows = [].
Proof.
  induction rows as [|r rows IH]; simpl; [reflexivity|].
  destruct (MySQL.hasId i r); simpl; [discriminate|exact IH].
Qed.

(** *** Paths that carry a generated id *)

Lemma hexOrDash_plain (c : ascii) :
  isHexOrDash c = true -> Ascii.eqb c "/" = false /\ Ascii.eqb c "%" = false.
Proof.
  destruct c as [[] [] [] [] [] [] [] []]; vm_compute; intros H;
    try discriminate H; split; reflexivity.
Qed.

Lemma prefix_char (a c : ascii) (s : string) :
  String.prefix (String a EmptyString) (String c s) = Ascii.eqb a c.
Proof.
  cbn [String.prefix]. destruct (ascii_dec a c) as [->|Hn].
  - rewrite Ascii.eqb_refl. now destruct s.
  - symmetry. now apply Ascii.eqb_neq.
Qed.

Lemma plain_no_slash (s : string) :
  allChars isHexOrDash s = true -> JSString.includes s "/" = false.
Proof.
  induction s as [|c s IH]; [reflexivity|].
  intros H. cbn [allChars] in H. apply andb_true_iff in H.
  destruct H as [Hc Hs].
  apply hexOrDash_plain in Hc. destruct Hc as [Hc _].
  change (JSString.includes (String c s) "/")
    with (String.prefix "/" (String c s) || JSString.includes s "/").
  rewrite prefix_char, (IH Hs), Ascii.eqb_sym, Hc. reflexivity.
Qed.

Lemma plain_dropTrailingSlash (s : string) :
  allChars isHexOrDash s = true -> Express.dropTrailingSlash s = s.
Proof.
  induction s as [|c s IH]; simpl; [reflexivity|].
  intros H. apply andb_true_iff in H. destruct H as [Hc Hs].
  apply hexOrDash_plain in Hc. destruct Hc as [Hc _]. rewrite Hc.
  destruct s; [reflexivity|]. now rewrite (IH Hs).
Qed.

Lemma plain_noPercent (s : string) :
  allChars isHexOrDash s = true -> noPercent s = true.
Proof.
  unfold noPercent. induction s as [|c s IH]; [reflexivity|].
  cbn [allChars]. intros H. apply andb_true_iff in H. destruct H as [Hc Hs].
  apply hexOrDash_plain in Hc. destruct Hc as [_ Hc].
  now rewrite Hc, (IH Hs).
Qed.

Lemma plain_decode (s : string) :
  allChars isHexOrDash s = true -> Express.decodeParam s = Ok s.
Proof. intros H. now apply decodeParam_plain, plain_noPercent. Qed.

Lemma uuid_route (id : string) :
  isUuid id = true ->
  sessionRoute ("/sessions/" +:+ id) ("/sessions/" +:+ id) id
  /\ Express.decodeParam id = Ok id.
Proof.
  unfold isUuid. intros H. apply andb_true_iff in H. destruct H as [Hl Hc].
  split; [split; [|now left]|now apply plain_decode].
  change (Express.matchParam "/sessions/" ("/sessions/" +:+ id))
    with (let seg := Express.dropTrailingSlash id in
          if JSString.nonEmpty seg && negb (JSString.includes seg "/")
          then Some seg else None).
  cbv zeta. rewrite (plain_dropTrailingSlash id Hc), (plain_no_slash id Hc).
  destruct id; [discriminate Hl|reflexivity].
Qed.

Lemma create_step (env : Env) (uuid : string) (hs : gmap string string)
    (w : World) :
  authorized env (createRequest hs) ->
  List.existsb (MySQL.hasId uuid) (table w) = false ->
  exists sent,
    app env uuid (createRequest hs) w
    = (json 201 (swimRecord uuid),
       {| table := table w ++ [swimRow uuid]; issued := sent |}).
Proof.
  intros Ha Hf. eexists. apply app_of_layers.
  rewrite (layers_at_root env uuid (createRequest hs)
             (gated env (expressReq (createRequest hs) "/sessions" emptyObject)
                (createSession uuid
                   (expressReq (createRequest hs) "/sessions" emptyObject))));
    [|now apply decodes_plain|now apply blockBrowserNav_not_get|reflexivity].
  rewrite gated_passed by exact Ha.
  rewrite createSession_steps. cbv zeta.
  change (reqBody (expressReq (createRequest hs) "/sessions" emptyObject))
    with swimBody.
  change (getProp (orElse swimBody emptyObject) "date") with (VStr "2024-01-01").
  change (getProp (orElse swimBody emptyObject) "distance") with (VStr "1000").
  change (getProp (orElse swimBody emptyObject) "id") with VUndefined.
  change (getProp (orElse swimBody emptyObject) "type") with (VStr "Swim ").
  change (normalizeType (VStr "Swim ")) with (Ok "swim").
  change (toNumber (VStr "1000")) with (Ok (JSNumber.ofZ 1000)).
  change (validDistance (VStr "1000")) with true.
  change (orElse VUndefined (VStr uuid)) with (VStr uuid).
  cbn [negb truthy JSString.nonEmpty isUndefined isNull strictEqStr orb
       isValidType].
  change (isValidType "swim") with true. cbn [negb].
  unfold poolQuery. rewrite execute_insert.
  change (MySQL.sqlText (VStr uuid)) with uuid. rewrite Hf.
  reflexivity.
Qed.

Lemma list_route (env : Env) (uuid : string) (hs : gmap string string)
    (q : value) (w : World) :
  noNavigationSignal hs ->
  layers env uuid (listRequest hs q) w
  = listSessions (expressReq (listRequest hs q) "/sessions" emptyObject) w.
Proof.
  intros Hn. apply layers_at_root; [now apply decodes_plain| |reflexivity].
  now apply blockBrowserNav_no_signal.
Qed.

Lemma list_by_type_step (env : Env) (uuid : string) (hs : gmap string string)
    (w : World) :
  noNavigationSignal hs ->
  exists sent,
    app env uuid (listRequest hs (VObj [("type", VStr "swim")])) w
    = (json 200
         (VArr (List.map MySQL.rowJson
                  (MySQL.orderByDate
                     (List.filter
                        (fun r => String.eqb (MySQL.row_type r) "swim")
                        (table w))))),
       {| table := table w; issued := sent |}).
Proof.
  intros Hn. eexists. apply app_of_layers. rewrite list_route by exact Hn.
  unfold listSessions, tryCatch, bind, poolQuery.
  change (query (expressReq (listRequest hs (VObj [("type", VStr "swim")]))
                   "/sessions" emptyObject))
    with (VObj [("type", VStr "swim")]).
  change (getPropOpt (VObj [("type", VStr "swim")]) "type") with (VStr "swim").
  change (truthy (VStr "swim")) with true. cbv iota.
  change (normalizeType (VStr "swim")) with (Ok "swim").
  cbn [andThen lift].
  change (present (Some "swim")) with true.
  change (isValidType (orEmpty (Some "swim"))) with true.
  cbn [negb andb orEmpty]. rewrite execute_select_type. reflexivity.
Qed.

Lemma list_all_step (env : Env) (uuid : string) (hs : gmap string string)
    (w : World) :
  noNavigationSignal hs ->
  exists sent,
    app env uuid (listRequest hs emptyObject) w
    = (json 200 (VArr (List.map MySQL.rowJson (MySQL.orderByDate (table w)))),
       {| table := table w; issued := sent |}).
Proof.
  intros Hn. eexists. apply app_of_layers. rewrite list_route by exact Hn.
  unfold listSessions, tryCatch, bind, poolQuery.
  change (query (expressReq (listRequest hs emptyObject)
                   "/sessions" emptyObject))
    with emptyObject.
  change (getPropOpt emptyObject "type") with VUndefined.
  change (truthy VUndefined) with false. cbv iota. cbn [lift].
  change (present None) with false.
  cbn [negb andb]. rewrite execute_select_all. reflexivity.
Qed.

Lemma delete_step (env : Env) (uuid id : string) (hs : gmap string string)
    (w : World) :
  authorized env (deleteRequest hs id) ->
  isUuid id = true ->
  MySQL.count (MySQL.hasId id) (table w) = 1 ->
  exists sent,
    app env uuid (deleteRequest hs id) w
    = (noContent,
       {| table := List.filter (fun r => negb (MySQL.hasId id r)) (table w);
          issued := sent |}).
Proof.
  intros Ha Hu Hc. eexists. apply app_of_layers.
  destruct (uuid_route id Hu) as [Hr Hd].
  rewrite (layers_delete env uuid (deleteRequest hs id) _ id w
             (sessionRoute_decodes _ _ _ _ Hr Hd) eq_refl Hr).
  rewrite (withId_run env _ _ id id _ w Hd Ha).
  unfold deleteSession, tryCatch, bind, poolQuery.
  change (getProp (params (expressReq (deleteRequest hs id)
                             ("/sessions/" +:+ id) (VObj [("id", VStr id)])))
            "id") with (VStr id).
  rewrite execute_delete.
  change (MySQL.sqlText (VStr id)) with id. rewrite Hc.
  reflexivity.
Qed.

Lemma rowJson_id (r : MySQL.Row) (id : string) :
  MySQL.rowJson r = swimRecord id -> MySQL.hasId id r = true.
Proof.
  unfold MySQL.rowJson, swimRecord, MySQL.hasId. intros H.
  injection H as H _ _ _. subst id. apply String.eqb_refl.
Qed.

(** C2: with a valid token, POST /sessions with the body [{date:
    "2024-01-01", distance: "1000", type: "Swim "}] is answered 201
    with [{id, date: "2024-01-01", distance: 1000, type: "swim"}],
    [id] being the generated identifier, fresh in the table; a GET
    /sessions?type=swim that follows lists that record; an
    authorized DELETE of that id is answered 204 with an empty body;
    and a GET /sessions afterwards lists neither that record nor any
    record of that id. *)
Theorem session_round_trip (env : Env) (hw hr : gmap string string)
    (id u2 u3 u4 : string) (w : World) :
  authorized env (createRequest hw) ->
  noNavigationSignal hr ->
  isUuid id = true ->
  List.existsb (MySQL.hasId id) (table w) = false ->
  exists w1 w2 w3 w4 rows2 rows4,
    app env id (createRequest hw) w = (json 201 (swimRecord id), w1)
    /\ app env u2 (listRequest hr (VObj [("type", VStr "swim")])) w1
       = (json 200 (VArr rows2), w2)
    /\ In (swimRecord id) rows2
    /\ app env u3 (deleteRequest hw id) w2 = (noContent, w3)
    /\ app env u4 (listRequest hr emptyObject) w3
       = (json 200 (VArr rows4), w4)
    /\ ~ In (swimRecord id) rows4
    /\ (forall v, In v rows4 -> getProp v "id" <> VStr id).
Proof.
  intros Ha Hn Hu Hf.
  destruct (create_step env id hw w Ha Hf) as [s1 H1].
  destruct (list_by_type_step env u2 hr
              {| table := table w ++ [swimRow id]; issued := s1 |} Hn)
    as [s2 H2].
  assert (Hd : authorized env (deleteRequest hw id)).
  { unfold authorized in *. rewrite <- Ha.
    now apply requireEditAuth_same_headers. }
  assert (Hc : MySQL.count (MySQL.hasId id) (table w ++ [swimRow id]) = 1).
  { unfold MySQL.count. rewrite List.filter_app, (filter_none id _ Hf).
    simpl. unfold MySQL.hasId at 1. simpl. now rewrite String.eqb_refl. }
  destruct (delete_step env u3 id hw
              {| table := table w ++ [swimRow id]; issued := s2 |} Hd Hu Hc)
    as [s3 H3].
  destruct (list_all_step env u4 hr
              {| table := List.filter (fun r => negb (MySQL.hasId id r))
                            (table w ++ [swimRow id]);
                 issued := s3 |} Hn)
    as [s4 H4].
  simpl table in *.
  do 6 eexists.
  split; [exact H1|]. split; [exact H2|]. split.
  { change (swimRecord id) with (MySQL.rowJson (swimRow id)).
    apply List.in_map. apply orderByDate_In. apply List.filter_In.
    split; [|reflexivity]. apply List.in_or_app. right. now left. }
  split; [exact H3|]. split; [exact H4|].
  assert (Hgone : forall r,
            In r (MySQL.orderByDate
                    (List.filter (fun r => negb (MySQL.hasId id r))
                       (table w ++ [swimRow id]))) ->
            MySQL.hasId id r = false).
  { intros r Hr. apply orderByDate_In, List.filter_In in Hr.
    destruct Hr as [_ Hr]. now apply negb_true_iff. }
  split.
  - intros Hin. apply List.in_map_iff in Hin.
    destruct Hin as (r & Hj & Hr). apply rowJson_id in Hj.
    rewrite (Hgone r Hr) in Hj. discriminate.
  - intros v Hin Hv. apply List.in_map_iff in Hin.
    destruct Hin as (r & <- & Hr). simpl in Hv.
    injection Hv as Hv. specialize (Hgone r Hr). unfold MySQL.hasId in Hgone.
    rewrite Hv, String.eqb_refl in Hgone. discriminate.
Qed.

Lemma session_round_trip_witness :
  exists w1 w2 w3 w4 rows2 rows4,
    app secretEnv generatedId (createRequest apiKeyHeaders) oneRow
      = (json 201 (swimRecord generatedId), w1)
    /\ app secretEnv "u2" (listRequest ∅ (VObj [("type", VStr "swim")])) w1
       = (json 200 (VArr rows2), w2)
    /\ In (swimRecord generatedId) rows2
    /\ app secretEnv "u3" (deleteRequest apiKeyHeaders generatedId) w2
       = (noContent, w3)
    /\ app secretEnv "u4" (listRequest ∅ emptyObject) w3
       = (json 200 (VArr rows4), w4)
    /\ ~ In (swimRecord generatedId) rows4
    /\ (forall v, In v rows4 -> getProp v "id" <> VStr generatedId).
Proof.
  apply (session_round_trip secretEnv apiKeyHeaders ∅ generatedId
           "u2" "u3" "u4" oneRow); reflexivity.
Defined.

(** ** Deleting a session that does not exist *)

Lemma filter_keeps_all (i : string) (rows : list MySQL.Row) :
  List.existsb (MySQL.hasId i) rows = false ->
  List.filter (fun r => negb (MySQL.hasId i r)) rows = rows.
Proof.
  induction rows as [|r rows IH]; simpl; [reflexivity|].
  destruct (MySQL.hasId i r); simpl; [discriminate|].
  intros H. now rewrite IH.
Qed.

(** X2: an authorized DELETE /sessions/:id (at [/] or under [/api])
    for an id no row has is answered 404 [not found], and the table
    is unchanged. *)
Theorem delete_missing_session (env : Env) (uuid : string) (r : Request)
    (p seg id : string) (w : World) :
  httpMethod r = DELETE ->
  sessionRoute (url r) p seg ->
  Express.decodeParam seg = Ok id ->
  authorized env r ->
  List.existsb (MySQL.hasId id) (table w) = false ->
  fst (app env uuid r w) = json 404 (errorBody "not found")
  /\ table (snd (app env uuid r w)) = table w.
Proof.
  intros Hm Hs Hd Ha Hf.
  assert (H : exists sent,
            app env uuid r w
            = (json 404 (errorBody "not found"),
               {| table := table w; issued := sent |})).
  { eexists. apply app_of_layers.
    rewrite (layers_delete env uuid r p seg w
               (sessionRoute_decodes _ _ _ _ Hs Hd) Hm Hs).
    rewrite (withId_run env r p seg id _ w Hd Ha).
    unfold deleteSession, tryCatch, bind, poolQuery.
    change (getProp (params (expressReq r p (VObj [("id", VStr id)]))) "id")
      with (VStr id).
    rewrite execute_delete.
    change (MySQL.sqlText (VStr id)) with id.
    unfold MySQL.count. rewrite (filter_none id _ Hf).
    rewrite (filter_keeps_all id _ Hf). reflexivity. }
  destruct H as [sent ->]. split; reflexivity.
Qed.

Lemma delete_missing_session_witness :
  fst (app secretEnv "u" (deleteRequest apiKeyHeaders generatedId) oneRow)
    = json 404 (errorBody "not found")
  /\ table (snd (app secretEnv "u" (deleteRequest apiKeyHeaders generatedId)
                   oneRow))
     = table oneRow.
Proof.
  apply (delete_missing_session secretEnv "u"
           (deleteRequest apiKeyHeaders generatedId)
           ("/sessions/" +:+ generatedId) generatedId generatedId oneRow).
  - reflexivity.
  - split; [reflexivity|now left].
  - reflexivity.
  - reflexivity.
  - reflexivity.
Defined.

(** * The application as a whole *)

(** ** The UPDATE the handler sends *)

Lemma collected_updatable (date distance type : value) :
  isUndefined distance && negb (truthy date) && isUndefined type = false ->
  (updatable date distance type = false
   /\ ((exists e, collected date distance type = Throw e)
       \/ exists msg,
            collected date distance type = Ok (inl (json 400 (errorBody msg)))))
  \/ (collected date distance type
      = Ok (inr (updateFields date distance type,
                 updateValues date distance type))
      /\ updatable date distance type = true).
Proof.
  intros Hn. rewrite collected_steps. unfold updatable. rewrite Hn.
  cbn [negb andb].
  assert (Hty : forall t, normalizeType type = Ok t ->
                          isValidType (normalized type) = isValidType t)
    by (intros t H; now rewrite (normalized_ok _ _ H)).
  destruct (isUndefined distance) eqn:Hd; cbn [orb andb].
  - destruct (isUndefined type) eqn:Ht; cbn [orb]; [now right|].
    destruct (normalizeType type) as [e|t] eqn:Hy.
    + left. rewrite (validType_throw _ _ Hy). eauto.
    + rewrite (Hty t eq_refl). destruct (isValidType t); [now right|].
      left. eauto.
  - destruct (toNumber distance) as [e|x] eqn:Hx.
    + left. rewrite (validDistance_throw _ _ Hx). eauto.
    + destruct (validDistance distance); cbn [andb]; [|left; eauto].
      destruct (isUndefined type) eqn:Ht; cbn [orb]; [now right|].
      destruct (normalizeType type) as [e|t] eqn:Hy.
      * left. rewrite (validType_throw _ _ Hy). eauto.
      * rewrite (Hty t eq_refl). destruct (isValidType t); [now right|].
        left. eauto.
Qed.

Lemma assign_update (date distance type : value) (r : MySQL.Row) :
  MySQL.assign (updateColumns date distance type)
    (updateValues date distance type) r
  = Some (applyUpdate date distance type r).
Proof.
  unfold updateColumns, updateValues, applyUpdate.
  destruct r as [i d x t].
  now destruct (truthy date), (isUndefined distance), (isUndefined type).
Qed.

Lemma updateRows_map (cs : list MySQL.Column) (vs : list value) (i : string)
    (f : MySQL.Row -> MySQL.Row) (rows : list MySQL.Row) :
  (forall r, MySQL.assign cs vs r = Some (f r)) ->
  MySQL.updateRows cs vs i rows
  = Some (List.map (fun r => if MySQL.hasId i r then f r else r) rows).
Proof.
  intros Hf. induction rows as [|r rows IH]; [reflexivity|].
  unfold MySQL.updateRows in *. simpl. rewrite IH.
  destruct (MySQL.hasId i r); [now rewrite Hf|reflexivity].
Qed.

Lemma execute_update (date distance type id : value)
    (rows : list MySQL.Row) :
  isUndefined distance && negb (truthy date) && isUndefined type = false ->
  MySQL.execute
    ("UPDATE sessions SET "
     +:+ JSString.join ", " (updateFields date distance type)
     +:+ " WHERE id = ?")
    (updateValues date distance type ++ [id]) rows
  = Ok (MySQL.header (MySQL.count (MySQL.hasId (MySQL.sqlText id)) rows),
        List.map (fun r => if MySQL.hasId (MySQL.sqlText id) r
                            then applyUpdate date distance type r else r)
          rows).
Proof.
  intros Hn.
  pose proof (updateRows_map (updateColumns date distance type)
                (updateValues date distance type) (MySQL.sqlText id)
                (applyUpdate date distance type) rows
                (assign_update date distance type)) as Hu.
  assert (He : MySQL.execute
    ("UPDATE sessions SET "
     +:+ JSString.join ", " (updateFields date distance type)
     +:+ " WHERE id = ?")
    (updateValues date distance type ++ [id]) rows
    = match MySQL.updateRows (updateColumns date distance type)
              (updateValues date distance type) (MySQL.sqlText id) rows with
      | Some rows' =>
          Ok (MySQL.header (MySQL.count (MySQL.hasId (MySQL.sqlText id)) rows),
              rows')
      | None => Throw "Incorrect arguments to mysqld_stmt_execute"
      end).
  { unfold updateFields, updateValues, updateColumns.
    destruct (truthy date), (isUndefined distance), (isUndefined type);
      try discriminate Hn; reflexivity. }
  now rewrite He, Hu.
Qed.

(** What the update handler does, once the body is read. *)
Lemma updateSession_run (req : Req) (w : World) :
  let id := getProp (params req) "id" in
  let b := orElse (reqBody req) emptyObject in
  let distance := getProp b "distance" in
  let date := getProp b "date" in
  let type := getProp b "type" in
  if updatable date distance type then
    updateSession req w
    = (Ok (if strictEqNum
                (VNum (JSNumber.ofZ
                         (MySQL.count (MySQL.hasId (MySQL.sqlText id))
                            (table w))))
                JSNumber.zero
           then json 404 (errorBody "not found")
           else json 200 (VObj [("id", id); ("date", date);
                                ("distance", distance); ("type", type)])),
       {| table :=
            List.map (fun r => if MySQL.hasId (MySQL.sqlText id) r
                               then applyUpdate date distance type r else r)
              (table w);
          issued :=
            issued w
            ++ [("UPDATE sessions SET "
                 +:+ JSString.join ", " (updateFields date distance type)
                 +:+ " WHERE id = ?",
                 updateValues date distance type ++ [id])] |})
  else
    exists code msg,
      (code = 400 \/ code = 500)
      /\ updateSession req w = (Ok (json code (errorBody msg)), w).
Proof.
  intros id b distance date type. rewrite updateSession_steps.
  fold id. fold b. fold distance date type.
  destruct (isUndefined distance && negb (truthy date) && isUndefined type)
    eqn:Hn.
  - unfold updatable. rewrite Hn. simpl. eauto.
  - destruct (collected_updatable date distance type Hn)
      as [(-> & [[e ->]|[msg ->]])|[-> ->]]; [eauto|eauto|].
    unfold poolQuery. rewrite (execute_update _ _ _ _ _ Hn).
    change (getProp (MySQL.header ?n) "affectedRows") with (VNum (JSNumber.ofZ n)).
    cbv beta iota.
    match goal with |- context [strictEqNum ?a ?b] =>
      now destruct (strictEqNum a b) end.
Qed.

(** ** What the handlers come to *)

Lemma health_settles (r : Request) (w : World) :
  httpMethod r = GET -> settles r w (health w).
Proof. intros Hm. now apply Queried. Qed.

(** The list handler as a cascade of checks. *)
Lemma listSessions_steps (req : Req) (w : World) :
  let q := getPropOpt (query req) "type" in
  let all :=
    (Ok (json 200 (VArr (List.map MySQL.rowJson
                           (MySQL.orderByDate (table w))))),
     {| table := table w;
        issued :=
          issued w
          ++ [(MySQL.selectSessions +:+ " ORDER BY date ASC", [])] |}) in
  listSessions req w =
  if truthy q then
    match normalizeType q with
    | Throw e => (Ok (json 500 (errorBody e)), w)
    | Ok t =>
        if JSString.nonEmpty t then
          if isValidType t then
            (Ok (json 200
                   (VArr (List.map MySQL.rowJson
                            (MySQL.orderByDate
                               (List.filter
                                  (fun row =>
                                     String.eqb (MySQL.row_type row) t)
                                  (table w)))))),
             {| table := table w;
                issued :=
                  issued w
                  ++ [((MySQL.selectSessions +:+ " WHERE type = ?")
                       +:+ " ORDER BY date ASC", [VStr t])] |})
          else (Ok (json 400 (errorBody "type invalide (swim|run)")), w)
        else all
    end
  else all.
Proof.
  cbv zeta. unfold listSessions, tryCatch.
  unfold bind at 1. unfold lift at 1.
  destruct (truthy (getPropOpt (query req) "type")).
  - destruct (normalizeType (getPropOpt (query req) "type")) as [e|t];
      [reflexivity|].
    cbn [andThen]. change (present (Some t)) with (JSString.nonEmpty t).
    change (orEmpty (Some t)) with t.
    destruct (JSString.nonEmpty t).
    + destruct (isValidType t); cbn [negb andb]; [|reflexivity].
      unfold bind, poolQuery. now rewrite execute_select_type.
    + cbn [negb andb]. unfold bind, poolQuery.
      now rewrite execute_select_all.
  - change (present None) with false. cbn [negb andb].
    unfold bind, poolQuery. now rewrite execute_select_all.
Qed.

Lemma listSessions_settles (r : Request) (req : Req) (w : World) :
  httpMethod r = GET -> settles r w (listSessions req w).
Proof.
  intros Hm. rewrite listSessions_steps. cbv zeta.
  destruct (truthy _); [|now apply Queried].
  destruct (normalizeType _) as [e|t]; [apply Quiet; simpl; tauto|].
  destruct (JSString.nonEmpty t); [|now apply Queried].
  destruct (isValidType t); [now apply Queried|].
  apply Quiet. simpl. tauto.
Qed.

Lemma createSession_settles (r : Request) (uuid : string) (req : Req)
    (w : World) :
  httpMethod r = POST -> settles r w (createSession uuid req w).
Proof.
  intros Hm. rewrite createSession_steps. cbv zeta.
  destruct (normalizeType _) as [e|t]; [apply Quiet; simpl; tauto|].
  destruct (negb (truthy _)); [apply Quiet; simpl; tauto|].
  destruct (_ || _); [apply Quiet; simpl; tauto|].
  destruct (toNumber _) as [e|x] eqn:Hx; [apply Quiet; simpl; tauto|].
  destruct (validDistance _) eqn:Hv; cbn [negb];
    [|apply Quiet; simpl; tauto].
  destruct (isValidType t) eqn:Ht; cbn [negb];
    [|apply Quiet; simpl; tauto].
  unfold poolQuery. rewrite execute_insert.
  destruct (List.existsb _ (table w)) eqn:Hf.
  - now apply Refused.
  - apply Created; [exact Hm|reflexivity| |exact Hf].
    split; [exact Ht|].
    cbn [MySQL.row_distance].
    now rewrite <- (numeric_ok _ _ Hx), invalidDistance_valid, Hv.
Qed.

Lemma deleteSession_run (req : Req) (w : World) :
  let i := MySQL.sqlText (getProp (params req) "id") in
  deleteSession req w
  = (Ok (if noneAffected (MySQL.count (MySQL.hasId i) (table w))
         then json 404 (errorBody "not found") else noContent),
     {| table := remaining i (table w);
        issued :=
          issued w
          ++ [("DELETE FROM sessions WHERE id = ?",
               [getProp (params req) "id"])] |}).
Proof.
  cbv zeta. unfold deleteSession, tryCatch, bind, poolQuery.
  rewrite execute_delete. unfold noneAffected.
  match goal with |- context [strictEqNum ?a ?b] =>
    now destruct (strictEqNum a b) end.
Qed.

Lemma deleteSession_settles (r : Request) (req : Req) (w : World) :
  httpMethod r = DELETE -> settles r w (deleteSession req w).
Proof. intros Hm. rewrite deleteSession_run. now apply Removed. Qed.

Lemma updateSession_settles (r : Request) (req : Req) (w : World) :
  httpMethod r = PUT -> settles r w (updateSession req w).
Proof.
  intros Hm. pose proof (updateSession_run req w) as H. cbv zeta in H.
  destruct (updatable _ _ _) eqn:Hu.
  - rewrite H. apply Changed; [exact Hm|exact Hu|].
    unfold noneAffected.
    change (getProp (MySQL.header ?n) "affectedRows")
      with (VNum (JSNumber.ofZ n)).
    match goal with |- context [strictEqNum ?a ?b] =>
      now destruct (strictEqNum a b) end.
  - destruct H as (code & msg & [-> | ->] & ->); apply Quiet; simpl; tauto.
Qed.

Lemma gated_settles (env : Env) (r : Request) (p : string) (ps : value)
    (handler : M Response) (w : World) :
  settles r w (handler w) ->
  settles r w (gated env (expressReq r p ps) handler w).
Proof.
  intros H. destruct (requireEditAuth_cases env r p ps) as [Hn|Hn].
  - now rewrite gated_passed.
  - rewrite gated_refused by exact Hn. apply Quiet. simpl. tauto.
Qed.

Lemma withId_settles (env : Env) (r : Request) (p seg : string)
    (handler : Req -> M Response) (w : World) :
  (forall req, settles r w (handler req w)) ->
  settles r w (withId env r p seg handler w).
Proof.
  intros H. unfold withId, bind, lift.
  destruct (Express.decodeParam seg) as [e|id]; [reflexivity|].
  apply gated_settles, H.
Qed.

Lemma route_settles (env : Env) (uuid : string) (r : Request) (p : string)
    (handler : M Response) (w : World) :
  route env uuid r p = Some handler -> settles r w (handler w).
Proof.
  unfold route. destruct (httpMethod r) eqn:Hm.
  - destruct (Express.matchPath "/health" p);
      [intros [= <-]; now apply health_settles|].
    destruct (Express.matchPath "/auth/check" p).
    { intros [= <-]. apply gated_settles, Quiet. simpl. tauto. }
    destruct (Express.matchPath "/sessions" p); [|discriminate].
    intros [= <-]. now apply listSessions_settles.
  - destruct (Express.matchPath "/sessions" p); [|discriminate].
    intros [= <-]. now apply gated_settles, createSession_settles.
  - destruct (Express.matchParam "/sessions/" p); [|discriminate].
    intros [= <-]. apply withId_settles. intros req.
    now apply updateSession_settles.
  - destruct (Express.matchParam "/sessions/" p); [|discriminate].
    intros [= <-]. apply withId_settles. intros req.
    now apply deleteSession_settles.
Qed.

(** The router answers with an [Outcome], or passes the request on
    or throws with nothing done. *)
Lemma api_settles (env : Env) (uuid : string) (r : Request) (p : string)
    (w : World) :
  match api env uuid r p w with
  | (Ok (Some res), w') => Outcome r w res w'
  | (Ok None, w') => w' = w
  | (Throw _, w') => w' = w
  end.
Proof.
  unfold api.
  destruct (blockBrowserNav_cases (expressReq r p emptyObject)) as [-> | ->].
  - destruct (route env uuid r p) as [handler|] eqn:Hr; [|reflexivity].
    pose proof (route_settles env uuid r p handler w Hr) as H.
    unfold bind, ret, settles in *.
    now destruct (handler w) as [[e|res] w'].
  - apply Quiet. simpl. tauto.
Qed.

Lemma layers_settles (env : Env) (uuid : string) (r : Request) (w : World) :
  settles r w (layers env uuid r w).
Proof.
  unfold layers. unfold bind at 1. unfold lift.
  destruct (Express.decodeURIComponent (url r)) as [e|us]; [reflexivity|].
  unfold answering, bind.
  pose proof (api_settles env uuid r (url r) w) as H1.
  destruct (api env uuid r (url r) w) as [[e|[res|]] w1];
    [exact H1|exact H1|]. subst w1.
  assert (Hrest :
    settles r w
      ((if match httpMethod r with GET => true | _ => false end
           && Express.matchRoot (url r)
        then ret {| status := 200; body := Text "API up" |}
        else ret {| status := 404; body := NotFoundPage |}) w)).
  { destruct (_ && _); apply Quiet; simpl; tauto. }
  destruct (Express.mountApi (url r)) as [p|]; [|exact Hrest].
  pose proof (api_settles env uuid r p w) as H2.
  destruct (api env uuid r p w) as [[e|[res|]] w2];
    [exact H2|exact H2|]. subst w2. exact Hrest.
Qed.

(** Every request comes to one of the outcomes. *)
Lemma app_outcome (env : Env) (uuid : string) (r : Request) (w : World) :
  Outcome r w (fst (app env uuid r w)) (snd (app env uuid r w)).
Proof.
  unfold app. pose proof (layers_settles env uuid r w) as H.
  destruct (layers env uuid r w) as [[e|res] w']; simpl in *.
  - subst w'. apply Quiet. simpl. tauto.
  - exact H.
Qed.

(** ** Tables with unique ids *)

Lemma noneAffected_zero : noneAffected 0 = true.
Proof. reflexivity. Qed.

Lemma noneAffected_one : noneAffected 1 = false.
Proof. reflexivity. Qed.

Lemma ids_In (i : string) (rows : list MySQL.Row) :
  List.existsb (MySQL.hasId i) rows = true <-> In i (ids rows).
Proof.
  unfold ids, MySQL.hasId. rewrite existsb_exists, in_map_iff.
  split; intros [row H]; exists row.
  - destruct H as [Hin He]. apply String.eqb_eq in He. now split.
  - destruct H as [He Hin]. split; [exact Hin|now apply String.eqb_eq].
Qed.

Lemma count_unique (i : string) (rows : list MySQL.Row) :
  NoDup (ids rows) ->
  MySQL.count (MySQL.hasId i) rows
  = if List.existsb (MySQL.hasId i) rows then 1 else 0.
Proof.
  unfold MySQL.count. induction rows as [|row rows IH]; [reflexivity|].
  cbn [ids List.map]. intros Hn. apply NoDup_cons in Hn.
  destruct Hn as [Hnot Hn]. cbn [List.filter List.existsb].
  destruct (MySQL.hasId i row) eqn:Hi.
  - cbn [orb]. unfold MySQL.hasId in Hi. apply String.eqb_eq in Hi.
    subst i. destruct (List.existsb _ rows) eqn:He.
    + apply ids_In, list_elem_of_In in He. contradiction.
    + now rewrite (filter_none _ _ He).
  - cbn [orb]. now apply IH.
Qed.

Lemma noneAffected_unique (i : string) (rows : list MySQL.Row) :
  NoDup (ids rows) ->
  noneAffected (MySQL.count (MySQL.hasId i) rows)
  = negb (List.existsb (MySQL.hasId i) rows).
Proof.
  intros Hn. rewrite (count_unique i rows Hn).
  now destruct (List.existsb _ rows).
Qed.

Lemma rewritten_absent (i : string) (date distance type : value)
    (rows : list MySQL.Row) :
  List.existsb (MySQL.hasId i) rows = false ->
  rewritten i date distance type rows = rows.
Proof.
  unfold rewritten. induction rows as [|row rows IH]; [reflexivity|].
  cbn [List.existsb List.map]. intros H. apply orb_false_iff in H.
  destruct H as [-> H]. now rewrite IH.
Qed.

Lemma ids_rewritten (i : string) (date distance type : value)
    (rows : list MySQL.Row) :
  ids (rewritten i date distance type rows) = ids rows.
Proof.
  unfold ids, rewritten. rewrite List.map_map. apply List.map_ext.
  intros row. now destruct (MySQL.hasId i row).
Qed.

Lemma remaining_In (i : string) (row : MySQL.Row) (rows : list MySQL.Row) :
  In row (remaining i rows) <-> In row rows /\ MySQL.row_id row <> i.
Proof.
  unfold remaining, MySQL.hasId. rewrite filter_In, negb_true_iff.
  now rewrite String.eqb_neq.
Qed.

Lemma ids_remaining (i : string) (rows : list MySQL.Row) :
  NoDup (ids rows) -> NoDup (ids (remaining i rows)).
Proof.
  unfold ids, remaining. induction rows as [|row rows IH]; [easy|].
  cbn [List.map List.filter]. intros Hn. apply NoDup_cons in Hn.
  destruct Hn as [Hnot Hn]. destruct (negb _); [|now apply IH].
  cbn [List.map]. apply NoDup_cons. split; [|now apply IH].
  intros Hin. apply Hnot. apply list_elem_of_In.
  apply list_elem_of_In, in_map_iff in Hin.
  destruct Hin as [x [Hx Hin]]. apply filter_In in Hin.
  apply in_map_iff. exists x. tauto.
Qed.

Lemma ids_added (row : MySQL.Row) (rows : list MySQL.Row) :
  NoDup (ids rows) ->
  List.existsb (MySQL.hasId (MySQL.row_id row)) rows = false ->
  NoDup (ids (rows ++ [row])).
Proof.
  intros Hn Hf. unfold ids. rewrite List.map_app. cbn [List.map].
  apply NoDup_app. split; [exact Hn|]. split.
  - intros x Hx Hin. apply list_elem_of_singleton in Hin. subst x.
    apply list_elem_of_In, ids_In in Hx. congruence.
  - apply NoDup_singleton.
Qed.

Lemma applyUpdate_valid (date distance type : value) (row : MySQL.Row) :
  updatable date distance type = true ->
  validRow row -> validRow (applyUpdate date distance type row).
Proof.
  unfold updatable, validRow. intros Hu [Ht Hd].
  apply andb_true_iff in Hu. destruct Hu as [Hu Hty].
  apply andb_true_iff in Hu. destruct Hu as [_ Hdi].
  cbn [applyUpdate MySQL.row_type MySQL.row_distance]. split.
  - destruct (isUndefined type); [exact Ht|exact Hty].
  - destruct (isUndefined distance); [exact Hd|].
    cbn [orb] in Hdi. now rewrite invalidDistance_valid, Hdi.
Qed.

Lemma rewritten_valid (i : string) (date distance type : value)
    (rows : list MySQL.Row) :
  updatable date distance type = true ->
  List.Forall validRow rows ->
  List.Forall validRow (rewritten i date distance type rows).
Proof.
  intros Hu Hv. unfold rewritten. apply List.Forall_map.
  eapply List.Forall_impl; [|exact Hv]. intros row Hr. cbv beta.
  destruct (MySQL.hasId i row); [now apply applyUpdate_valid|exact Hr].
Qed.

Lemma remaining_valid (i : string) (rows : list MySQL.Row) :
  List.Forall validRow rows -> List.Forall validRow (remaining i rows).
Proof.
  intros Hv. apply List.Forall_forall. intros row Hin.
  apply remaining_In in Hin.
  now apply (proj1 (List.Forall_forall validRow rows) Hv).
Qed.

(** ** What every request comes to *)

Lemma outcome_status (r : Request) (w w' : World) (res : Response) :
  Outcome r w res w' -> In (status res) statuses.
Proof.
  unfold statuses. intros [res0 H|res0 q _ H|res0 row q _ H _ _|res0 q _ H
                           |i q _|i date distance type res0 q _ _ H].
  - simpl in *. tauto.
  - rewrite H. simpl. tauto.
  - rewrite H. simpl. tauto.
  - rewrite H. simpl. tauto.
  - destruct (noneAffected _); simpl; tauto.
  - rewrite H. destruct (noneAffected _); simpl; tauto.
Qed.

Lemma outcome_statement (r : Request) (w w' : World) (res : Response) :
  Outcome r w res w' ->
  issued w' = issued w \/ exists q, issued w' = issued w ++ [q].
Proof. intros []; [now left|right; now eexists ..]. Qed.

Lemma outcome_refusal (r : Request) (w w' : World) (res : Response) :
  Outcome r w res w' -> status res = 400 \/ status res = 401 -> w' = w.
Proof.
  intros [res0 H|res0 q _ H|res0 row q _ H _ _|res0 q _ H
         |i q _|i date distance type res0 q _ _ H] Hs;
    try reflexivity; try (rewrite H in Hs);
    try (destruct (noneAffected _)); simpl in Hs;
    destruct Hs; discriminate.
Qed.

Lemma outcome_get (r : Request) (w w' : World) (res : Response) :
  Outcome r w res w' -> httpMethod r = GET -> table w' = table w.
Proof. intros [] Hm; try reflexivity; congruence. Qed.

Lemma outcome_post (r : Request) (w w' : World) (res : Response) :
  Outcome r w res w' -> httpMethod r = POST ->
  (status res = 201 /\ exists row,
      table w' = table w ++ [row] /\ validRow row
      /\ ~ In (MySQL.row_id row) (ids (table w)))
  \/ (status res <> 201 /\ table w' = table w).
Proof.
  intros [res0 H|res0 q Hg H|res0 row q _ H Hv Hf|res0 q _ H
         |i q Hd|i date distance type res0 q Hp _ H] Hm; try congruence.
  - right. split; [|reflexivity]. simpl in H. lia.
  - left. split; [exact H|]. exists row. split; [reflexivity|].
    split; [exact Hv|]. intros Hin. apply ids_In in Hin. congruence.
  - right. split; [|reflexivity]. lia.
Qed.

Lemma outcome_put (r : Request) (w w' : World) (res : Response) :
  Outcome r w res w' -> httpMethod r = PUT ->
  exists i,
    List.Forall2
      (fun old new =>
         MySQL.row_id new = MySQL.row_id old
         /\ (MySQL.row_id old <> i -> new = old))
      (table w) (table w').
Proof.
  intros [res0 H|res0 q Hg H|res0 row q Hg H Hv Hf|res0 q Hg H
         |i q Hd|i date distance type res0 q Hp _ H] Hm; try congruence.
  - exists EmptyString. induction (table w); constructor; tauto.
  - exists i. cbn [table]. unfold rewritten. clear H.
    induction (table w) as [|row rows IH]; cbn [List.map];
      constructor; [|exact IH].
    unfold MySQL.hasId. destruct (String.eqb_spec (MySQL.row_id row) i).
    + split; [reflexivity|contradiction].
    + now split.
Qed.

Lemma outcome_delete (r : Request) (w w' : World) (res : Response) :
  Outcome r w res w' -> httpMethod r = DELETE ->
  table w' = table w
  \/ exists i, table w' = remaining i (table w).
Proof.
  intros [] Hm; try congruence; [now left|right; now eexists].
Qed.

Lemma outcome_invariant (r : Request) (w w' : World) (res : Response) :
  Outcome r w res w' ->
  NoDup (ids (table w)) -> List.Forall validRow (table w) ->
  NoDup (ids (table w')) /\ List.Forall validRow (table w').
Proof.
  intros [res0 H|res0 q Hg H|res0 row q Hg H Hv Hf|res0 q Hg H
         |i q Hd|i date distance type res0 q Hp Hu H] Hn Ha;
    cbn [table]; try (split; assumption).
  - split; [now apply ids_added|].
    apply List.Forall_app. split; [exact Ha|]. now constructor.
  - split; [now apply ids_remaining|now apply remaining_valid].
  - split; [now rewrite ids_rewritten|now apply rewritten_valid].
Qed.

Lemma outcome_error (r : Request) (w w' : World) (res : Response) :
  Outcome r w res w' -> NoDup (ids (table w)) ->
  400 <= status res -> table w' = table w.
Proof.
  intros [res0 H|res0 q Hg H|res0 row q Hg H Hv Hf|res0 q Hg H
         |i q Hd|i date distance type res0 q Hp Hu H] Hn Hs;
    cbn [table]; try reflexivity.
  - rewrite H in Hs. lia.
  - rewrite (noneAffected_unique i _ Hn) in Hs.
    destruct (List.existsb _ (table w)) eqn:He; [simpl in Hs; lia|].
    now apply filter_keeps_all.
  - rewrite H, (noneAffected_unique i _ Hn) in Hs.
    destruct (List.existsb _ (table w)) eqn:He; [simpl in Hs; lia|].
    now apply rewritten_absent.
Qed.

(** X3: whatever the request, the environment and the table, the
    application answers with one of the statuses 200, 201, 204, 400,
    401, 404 and 500, and sends at most one statement to the
    database. *)
Theorem app_answers (env : Env) (uuid : string) (r : Request) (w : World) :
  In (status (fst (app env uuid r w))) statuses
  /\ (issued (snd (app env uuid r w)) = issued w
      \/ exists q, issued (snd (app env uuid r w)) = issued w ++ [q]).
Proof.
  split.
  - exact (outcome_status _ _ _ _ (app_outcome env uuid r w)).
  - exact (outcome_statement _ _ _ _ (app_outcome env uuid r w)).
Qed.

(** X4: a GET request never changes the table, whatever its path,
    headers and query. *)
Theorem get_keeps_table (env : Env) (uuid : string) (r : Request)
    (w : World) :
  httpMethod r = GET -> table (snd (app env uuid r w)) = table w.
Proof. exact (outcome_get _ _ _ _ (app_outcome env uuid r w)). Qed.

Lemma get_keeps_table_witness :
  table (snd (app secretEnv "u"
                (listRequest ∅ (VObj [("type", VStr "run")])) oneRow))
  = table oneRow.
Proof.
  apply (get_keeps_table secretEnv "u"
           (listRequest ∅ (VObj [("type", VStr "run")])) oneRow).
  reflexivity.
Defined.

(** X5: a request answered 400 or 401 sent nothing to the database
    and left the state as it was: validation and the gate come
    before every statement. *)
Theorem refusal_sends_nothing (env : Env) (uuid : string) (r : Request)
    (w : World) :
  status (fst (app env uuid r w)) = 400
  \/ status (fst (app env uuid r w)) = 401 ->
  snd (app env uuid r w) = w.
Proof. exact (outcome_refusal _ _ _ _ (app_outcome env uuid r w)). Qed.

Lemma refusal_sends_nothing_witness :
  snd (app secretEnv "u" (createRequest ∅) oneRow) = oneRow.
Proof.
  apply (refusal_sends_nothing secretEnv "u" (createRequest ∅) oneRow).
  right. reflexivity.
Defined.

(** X6: the requests keep the table well formed: when the ids of the
    rows are pairwise distinct and every row holds an allowed type
    and a finite distance above zero, the same holds after any
    request. *)
Theorem table_stays_well_formed (env : Env) (uuid : string) (r : Request)
    (w : World) :
  NoDup (ids (table w)) -> List.Forall validRow (table w) ->
  NoDup (ids (table (snd (app env uuid r w))))
  /\ List.Forall validRow (table (snd (app env uuid r w))).
Proof. exact (outcome_invariant _ _ _ _ (app_outcome env uuid r w)). Qed.

Lemma table_stays_well_formed_witness :
  NoDup (ids (table (snd (app secretEnv generatedId
                            (createRequest apiKeyHeaders) oneRow))))
  /\ List.Forall validRow
       (table (snd (app secretEnv generatedId
                      (createRequest apiKeyHeaders) oneRow))).
Proof.
  apply (table_stays_well_formed secretEnv generatedId
           (createRequest apiKeyHeaders) oneRow).
  - apply NoDup_singleton.
  - repeat constructor.
Defined.

(** X7: on a table whose ids are pairwise distinct, a request
    answered with a status of 400 or above leaves every row as it
    was. *)
Theorem error_keeps_table (env : Env) (uuid : string) (r : Request)
    (w : World) :
  NoDup (ids (table w)) ->
  400 <= status (fst (app env uuid r w)) ->
  table (snd (app env uuid r w)) = table w.
Proof. exact (outcome_error _ _ _ _ (app_outcome env uuid r w)). Qed.

Lemma error_keeps_table_witness :
  table (snd (app secretEnv "u" (putMinusFive "/sessions/a1") oneRow))
  = table oneRow.
Proof.
  apply (error_keeps_table secretEnv "u" (putMinusFive "/sessions/a1")
           oneRow).
  - apply NoDup_singleton.
  - vm_compute. discriminate.
Defined.

(** X8: a POST request leaves the rows of the table as they are and
    in their order; it adds a row, at the end, exactly when it is
    answered 201, and the row holds an allowed type, a finite
    distance above zero and an id no earlier row has. *)
Theorem post_only_appends (env : Env) (uuid : string) (r : Request)
    (w : World) :
  httpMethod r = POST ->
  (status (fst (app env uuid r w)) = 201
   /\ exists row,
        table (snd (app env uuid r w)) = table w ++ [row]
        /\ validRow row /\ ~ In (MySQL.row_id row) (ids (table w)))
  \/ (status (fst (app env uuid r w)) <> 201
      /\ table (snd (app env uuid r w)) = table w).
Proof. exact (outcome_post _ _ _ _ (app_outcome env uuid r w)). Qed.

Lemma post_only_appends_witness :
  (status (fst (app secretEnv generatedId (createRequest apiKeyHeaders)
                  oneRow)) = 201
   /\ exists row,
        table (snd (app secretEnv generatedId (createRequest apiKeyHeaders)
                      oneRow)) = table oneRow ++ [row]
        /\ validRow row /\ ~ In (MySQL.row_id row) (ids (table oneRow)))
  \/ (status (fst (app secretEnv generatedId (createRequest apiKeyHeaders)
                     oneRow)) <> 201
      /\ table (snd (app secretEnv generatedId (createRequest apiKeyHeaders)
                       oneRow)) = table oneRow).
Proof.
  apply (post_only_appends secretEnv generatedId
           (createRequest apiKeyHeaders) oneRow).
  reflexivity.
Defined.

(** X9: a PUT request keeps the number of rows, their order and
    their ids, and changes rows of at most one id. *)
Theorem put_keeps_ids (env : Env) (uuid : string) (r : Request)
    (w : World) :
  httpMethod r = PUT ->
  exists i,
    List.Forall2
      (fun old new =>
         MySQL.row_id new = MySQL.row_id old
         /\ (MySQL.row_id old <> i -> new = old))
      (table w) (table (snd (app env uuid r w))).
Proof. exact (outcome_put _ _ _ _ (app_outcome env uuid r w)). Qed.

Lemma put_keeps_ids_witness :
  exists i,
    List.Forall2
      (fun old new =>
         MySQL.row_id new = MySQL.row_id old
         /\ (MySQL.row_id old <> i -> new = old))
      (table oneRow)
      (table (snd (app secretEnv "u" (putMinusFive "/sessions/a1") oneRow))).
Proof.
  apply (put_keeps_ids secretEnv "u" (putMinusFive "/sessions/a1") oneRow).
  reflexivity.
Defined.

(** X10: a DELETE request adds no row and changes none: the table
    afterwards is the table before, or the table before without the
    rows of one id. *)
Theorem delete_only_removes (env : Env) (uuid : string) (r : Request)
    (w : World) :
  httpMethod r = DELETE ->
  table (snd (app env uuid r w)) = table w
  \/ exists i, table (snd (app env uuid r w)) = remaining i (table w).
Proof. exact (outcome_delete _ _ _ _ (app_outcome env uuid r w)). Qed.

Lemma delete_only_removes_witness :
  table (snd (app secretEnv "u" (deleteRequest apiKeyHeaders "a1") oneRow))
  = table oneRow
  \/ exists i,
       table (snd (app secretEnv "u" (deleteRequest apiKeyHeaders "a1")
                     oneRow))
       = remaining i (table oneRow).
Proof.
  apply (delete_only_removes secretEnv "u"
           (deleteRequest apiKeyHeaders "a1") oneRow).
  reflexivity.
Defined.

(** ** The two mount points *)

Lemma mounted_chars (u p : string) :
  Express.mountApi u = Some p ->
  exists c0 c1 c2 rest,
    u = String c0 (String c1 (String c2 rest))
    /\ JSString.foldChar c1 = "a"%char /\ JSString.foldChar c2 = "p"%char.
Proof.
  unfold Express.mountApi.
  destruct u as [|c0 [|c1 [|c2 rest]]];
    try (cbn [JSString.sliceTo JSString.eqNoCase];
         rewrite ?andb_false_r; intros H; discriminate H).
  cbn [JSString.sliceTo JSString.eqNoCase].
  destruct (Ascii.eqb (JSString.foldChar c1) (JSString.foldChar "a")) eqn:H1;
    [|rewrite andb_false_r; intros H; discriminate H].
  destruct (Ascii.eqb (JSString.foldChar c2) (JSString.foldChar "p")) eqn:H2;
    [|cbn [andb]; rewrite !andb_false_r; intros H; discriminate H].
  intros _. exists c0, c1, c2, rest. split; [reflexivity|].
  split; now apply Ascii.eqb_eq.
Qed.

Ltac mismatch :=
  cbn [JSString.eqNoCase JSString.sliceTo];
  repeat match goal with
         | H : JSString.foldChar _ = _ |- _ => rewrite H
         end;
  repeat match goal with
         | |- context [Ascii.eqb ?a (JSString.foldChar ?b)] =>
             let v := eval vm_compute in (Ascii.eqb a (JSString.foldChar b)) in
             match v with
             | false => change (Ascii.eqb a (JSString.foldChar b)) with false
             end
         end;
  cbn [andb]; rewrite ?andb_false_r.

Lemma mounted_not_routed (env : Env) (uuid : string) (r : Request)
    (u p : string) :
  Express.mountApi u = Some p -> route env uuid r u = None.
Proof.
  intros H.
  destruct (mounted_chars u p H) as [c0 [c1 [c2 [rest [-> [H1 H2]]]]]].
  assert (Hh : Express.matchPath "/health"
                 (String c0 (String c1 (String c2 rest))) = false).
  { unfold Express.matchPath.
    change ("/health" +:+ "/") with "/health/". now mismatch. }
  assert (Ha : Express.matchPath "/auth/check"
                 (String c0 (String c1 (String c2 rest))) = false).
  { unfold Express.matchPath.
    change ("/auth/check" +:+ "/") with "/auth/check/". now mismatch. }
  assert (Hl : Express.matchPath "/sessions"
                 (String c0 (String c1 (String c2 rest))) = false).
  { unfold Express.matchPath.
    change ("/sessions" +:+ "/") with "/sessions/". now mismatch. }
  assert (Hs : Express.matchParam "/sessions/"
                 (String c0 (String c1 (String c2 rest))) = None).
  { unfold Express.matchParam.
    change (String.length "/sessions/") with 10%nat. now mismatch. }
  unfold route. rewrite Hh, Ha, Hl, Hs. now destruct (httpMethod r).
Qed.

Lemma mounted_not_health (u p : string) :
  Express.mountApi u = Some p -> u <> "/health".
Proof.
  intros H ->.
  destruct (mounted_chars _ _ H) as [c0 [c1 [c2 [rest [He [Hc _]]]]]].
  injection He as <- <- <- <-. discriminate Hc.
Qed.

Lemma blockBrowserNav_mounted (r : Request) (u p : string) :
  Express.mountApi u = Some p ->
  blockBrowserNav (expressReq r u emptyObject) = Next ->
  blockBrowserNav (expressReq r p emptyObject) = Next.
Proof.
  intros Hm Hn. destruct (string_dec p "/health") as [->|Hp].
  - now apply blockBrowserNav_health.
  - rewrite (blockBrowserNav_same_off_health r p u Hp); [exact Hn|].
    exact (mounted_not_health u p Hm).
Qed.

(** A route of the router serves the request at either mount point,
    once the navigation blocker lets it pass. *)
Lemma layers_reaches (env : Env) (uuid : string) (r : Request) (p : string)
    (handler : M Response) (w : World) :
  reaches (url r) p -> decodes p ->
  blockBrowserNav (expressReq r (url r) emptyObject) = Next ->
  route env uuid r p = Some handler ->
  layers env uuid r w = handler w.
Proof.
  intros Hp Hd Hn Hr.
  pose proof (reaches_decodes (url r) p Hp Hd) as Hu.
  destruct Hp as [->|Hm].
  - now apply layers_at_root.
  - apply (layers_under_api env uuid r p); try assumption.
    + now apply (mounted_not_routed env uuid r (url r) p).
    + now apply (blockBrowserNav_mounted r (url r) p).
Qed.

Lemma app_reaches (env : Env) (uuid : string) (r : Request) (p : string)
    (handler : M Response) (w w' : World) (res : Response) :
  reaches (url r) p -> decodes p ->
  blockBrowserNav (expressReq r (url r) emptyObject) = Next ->
  route env uuid r p = Some handler ->
  handler w = (Ok res, w') ->
  app env uuid r w = (res, w').
Proof.
  intros Hp Hd Hn Hr Hh. apply app_of_layers.
  now rewrite (layers_reaches env uuid r p handler w Hp Hd Hn Hr).
Qed.

(** ** The routes of the router *)

Lemma matchPath_second_char (x0 x1 : ascii) (s p : string) :
  Express.matchPath (String x0 (String x1 s)) p = true ->
  exists c0 c1 rest,
    p = String c0 (String c1 rest)
    /\ JSString.foldChar c1 = JSString.foldChar x1.
Proof.
  unfold Express.matchPath. rewrite !append_cons.
  destruct p as [|c0 [|c1 rest]];
    [discriminate|cbn [JSString.eqNoCase];
                  rewrite !andb_false_r; discriminate|].
  cbn [JSString.eqNoCase].
  destruct (Ascii.eqb (JSString.foldChar c1) (JSString.foldChar x1)) eqn:H.
  - intros _. exists c0, c1, rest. split; [reflexivity|].
    now apply Ascii.eqb_eq.
  - cbn [andb]. rewrite !andb_false_r. discriminate.
Qed.

Lemma route_health (env : Env) (uuid : string) (r : Request) (p : string) :
  httpMethod r = GET -> Express.matchPath "/health" p = true ->
  route env uuid r p = Some health.
Proof. intros Hm Hp. unfold route. now rewrite Hm, Hp. Qed.

Lemma route_auth_check (env : Env) (uuid : string) (r : Request)
    (p : string) :
  httpMethod r = GET -> Express.matchPath "/auth/check" p = true ->
  route env uuid r p = Some (gated env (expressReq r p emptyObject) authCheck).
Proof.
  intros Hm Hp. unfold route. rewrite Hm, Hp.
  destruct (matchPath_second_char _ _ _ _ Hp) as [c0 [c1 [rest [-> Hc]]]].
  replace (Express.matchPath "/health" (String c0 (String c1 rest)))
    with false; [reflexivity|].
  symmetry. unfold Express.matchPath.
  change ("/health" +:+ "/") with "/health/". now mismatch.
Qed.

Lemma route_list (env : Env) (uuid : string) (r : Request) (p : string) :
  httpMethod r = GET -> Express.matchPath "/sessions" p = true ->
  route env uuid r p = Some (listSessions (expressReq r p emptyObject)).
Proof.
  intros Hm Hp. unfold route. rewrite Hm, Hp.
  destruct (matchPath_second_char _ _ _ _ Hp) as [c0 [c1 [rest [-> Hc]]]].
  replace (Express.matchPath "/health" (String c0 (String c1 rest)))
    with false.
  - replace (Express.matchPath "/auth/check" (String c0 (String c1 rest)))
      with false; [reflexivity|].
    symmetry. unfold Express.matchPath.
    change ("/auth/check" +:+ "/") with "/auth/check/". now mismatch.
  - symmetry. unfold Express.matchPath.
    change ("/health" +:+ "/") with "/health/". now mismatch.
Qed.

Lemma route_create (env : Env) (uuid : string) (r : Request) (p : string) :
  httpMethod r = POST -> Express.matchPath "/sessions" p = true ->
  route env uuid r p
  = Some (gated env (expressReq r p emptyObject)
            (createSession uuid (expressReq r p emptyObject))).
Proof. intros Hm Hp. unfold route. now rewrite Hm, Hp. Qed.

Lemma route_put (env : Env) (uuid : string) (r : Request) (p seg : string) :
  httpMethod r = PUT -> Express.matchParam "/sessions/" p = Some seg ->
  route env uuid r p = Some (withId env r p seg updateSession).
Proof. intros Hm Hp. unfold route. now rewrite Hm, Hp. Qed.

Lemma route_delete (env : Env) (uuid : string) (r : Request)
    (p seg : string) :
  httpMethod r = DELETE -> Express.matchParam "/sessions/" p = Some seg ->
  route env uuid r p = Some (withId env r p seg deleteSession).
Proof. intros Hm Hp. unfold route. now rewrite Hm, Hp. Qed.

Lemma gated_authorized (env : Env) (r : Request) (p : string) (ps : value)
    (handler : M Response) (w : World) :
  authorized env r -> gated env (expressReq r p ps) handler w = handler w.
Proof.
  intros Ha. apply gated_passed.
  now rewrite (requireEditAuth_path env r p (url r) ps emptyObject).
Qed.

Lemma gated_unauthorized (env : Env) (r : Request) (p : string) (ps : value)
    (handler : M Response) (w : World) :
  ~ authorized env r ->
  gated env (expressReq r p ps) handler w = (Ok unauthorized, w).
Proof.
  intros Ha. apply gated_refused.
  destruct (requireEditAuth_cases env r p ps) as [H|H]; [|exact H].
  exfalso. apply Ha. unfold authorized.
  now rewrite (requireEditAuth_path env r (url r) p emptyObject ps).
Qed.

Lemma blockBrowserNav_signal (r : Request) (p : string) (ps : value) :
  httpMethod r = GET -> p <> "/health" ->
  ~ noNavigationSignal (headers r) ->
  blockBrowserNav (expressReq r p ps) = Respond noContent.
Proof.
  intros Hm Hp Hs. unfold blockBrowserNav.
  rewrite (inspectNavigation_get (expressReq r p ps)
             (headers r !! "sec-fetch-dest") (headers r !! "sec-fetch-mode")
             (headers r !! "accept"));
    try reflexivity; [|cbn [method expressReq]; now rewrite Hm|exact Hp].
  unfold noNavigationSignal in Hs. apply not_false_is_true in Hs.
  now rewrite Hs.
Qed.

(** ** Sorting by date *)

Lemma insertByDate_perm (row : MySQL.Row) (rows : list MySQL.Row) :
  Permutation (MySQL.insertByDate row rows) (row :: rows).
Proof.
  induction rows as [|x rows IH]; cbn [MySQL.insertByDate]; [reflexivity|].
  destruct (String.leb _ _); [reflexivity|].
  rewrite IH. apply perm_swap.
Qed.

Lemma orderByDate_perm (rows : list MySQL.Row) :
  Permutation (MySQL.orderByDate rows) rows.
Proof.
  induction rows as [|x rows IH]; [reflexivity|].
  change (MySQL.orderByDate (x :: rows))
    with (MySQL.insertByDate x (MySQL.orderByDate rows)).
  rewrite insertByDate_perm. now constructor.
Qed.

Lemma insertByDate_sorted (row : MySQL.Row) (rows : list MySQL.Row) :
  Sorted byDate rows -> Sorted byDate (MySQL.insertByDate row rows).
Proof.
  induction rows as [|x rows IH]; cbn [MySQL.insertByDate].
  - intros _. repeat constructor.
  - intros Hs. destruct (String.leb (MySQL.row_date row) (MySQL.row_date x))
      eqn:Hle.
    + constructor; [exact Hs|]. constructor. exact Hle.
    + apply Sorted_inv in Hs. destruct Hs as [Hs Hh].
      constructor; [now apply IH|].
      assert (Hx : byDate x row).
      { unfold byDate.
        destruct (String.leb_total (MySQL.row_date x) (MySQL.row_date row))
          as [H|H]; [exact H|congruence]. }
      destruct rows as [|y rows]; cbn [MySQL.insertByDate].
      * now constructor.
      * destruct (String.leb (MySQL.row_date row) (MySQL.row_date y));
          constructor; [exact Hx|].
        now apply HdRel_inv in Hh.
Qed.

Lemma orderByDate_sorted (rows : list MySQL.Row) :
  Sorted byDate (MySQL.orderByDate rows).
Proof.
  induction rows as [|x rows IH]; [constructor|].
  now apply insertByDate_sorted.
Qed.

(** ** The routes, at either mount point *)

(** X11: a GET with a navigation signal whose path holds no malformed
    escape is answered 204 with an empty body and nothing done,
    whatever the path except the exact path /health: also at /,
    where the ping is never reached, and at a path no route
    serves. *)
Theorem navigation_is_answered_204 (env : Env) (uuid : string)
    (r : Request) (w : World) :
  httpMethod r = GET -> url r <> "/health" ->
  decodes (url r) ->
  ~ noNavigationSignal (headers r) ->
  app env uuid r w = (noContent, w).
Proof.
  intros Hm Hu Hd Hs. apply app_of_layers, layers_blocked; [exact Hd|].
  now apply blockBrowserNav_signal.
Qed.

Lemma navigation_is_answered_204_witness :
  app secretEnv "u" (navigation "/caf%C3%A9") oneRow = (noContent, oneRow).
Proof.
  apply (navigation_is_answered_204 secretEnv "u" (navigation "/caf%C3%A9")
           oneRow).
  - reflexivity.
  - discriminate.
  - now eexists.
  - discriminate.
Defined.

(** X12: GET /health, in any letter case and at either mount point,
    is answered 200 {ok: true, db: true} after one SELECT 1, without
    a token, when the path is exactly /health or the request has no
    navigation signal. *)
Theorem health_answers (env : Env) (uuid : string) (r : Request)
    (p : string) (w : World) :
  httpMethod r = GET -> reaches (url r) p ->
  Express.matchPath "/health" p = true ->
  url r = "/health" \/ noNavigationSignal (headers r) ->
  app env uuid r w
  = (json 200 (VObj [("ok", VBool true); ("db", VBool true)]),
     {| table := table w;
        issued := issued w ++ [("SELECT 1 AS ok", [])] |}).
Proof.
  intros Hm Hr Hp Hs.
  apply (app_reaches env uuid r p health); try assumption.
  - exact (matchPath_decodes "/health" p eq_refl Hp).
  - destruct Hs as [Hu|Hs]; [now apply blockBrowserNav_health|].
    now apply blockBrowserNav_no_signal.
  - now apply route_health.
  - reflexivity.
Qed.

Lemma health_answers_witness :
  app secretEnv "u" (withUrl (listRequest ∅ emptyObject) "/api/Health")
    oneRow
  = (json 200 (VObj [("ok", VBool true); ("db", VBool true)]),
     {| table := table oneRow;
        issued := issued oneRow ++ [("SELECT 1 AS ok", [])] |}).
Proof.
  apply (health_answers secretEnv "u"
           (withUrl (listRequest ∅ emptyObject) "/api/Health") "/Health"
           oneRow).
  - reflexivity.
  - right. reflexivity.
  - reflexivity.
  - right. reflexivity.
Defined.

(** X13: GET /auth/check without a navigation signal touches nothing
    and tells whether the token is the secret: 200 {ok: true} when
    the gate passes the request, 401 otherwise. *)
Theorem auth_check_answers (env : Env) (uuid : string) (r : Request)
    (p : string) (w : World) :
  httpMethod r = GET -> reaches (url r) p ->
  Express.matchPath "/auth/check" p = true ->
  noNavigationSignal (headers r) ->
  (authorized env r ->
   app env uuid r w = (json 200 (VObj [("ok", VBool true)]), w))
  /\ (~ authorized env r -> app env uuid r w = (unauthorized, w)).
Proof.
  intros Hm Hr Hp Hs.
  assert (Hn : blockBrowserNav (expressReq r (url r) emptyObject) = Next)
    by now apply blockBrowserNav_no_signal.
  pose proof (route_auth_check env uuid r p Hm Hp) as Hroute.
  pose proof (matchPath_decodes "/auth/check" p eq_refl Hp) as Hd.
  split; intros Ha;
    apply (app_reaches env uuid r p _ w w _ Hr Hd Hn Hroute).
  - now rewrite gated_authorized.
  - now rewrite gated_unauthorized.
Qed.

Lemma auth_check_answers_witness :
  app secretEnv "u"
    (withUrl (listRequest apiKeyHeaders emptyObject) "/api/auth/check/")
    oneRow
  = (json 200 (VObj [("ok", VBool true)]), oneRow).
Proof.
  apply (auth_check_answers secretEnv "u"
           (withUrl (listRequest apiKeyHeaders emptyObject)
              "/api/auth/check/")
           "/auth/check/" oneRow).
  - reflexivity.
  - right. reflexivity.
  - reflexivity.
  - reflexivity.
  - reflexivity.
Defined.

(** X14: GET /sessions without a navigation signal.  A type
    parameter that is truthy and not blank once normalized filters
    the list: when it is not swim or run in any letter case the
    answer is 400 and nothing is sent, otherwise the answer is 200
    with the rows of that type.  A missing, falsy or blank type
    lists every row.  The rows come as objects, each once, in the
    order of their dates.  A truthy type whose conversion to a
    string throws is answered 500 with the message of the error,
    and nothing is sent. *)
Theorem list_sessions_filter (env : Env) (uuid : string) (r : Request)
    (p : string) (w : World) :
  httpMethod r = GET -> reaches (url r) p ->
  Express.matchPath "/sessions" p = true ->
  noNavigationSignal (headers r) ->
  let q := getPropOpt (urlQuery r) "type" in
  (forall e, truthy q = true -> normalizeType q = Throw e ->
   app env uuid r w = (json 500 (errorBody e), w))
  /\ (forall t, truthy q = true -> normalizeType q = Ok t ->
      t <> EmptyString -> isValidType t = false ->
      app env uuid r w = (json 400 (errorBody "type invalide (swim|run)"), w))
  /\ (forall t, truthy q = true -> normalizeType q = Ok t ->
      t <> EmptyString -> isValidType t = true ->
      exists rows sent,
        app env uuid r w
        = (json 200 (VArr (List.map MySQL.rowJson rows)),
           {| table := table w; issued := issued w ++ [sent] |})
        /\ Permutation rows
             (List.filter (fun row => String.eqb (MySQL.row_type row) t)
                (table w))
        /\ Sorted byDate rows)
  /\ (truthy q = false \/ normalizeType q = Ok EmptyString ->
      exists rows sent,
        app env uuid r w
        = (json 200 (VArr (List.map MySQL.rowJson rows)),
           {| table := table w; issued := issued w ++ [sent] |})
        /\ Permutation rows (table w)
        /\ Sorted byDate rows).
Proof.
  intros Hm Hr Hp Hs q.
  assert (Hn : blockBrowserNav (expressReq r (url r) emptyObject) = Next)
    by now apply blockBrowserNav_no_signal.
  pose proof (route_list env uuid r p Hm Hp) as Hroute.
  pose proof (matchPath_decodes "/sessions" p eq_refl Hp) as Hd.
  assert (Hrun : forall res w',
             listSessions (expressReq r p emptyObject) w = (Ok res, w') ->
             app env uuid r w = (res, w')).
  { intros res w'.
    apply (app_reaches env uuid r p _ w w' res Hr Hd Hn Hroute). }
  rewrite listSessions_steps in Hrun. cbv zeta in Hrun.
  change (query (expressReq r p emptyObject)) with (urlQuery r) in Hrun.
  fold q in Hrun.
  split; [|split; [|split]].
  - intros e Hq Ht. rewrite Hq, Ht in Hrun. now apply Hrun.
  - intros t Hq Ht Hne Hv. apply nonEmpty_true in Hne.
    rewrite Hq, Ht, Hne, Hv in Hrun. now apply Hrun.
  - intros t Hq Ht Hne Hv. apply nonEmpty_true in Hne.
    rewrite Hq, Ht, Hne, Hv in Hrun. do 2 eexists.
    split; [now apply Hrun|].
    split; [apply orderByDate_perm|apply orderByDate_sorted].
  - intros Hq.
    assert (Hall : app env uuid r w
                   = (json 200
                        (VArr (List.map MySQL.rowJson
                                 (MySQL.orderByDate (table w)))),
                      {| table := table w;
                         issued :=
                           issued w
                           ++ [(MySQL.selectSessions +:+ " ORDER BY date ASC",
                                [])] |})).
    { apply Hrun. destruct (truthy q); [|reflexivity].
      destruct Hq as [Hq|Hq]; [discriminate|]. now rewrite Hq. }
    do 2 eexists. split; [exact Hall|].
    split; [apply orderByDate_perm|apply orderByDate_sorted].
Qed.

Lemma list_sessions_filter_witness :
  app secretEnv "u" (listRequest ∅ (VObj [("type", VStr "bike")])) oneRow
  = (json 400 (errorBody "type invalide (swim|run)"), oneRow)
  /\ app secretEnv "u" (listRequest ∅ (VObj [("type", unconvertible)])) oneRow
     = (json 500 (errorBody typeError), oneRow).
Proof.
  split.
  - apply (list_sessions_filter secretEnv "u"
             (listRequest ∅ (VObj [("type", VStr "bike")])) "/sessions"
             oneRow)
      with (t := "bike"%string).
    + reflexivity.
    + now left.
    + reflexivity.
    + reflexivity.
    + reflexivity.
    + reflexivity.
    + discriminate.
    + reflexivity.
  - apply (list_sessions_filter secretEnv "u"
             (listRequest ∅ (VObj [("type", unconvertible)])) "/sessions"
             oneRow).
    + reflexivity.
    + now left.
    + reflexivity.
    + reflexivity.
    + reflexivity.
    + reflexivity.
Defined.

(** X15: an authorized POST /sessions is answered 201 exactly when
    the date is truthy, the distance is a finite number above zero,
    the normalized type is swim or run and no row has the id (the id
    of the body when it is truthy, a generated one otherwise); it
    then stores one row with the distance as a number and the
    normalized type, and answers with the same record. *)
Theorem create_session_accepts (env : Env) (uuid : string) (r : Request)
    (p : string) (w : World) :
  httpMethod r = POST -> reaches (url r) p ->
  Express.matchPath "/sessions" p = true ->
  authorized env r ->
  let b := orElse (jsonBody r) emptyObject in
  let date := getProp b "date" in
  let distance := getProp b "distance" in
  let t := normalized (getProp b "type") in
  let newId := orElse (getProp b "id") (VStr uuid) in
  (status (fst (app env uuid r w)) = 201 <->
   truthy date = true /\ validDistance distance = true
   /\ isValidType t = true
   /\ List.existsb (MySQL.hasId (MySQL.sqlText newId)) (table w) = false)
  /\ (status (fst (app env uuid r w)) = 201 ->
      app env uuid r w
      = (json 201 (VObj [("id", newId); ("date", date);
                         ("distance", VNum (numeric distance));
                         ("type", VStr t)]),
         {| table :=
              table w
              ++ [{| MySQL.row_id := MySQL.sqlText newId;
                     MySQL.row_date := MySQL.sqlText date;
                     MySQL.row_distance := numeric distance;
                     MySQL.row_type := t |}];
            issued :=
              issued w
              ++ [(insertStatement,
                   [newId; date; VNum (numeric distance); VStr t])] |})).
Proof.
  intros Hm Hr Hp Ha b date distance t newId.
  assert (Hn : blockBrowserNav (expressReq r (url r) emptyObject) = Next)
    by (apply blockBrowserNav_not_get; congruence).
  pose proof (route_create env uuid r p Hm Hp) as Hroute.
  pose proof (matchPath_decodes "/sessions" p eq_refl Hp) as Hdec.
  assert (Hrun : forall res w',
             createSession uuid (expressReq r p emptyObject) w = (Ok res, w') ->
             app env uuid r w = (res, w')).
  { intros res w' H.
    apply (app_reaches env uuid r p _ w w' res Hr Hdec Hn Hroute).
    now rewrite gated_authorized. }
  rewrite createSession_steps in Hrun. cbv zeta in Hrun.
  change (reqBody (expressReq r p emptyObject)) with (jsonBody r) in Hrun.
  fold b in Hrun. fold date distance newId in Hrun.
  destruct (normalizeType (getProp b "type")) as [e|t'] eqn:Hty.
  { rewrite (Hrun _ _ eq_refl). subst t.
    rewrite (validType_throw _ _ Hty). split;
      [split; [discriminate|intros [_ [_ [H _]]]; discriminate H]
      |discriminate]. }
  assert (Et : t = t') by exact (normalized_ok _ _ Hty).
  destruct (truthy date) eqn:Hd; cbn [negb] in Hrun;
    [|rewrite (Hrun _ _ eq_refl); split;
      [split; [discriminate|intros [H _]; discriminate H]|discriminate]].
  destruct (isUndefined distance || isNull distance
            || strictEqStr distance EmptyString) eqn:Hmiss.
  { rewrite (Hrun _ _ eq_refl).
    rewrite (missing_distance_invalid distance Hmiss). split;
      [split; [discriminate|intros [_ [H _]]; discriminate H]|discriminate]. }
  destruct (toNumber distance) as [e|x] eqn:Hx.
  { rewrite (Hrun _ _ eq_refl).
    rewrite (validDistance_throw _ _ Hx). split;
      [split; [discriminate|intros [_ [H _]]; discriminate H]|discriminate]. }
  rewrite (numeric_ok _ _ Hx).
  destruct (validDistance distance) eqn:Hv; cbn [negb] in Hrun;
    [|rewrite (Hrun _ _ eq_refl); split;
      [split; [discriminate|intros [_ [H _]]; discriminate H]|discriminate]].
  rewrite Et.
  destruct (isValidType t') eqn:Ht; cbn [negb] in Hrun;
    [|rewrite (Hrun _ _ eq_refl); split;
      [split; [discriminate|intros [_ [_ [H _]]]; discriminate H]
      |discriminate]].
  unfold poolQuery in Hrun. rewrite execute_insert in Hrun.
  destruct (List.existsb _ (table w)) eqn:Hf.
  - rewrite (Hrun _ _ eq_refl). split;
      [split; [discriminate|intros [_ [_ [_ H]]]; discriminate H]
      |discriminate].
  - rewrite (Hrun _ _ eq_refl). split; [split; [tauto|reflexivity]|].
    reflexivity.
Qed.

Lemma create_session_accepts_witness :
  status (fst (app secretEnv generatedId (createRequest apiKeyHeaders)
                 oneRow)) = 201.
Proof.
  apply (create_session_accepts secretEnv generatedId
           (createRequest apiKeyHeaders) "/sessions" oneRow).
  - reflexivity.
  - now left.
  - reflexivity.
  - reflexivity.
  - repeat split.
Defined.

Lemma app_with_id (env : Env) (uuid : string) (r : Request)
    (p seg id : string) (handler : Req -> M Response) (w w' : World)
    (res : Response) :
  reaches (url r) p -> httpMethod r <> GET ->
  Express.matchParam "/sessions/" p = Some seg ->
  route env uuid r p = Some (withId env r p seg handler) ->
  Express.decodeParam seg = Ok id ->
  authorized env r ->
  handler (expressReq r p (VObj [("id", VStr id)])) w = (Ok res, w') ->
  app env uuid r w = (res, w').
Proof.
  intros Hr Hm Hp Hroute Hd Ha Hh.
  apply (app_reaches env uuid r p (withId env r p seg handler) w w' res Hr);
    [| |exact Hroute|].
  - exact (matchParam_decodes p seg Hp (decodeParam_decodes seg id Hd)).
  - now apply blockBrowserNav_not_get.
  - now rewrite (withId_run env r p seg id handler w Hd Ha).
Qed.

(** X16: an authorized PUT /sessions/:id on a table whose ids are
    pairwise distinct is answered 200 exactly when the body passes
    the checks (a field to write, a valid distance and a valid type
    when they are given) and a row has the id.  The answer then
    echoes the fields of the body, and that row takes the truthy
    date, the distance as a number and the normalized type, the
    fields that were not given staying as they were; with any other
    answer the table is unchanged. *)
Theorem update_session_accepts (env : Env) (uuid : string) (r : Request)
    (p seg id : string) (w : World) :
  httpMethod r = PUT -> reaches (url r) p ->
  Express.matchParam "/sessions/" p = Some seg ->
  Express.decodeParam seg = Ok id ->
  authorized env r ->
  NoDup (ids (table w)) ->
  let b := orElse (jsonBody r) emptyObject in
  let date := getProp b "date" in
  let distance := getProp b "distance" in
  let type := getProp b "type" in
  (status (fst (app env uuid r w)) = 200 <->
   updatable date distance type = true /\ In id (ids (table w)))
  /\ (status (fst (app env uuid r w)) = 200 ->
      fst (app env uuid r w)
      = json 200 (VObj [("id", VStr id); ("date", date);
                        ("distance", distance); ("type", type)])
      /\ table (snd (app env uuid r w))
         = rewritten id date distance type (table w))
  /\ (status (fst (app env uuid r w)) <> 200 ->
      table (snd (app env uuid r w)) = table w).
Proof.
  intros Hm Hr Hp Hd Ha Hn b date distance type.
  pose proof (route_put env uuid r p seg Hm Hp) as Hroute.
  assert (Hrun : forall res w',
             updateSession (expressReq r p (VObj [("id", VStr id)])) w
             = (Ok res, w') ->
             app env uuid r w = (res, w')).
  { intros res w'.
    apply (app_with_id env uuid r p seg id updateSession w w' res);
      try assumption. congruence. }
  pose proof (updateSession_run (expressReq r p (VObj [("id", VStr id)])) w)
    as H.
  cbv zeta in H.
  change (reqBody (expressReq r p (VObj [("id", VStr id)])))
    with (jsonBody r) in H.
  change (MySQL.sqlText
            (getProp (params (expressReq r p (VObj [("id", VStr id)]))) "id"))
    with id in H.
  change (getProp (params (expressReq r p (VObj [("id", VStr id)]))) "id")
    with (VStr id) in H.
  fold b in H. fold date distance type in H.
  destruct (updatable date distance type) eqn:Hu.
  - rewrite (Hrun _ _ H).
    change (strictEqNum (VNum (JSNumber.ofZ ?n)) JSNumber.zero)
      with (noneAffected n).
    rewrite (noneAffected_unique id (table w) Hn). cbn [fst snd table].
    destruct (List.existsb (MySQL.hasId id) (table w)) eqn:He; cbn [negb].
    + apply ids_In in He. split; [split; [tauto|reflexivity]|].
      split; [intros _; split; reflexivity|]. intros Hs. now destruct Hs.
    + split; [split; [discriminate|]|].
      * intros [_ Hin]. apply ids_In in Hin. congruence.
      * split; [discriminate|]. intros _. now apply rewritten_absent.
  - destruct H as (code & msg & Hc & H). rewrite (Hrun _ _ H). cbn [fst snd].
    cbn [status json].
    split; [split; [destruct Hc; subst code; discriminate
                   |intros [Hf _]; discriminate Hf]|].
    split; [destruct Hc; subst code; discriminate|reflexivity].
Qed.

Lemma update_session_accepts_witness :
  status (fst (app secretEnv "u" (putRun "/api/sessions/a1") oneRow)) = 200
  /\ table (snd (app secretEnv "u" (putRun "/api/sessions/a1") oneRow))
     = [{| MySQL.row_id := "a1"; MySQL.row_date := "2024-01-01";
           MySQL.row_distance := JSNumber.ofZ 1500;
           MySQL.row_type := "run" |}].
Proof.
  destruct (update_session_accepts secretEnv "u"
              (putRun "/api/sessions/a1") "/sessions/a1" "a1" "a1"
              oneRow) as [H1 [H2 _]].
  - reflexivity.
  - right. reflexivity.
  - reflexivity.
  - reflexivity.
  - reflexivity.
  - apply NoDup_singleton.
  - assert (Hs : status (fst (app secretEnv "u" (putRun "/api/sessions/a1")
                               oneRow)) = 200).
    { apply H1. split; [reflexivity|]. now left. }
    split; [exact Hs|]. now rewrite (proj2 (H2 Hs)).
Defined.

(** X17: an authorized DELETE /sessions/:id removes every row of
    that id and no other, so no row has the id afterwards; on a
    table whose ids are pairwise distinct it is answered 204 when a
    row had the id and 404 when none had. *)
Theorem delete_session_removes (env : Env) (uuid : string) (r : Request)
    (p seg id : string) (w : World) :
  httpMethod r = DELETE -> reaches (url r) p ->
  Express.matchParam "/sessions/" p = Some seg ->
  Express.decodeParam seg = Ok id ->
  authorized env r ->
  table (snd (app env uuid r w)) = remaining id (table w)
  /\ ~ In id (ids (table (snd (app env uuid r w))))
  /\ (NoDup (ids (table w)) ->
      fst (app env uuid r w)
      = if List.existsb (MySQL.hasId id) (table w)
        then noContent else json 404 (errorBody "not found")).
Proof.
  intros Hm Hr Hp Hd Ha.
  pose proof (route_delete env uuid r p seg Hm Hp) as Hroute.
  rewrite (app_with_id env uuid r p seg id deleteSession w _ _ Hr
             ltac:(congruence) Hp Hroute Hd Ha
             (deleteSession_run (expressReq r p (VObj [("id", VStr id)])) w)).
  cbn [fst snd table].
  change (MySQL.sqlText
            (getProp (params (expressReq r p (VObj [("id", VStr id)]))) "id"))
    with id.
  split; [reflexivity|]. split.
  - unfold ids. rewrite in_map_iff. intros [row [Hi Hin]].
    apply remaining_In in Hin. tauto.
  - intros Hn. rewrite (noneAffected_unique id (table w) Hn).
    now destruct (List.existsb _ (table w)).
Qed.

Lemma delete_session_removes_witness :
  table (snd (app secretEnv "u" (deleteRequest apiKeyHeaders "a1") oneRow))
  = remaining "a1" (table oneRow)
  /\ ~ In "a1"%string
       (ids (table (snd (app secretEnv "u"
                           (deleteRequest apiKeyHeaders "a1") oneRow)))).
Proof.
  destruct (delete_session_removes secretEnv "u"
              (deleteRequest apiKeyHeaders "a1") "/sessions/a1" "a1" "a1"
              oneRow) as [H1 [H2 _]].
  - reflexivity.
  - now left.
  - reflexivity.
  - reflexivity.
  - reflexivity.
  - now split.
Defined.



(** ** The whitelist of origins *)

Lemma includes_char (c : ascii) (s : string) :
  JSString.includes s (String c EmptyString)
  = negb (allChars (fun x => negb (Ascii.eqb x c)) s).
Proof.
  induction s as [|x s IH]; [reflexivity|].
  cbn [JSString.includes allChars]. rewrite IH.
  change (String.prefix (String c EmptyString) (String x s))
    with (if ascii_dec c x then String.prefix EmptyString s else false).
  destruct (ascii_dec c x) as [->|Hn].
  - rewrite Ascii.eqb_refl. now destruct s.
  - apply not_eq_sym in Hn. apply Ascii.eqb_neq in Hn. now rewrite Hn.
Qed.

Lemma split_parts (sep : ascii) (s part : string) :
  In part (JSString.split sep s) ->
  allChars (fun x => negb (Ascii.eqb x sep)) part = true.
Proof.
  revert part. induction s as [|c s IH]; intros part.
  - intros [<-|[]]. reflexivity.
  - cbn [JSString.split]. destruct (Ascii.eqb c sep) eqn:Hc.
    + intros [<-|Hin]; [reflexivity|now apply IH].
    + destruct (JSString.split sep s) as [|x xs].
      * intros [<-|[]]. cbn [allChars]. now rewrite Hc.
      * intros [<-|Hin].
        -- cbn [allChars]. rewrite Hc. apply IH. now left.
        -- apply IH. now right.
Qed.

Lemma trimStart_allChars (f : ascii -> bool) (s : string) :
  allChars f s = true -> allChars f (JSString.trimStart s) = true.
Proof.
  induction s as [|c s IH]; [easy|]. cbn [JSString.trimStart].
  destruct (JSString.isWhiteSpace c); [|easy].
  cbn [allChars]. intros H. apply andb_true_iff in H. now apply IH.
Qed.

Lemma trimEnd_allChars (f : ascii -> bool) (s : string) :
  allChars f s = true -> allChars f (JSString.trimEnd s) = true.
Proof.
  induction s as [|c s IH]; [easy|]. cbn [JSString.trimEnd allChars].
  intros H. apply andb_true_iff in H. destruct H as [Hc Hs].
  specialize (IH Hs). destruct (JSString.trimEnd s).
  - destruct (JSString.isWhiteSpace c); [reflexivity|].
    cbn [allChars]. now rewrite Hc.
  - cbn [allChars] in *. now rewrite Hc.
Qed.

(** X19: every entry of the whitelist read from CORS_ORIGIN is not
    empty, has no white space around it and holds no comma. *)
Theorem whitelist_entries_are_clean (env : Env) (s : string) :
  In s (WHITELIST env) -> cleanOrigin s.
Proof.
  unfold WHITELIST, cleanOrigin. rewrite filter_In, in_map_iff.
  intros [[part [<- Hin]] Hne]. split; [|split].
  - intros He. now rewrite He in Hne.
  - apply trim_idem.
  - rewrite includes_char. apply negb_false_iff.
    unfold JSString.trim. apply trimEnd_allChars, trimStart_allChars.
    exact (split_parts _ _ _ Hin).
Qed.

Lemma whitelist_entries_are_clean_witness :
  cleanOrigin "http://localhost:3000".
Proof.
  apply (whitelist_entries_are_clean
           {| EDIT_TOKEN := None;
              CORS_ORIGIN :=
                Some "https://natrack.prjski.com, http://localhost:3000 ,," |}
           "http://localhost:3000").
  vm_compute. tauto.
Defined.

Lemma split_append (sep : ascii) (p rest : string) :
  allChars (fun x => negb (Ascii.eqb x sep)) p = true ->
  JSString.split sep (p +:+ String sep rest)
  = p :: JSString.split sep rest.
Proof.
  induction p as [|c p IH].
  - intros _. change (EmptyString +:+ String sep rest) with (String sep rest).
    cbn [JSString.split]. now rewrite Ascii.eqb_refl.
  - cbn [allChars]. intros H. apply andb_true_iff in H.
    destruct H as [Hc Hp]. rewrite append_cons. cbn [JSString.split].
    apply negb_true_iff in Hc. rewrite Hc, (IH Hp). reflexivity.
Qed.

Lemma split_plain (sep : ascii) (p : string) :
  allChars (fun x => negb (Ascii.eqb x sep)) p = true ->
  JSString.split sep p = [p].
Proof.
  induction p as [|c p IH]; [reflexivity|].
  cbn [allChars]. intros H. apply andb_true_iff in H.
  destruct H as [Hc Hp]. cbn [JSString.split].
  apply negb_true_iff in Hc. now rewrite Hc, (IH Hp).
Qed.

Lemma split_join (l : list string) :
  l <> [] ->
  List.Forall cleanOrigin l ->
  JSString.split "," (JSString.join "," l) = l.
Proof.
  induction l as [|p l IH]; [congruence|]. intros _ Hc.
  apply List.Forall_cons_iff in Hc. destruct Hc as [[_ [_ Hp]] Hl].
  rewrite includes_char in Hp. apply negb_false_iff in Hp.
  destruct l as [|p' l].
  - now apply split_plain.
  - change (JSString.join "," (p :: p' :: l))
      with (p +:+ String "," (JSString.join "," (p' :: l))).
    rewrite (split_append _ _ _ Hp), IH; [reflexivity|discriminate|exact Hl].
Qed.

(** X20: reading back a list of origins written to CORS_ORIGIN with
    commas between them gives the same list, when every origin is
    not empty, has no white space around it and holds no comma; an
    unset variable gives the empty list. *)
Theorem whitelist_round_trip (token : option string) (l : list string) :
  List.Forall cleanOrigin l ->
  WHITELIST {| EDIT_TOKEN := token;
               CORS_ORIGIN := Some (JSString.join "," l) |} = l
  /\ WHITELIST {| EDIT_TOKEN := token; CORS_ORIGIN := None |} = [].
Proof.
  intros Hc. split; [|reflexivity]. unfold WHITELIST.
  cbn [CORS_ORIGIN orEmpty]. destruct l as [|p l]; [reflexivity|].
  rewrite split_join by (discriminate || exact Hc).
  induction Hc as [|s rest [Hne [Ht _]] _ IH]; [reflexivity|].
  cbn [List.map List.filter]. rewrite Ht, IH.
  now destruct s.
Qed.

Lemma whitelist_round_trip_witness :
  WHITELIST
    {| EDIT_TOKEN := None;
       CORS_ORIGIN :=
         Some (JSString.join ","
                 ["https://natrack.prjski.com"; "http://localhost:3000"]) |}
  = ["https://natrack.prjski.com"; "http://localhost:3000"].
Proof.
  apply (whitelist_round_trip None
           ["https://natrack.prjski.com"; "http://localhost:3000"]).
  repeat constructor; discriminate.
Defined.


